(** * Assessment session orchestrator: grading, audio decoding, session
      state machine and grammar-passage rendering.

    Shallow embedding of the TypeScript sources

    - [services/geminiService.ts]  (API-backed gateway, [callApi]),
    - the direct gateway (the second services file, with [getAiClient]),
    - [types.ts],
    - the two variants of [App], [GrammarSection] and [TestPaperView],
    - the serverless function behind [callApi], with its handlers,
    - the two variants of [Dashboard], of the spelling exercise
      ([VocabSection], [VocabPracticeView]) and of [TextSelectionLookup],
      and the review of a graded paper ([TestResultView]).

    Conventions.
    - A JavaScript string is a [string]: a sequence of code units below 256
      (the Latin-1 range), on which [toLowerCase] and [trim] are the
      ECMAScript functions.
    - A JavaScript [number] holding an integer (scores, blank ids, PCM
      samples) is a [Z]; the single floating-point computation of the
      program, the sample normalisation, is modelled with IEEE-754 binary64
      and binary32 arithmetic ([SpecFloat]).
    - The own properties of a [Record<string, T>] are a [gmap string T];
      reading [obj[k]] goes through [JsObject.get], which also finds the
      members that every plain object inherits from [Object.prototype],
      and an assignment [obj[k] = v] through [JsObject.assign]. An object
      indexed by the number of a blank is a [gmap Z T]: no number is the
      name of an inherited member.
    - An optional field is an [option] where the program only tests it for
      truthiness, so that an omitted field and [null] need not be told
      apart; [correctAnswer], which the second variant compares with
      [===], is a [Nullable].
    - An awaited gateway call is answered by the environment: it resolves
      with a value of the declared type or rejects. *)

From Stdlib Require Import ZArith List String Ascii Bool Lia SpecFloat QArith.
From Stdlib Require Import DecimalString DecimalZ.
From stdpp Require Import gmap strings list sorting.

Local Open Scope string_scope.
Local Open Scope Z_scope.
Local Open Scope list_scope.

(** ** JavaScript strings *)

Module JsString.

Definition charCode (c : ascii) : Z := Z.of_N (N_of_ascii c).

Definition fromCharCode (n : Z) : ascii := ascii_of_N (Z.to_N n).

(** [WhiteSpace] and [LineTerminator] code points below 256: TAB, LF, VT,
    FF, CR, SP and NBSP. *)
Definition isWhiteSpace (c : ascii) : bool :=
  let n := charCode c in
  ((9 <=? n) && (n <=? 13)) || (n =? 32) || (n =? 160).

(** Upper-case letters below 256: A-Z and the Latin-1 capitals
    U+00C0..U+00DE except the multiplication sign U+00D7. *)
Definition isUpper (c : ascii) : bool :=
  let n := charCode c in
  ((65 <=? n) && (n <=? 90)) ||
  ((192 <=? n) && (n <=? 222) && negb (n =? 215)).

Definition toLowerChar (c : ascii) : ascii :=
  if isUpper c then fromCharCode (charCode c + 32) else c.

Fixpoint toLowerCase (s : string) : string :=
  match s with
  | EmptyString => EmptyString
  | String c s' => String (toLowerChar c) (toLowerCase s')
  end.

Fixpoint trimStart (s : string) : string :=
  match s with
  | EmptyString => EmptyString
  | String c s' => if isWhiteSpace c then trimStart s' else s
  end.

Fixpoint trimEnd (s : string) : string :=
  match s with
  | EmptyString => EmptyString
  | String c s' =>
      match trimEnd s' with
      | EmptyString => if isWhiteSpace c then EmptyString else String c EmptyString
      | t => String c t
      end
  end.

Definition trim (s : string) : string := trimEnd (trimStart s).

(** Truthiness of a string: the empty string is falsy. *)
Definition truthy (s : string) : bool :=
  match s with EmptyString => false | String _ _ => true end.

(** Truthiness of [string | undefined]. *)
Definition truthyOpt (o : option string) : bool :=
  match o with Some s => truthy s | None => false end.

(** [o || d] for [o : string | undefined]. *)
Definition orElse (o : option string) (d : string) : string :=
  match o with
  | Some s => if truthy s then s else d
  | None => d
  end.

Fixpoint allWhiteSpace (s : string) : bool :=
  match s with
  | EmptyString => true
  | String c s' => isWhiteSpace c && allWhiteSpace s'
  end.

End JsString.

(** ** Plain objects used as dictionaries *)

Module JsObject.

(** The properties that a plain object inherits from [Object.prototype]. *)
Definition prototypeMembers : list string :=
  ["constructor"; "hasOwnProperty"; "isPrototypeOf"; "propertyIsEnumerable";
   "toLocaleString"; "toString"; "valueOf"; "__proto__";
   "__defineGetter__"; "__defineSetter__"; "__lookupGetter__";
   "__lookupSetter__"].

Definition inherits (k : string) : bool :=
  existsb (String.eqb k) prototypeMembers.
Arguments inherits : simpl never.

(** What [obj[k]] can be when the own properties of [obj] hold values of
    type [A]: such a value, or the member of [Object.prototype] of that
    name (a function, or the prototype itself for ["__proto__"]), which is
    truthy, is no string and has none of the methods of a string. *)
Inductive Value (A : Type) :=
| Val (a : A)
| Member (name : string).
Arguments Val {A} a.
Arguments Member {A} name.

(** [obj[k]]; [None] is [undefined]. *)
Definition get {A : Type} (obj : gmap string A) (k : string)
  : option (Value A) :=
  match obj !! k with
  | Some a => Some (Val a)
  | None => if inherits k then Some (Member k) else None
  end.

(** [obj[k] = v] for a [v] that is not an object: the assignment to
    ["__proto__"] reaches the inherited setter, which ignores such a value;
    every other key becomes an own property. *)
Definition assign {A : Type} (k : string) (v : A) (obj : gmap string A)
  : gmap string A :=
  if String.eqb k "__proto__" then obj else <[k := v]> obj.

(** Truthiness of [obj[k]] for string values. *)
Definition truthy (v : option (Value string)) : bool :=
  match v with
  | Some (Val s) => JsString.truthy s
  | Some (Member _) => true
  | None => false
  end.

(** [obj[k] || d] for string values. *)
Definition orElse (v : option (Value string)) (d : string) : Value string :=
  match v with
  | Some (Val s) => if JsString.truthy s then Val s else Val d
  | Some (Member name) => Member name
  | None => Val d
  end.

End JsObject.

(** ** [types.ts] *)

(** A field that the reply schema declares nullable and the type declares
    optional: omitted, [null], or given. *)
Inductive Nullable (A : Type) :=
| Omitted
| Null
| Given (a : A).
Arguments Omitted {A}.
Arguments Null {A}.
Arguments Given {A} a.

Inductive Publisher := PEP | FLTRP | YILIN.
Inductive Grade := Seven | Eight | Nine.
Inductive Term := One | Two.

Module AppMode.
Inductive t := Setup | Dashboard | VocabPractice | TestPaper | TestResult.
End AppMode.

Module TextbookConfig.
Record t := { publisher : Publisher; grade : Grade; term : Term }.
End TextbookConfig.

Module VocabItem.
Record t := {
  id : string; english : string; chinese : string;
  partOfSpeech : string; example : string }.
End VocabItem.

Module GrammarBlank.
Record t := { id : Z; hint : string; answer : string; explanation : string }.
End GrammarBlank.

Module GrammarPracticeData.
Record t := { title : string; story : string; blanks : list GrammarBlank.t }.
End GrammarPracticeData.

Module PracticeSessionData.
Record t := { vocab : list VocabItem.t; grammar : GrammarPracticeData.t }.
End PracticeSessionData.

Inductive QuestionType := multiple_choice | boolean | fill_in_blank | writing.

Module Question.
Record t := {
  id : string;
  type : QuestionType;
  prompt : string;
  options : option (list string);
  correctAnswer : Nullable string;
  explanation : option string;
  userAnswer : option string;
  maxScore : Z }.
End Question.

Inductive SectionType := listening | reading | vocabulary | writing_section.

Module TestSection.
Record t := {
  id : string;
  title : string;
  type : SectionType;
  readingPassage : option string;
  questions : list Question.t }.
End TestSection.

Module TestPaperData.
Record t := {
  id : string;
  title : string;
  listeningScript : option string;
  listeningAudioBase64 : option string;
  sections : list TestSection.t }.
End TestPaperData.

Module WritingFeedback.
Record t := { score : Z; feedback : string; improvedVersion : string }.
End WritingFeedback.

Module TestResult.
Record t := {
  paperId : string;
  totalScore : Z;
  maxTotalScore : Z;
  sectionScores : gmap string Z;
  writingFeedback : option (gmap string WritingFeedback.t);
  answers : gmap string string }.
End TestResult.

(** ** The generation gateway *)

(** Result of an awaited promise. *)
Inductive Outcome (A : Type) :=
| Resolved (a : A)
| Rejected.
Arguments Resolved {A} a.
Arguments Rejected {A}.

Module Gateway.

(** What [fetch] and [response.json()] deliver to [callApi]: the request
    itself may fail, otherwise there is a status ([response.ok]) and a
    body that parses ([Some]) or not ([None]). *)
Inductive HttpReply (A : Type) :=
| NetworkError
| Response (ok : bool) (body : option A).
Arguments NetworkError {A}.
Arguments Response {A} ok body.

(** [callApi]: a non-ok status throws; otherwise the parsed body is
    returned, and a body that does not parse rejects. *)
Definition callApi {A : Type} (reply : HttpReply A) : Outcome A :=
  match reply with
  | NetworkError => Rejected
  | Response false _ => Rejected
  | Response true (Some a) => Resolved a
  | Response true None => Rejected
  end.

(** [gradeWriting] of the API-backed gateway. *)
Definition gradeWriting (reply : HttpReply WritingFeedback.t)
  : Outcome WritingFeedback.t :=
  callApi reply.

(** What [JSON.parse] makes of the text of the model: it throws, or
    returns a feedback, or returns another JSON value. *)
Inductive Parsed :=
| Unparsable
| ParsedFeedback (f : WritingFeedback.t)
| ParsedOther.

(** What [ai.models.generateContent] delivers to the direct gateway: the
    call throws, or the response has no text ([response.text] is
    [undefined] or empty), or it has a text. *)
Inductive ModelReply :=
| ModelError
| ModelNoText
| ModelText (parsed : Parsed).

(** What the direct [gradeWriting] resolves with. The result of
    [JSON.parse] is returned unchecked: it is a feedback, or a value
    without the fields of one, such as the [{}] that stands in for a
    missing text. *)
Inductive Graded :=
| Feedback (f : WritingFeedback.t)
| NotFeedback.

Definition gradingFallback : WritingFeedback.t :=
  {| WritingFeedback.score := 0;
     WritingFeedback.feedback := "Could not grade automatically.";
     WritingFeedback.improvedVersion := "" |}.

(** [gradeWriting] of the direct gateway: [getAiClient] throws outside the
    [try] when the API key is missing; every error inside the [try] is
    caught and replaced by [gradingFallback];
    [JSON.parse(response.text || "{}")] turns a missing text into [{}]. *)
Definition gradeWritingDirect (apiKey : bool) (reply : ModelReply)
  : Outcome Graded :=
  if apiKey then
    match reply with
    | ModelError => Resolved (Feedback gradingFallback)
    | ModelNoText => Resolved NotFeedback
    | ModelText Unparsable => Resolved (Feedback gradingFallback)
    | ModelText (ParsedFeedback f) => Resolved (Feedback f)
    | ModelText ParsedOther => Resolved NotFeedback
    end
  else Rejected.

(** The outcome as the callers take it, which rely on the declared type
    [Promise<WritingFeedback>]; there is none for a value that is not a
    feedback. *)
Definition typed (o : Outcome Graded) : option (Outcome WritingFeedback.t) :=
  match o with
  | Resolved (Feedback f) => Some (Resolved f)
  | Resolved NotFeedback => None
  | Rejected => Some Rejected
  end.

End Gateway.

(** A [gradeWriting] request as the grading pipeline issues it. The
    student answer is declared a string; the first variant passes
    [answers[q.id] || ""] and the second [answers[q.id] || "No answer
    provided."], which is an inherited member of [Object.prototype] when
    the question is unanswered and its id is the name of one. *)
Module GradeCall.
Record t := {
  question : string;
  studentAnswer : JsObject.Value string;
  gradeLevel : Grade }.
End GradeCall.

(** The environment's answer to the [k]-th [gradeWriting] call of a
    submission, which may depend on the request. *)
Definition Grader := nat -> GradeCall.t -> Outcome WritingFeedback.t.

(** A computation that completes or is abandoned by an uncaught
    exception or rejection; the requests sent until then are kept. *)
Inductive Run (A : Type) :=
| Done (a : A)
| Thrown (calls : list GradeCall.t).
Arguments Done {A} a.
Arguments Thrown {A} calls.

(** A [for ... of] loop whose body may throw. *)
Fixpoint forOf {A B : Type} (body : A -> B -> Run A) (l : list B) (a : A)
  : Run A :=
  match l with
  | [] => Done a
  | b :: l' =>
      match body a b with
      | Done a' => forOf body l' a'
      | Thrown calls => Thrown calls
      end
  end.

(** ** [TestPaperView], first variant *)

Module TestPaperView.

Record Score := { total : Z; max : Z }.

(** Component state. *)
Record State := {
  answers : gmap string string;
  showResult : bool;
  grading : bool;
  writingFeedback : gmap string WritingFeedback.t;
  score : Score;
  isPlaying : bool;
  showListeningScript : bool }.

Definition initial : State :=
  {| answers := ∅; showResult := false; grading := false;
     writingFeedback := ∅; score := {| total := 0; max := 0 |};
     isPlaying := false; showListeningScript := false |}.

(** [handleAnswer]: [setAnswers(prev => ({ ...prev, [qId]: val }))]; the
    computed key defines an own property, whatever its name. *)
Definition handleAnswer (qId val : string) (st : State) : State :=
  {| answers := <[qId := val]> (answers st);
     showResult := showResult st; grading := grading st;
     writingFeedback := writingFeedback st; score := score st;
     isPlaying := isPlaying st;
     showListeningScript := showListeningScript st |}.

(** Local variables of [handleSubmit], with the requests sent so far. In
    [newWritingFeedback] the entry under ["__proto__"], if any, is the
    prototype that the assignment [newWritingFeedback[q.id] = feedback]
    installs for that key, and which [newWritingFeedback[q.id]] reads
    back; the other entries are own properties. *)
Record Acc := {
  totalScore : Z;
  maxTotalScore : Z;
  newWritingFeedback : gmap string WritingFeedback.t;
  issued : list GradeCall.t }.

Definition start : Acc :=
  {| totalScore := 0; maxTotalScore := 0; newWritingFeedback := ∅;
     issued := [] |}.

(** [q.correctAnswer && answers[q.id]?.trim().toLowerCase() === q.correctAnswer.trim().toLowerCase()].
    The optional chaining stops at [undefined] only: on an inherited
    member, which has no [trim], the call throws a [TypeError] ([None]). *)
Definition isMatch (userAns : option (JsObject.Value string))
    (correct : Nullable string) : option bool :=
  match correct with
  | Given c =>
      if JsString.truthy c then
        match userAns with
        | Some (JsObject.Val a) =>
            Some (String.eqb (JsString.toLowerCase (JsString.trim a))
                             (JsString.toLowerCase (JsString.trim c)))
        | Some (JsObject.Member _) => None
        | None => Some false
        end
      else Some false
  | Omitted | Null => Some false
  end.

(** Body of the inner loop of [handleSubmit]. A rejected [gradeWriting]
    call is caught; the [TypeError] of the comparison is not. *)
Definition gradeQuestion (grader : Grader) (config : TextbookConfig.t)
    (ans : gmap string string) (acc : Acc) (q : Question.t) : Run Acc :=
  let maxTotal := maxTotalScore acc + Question.maxScore q in
  match Question.type q with
  | writing =>
      let userAnswer := JsObject.orElse (JsObject.get ans (Question.id q)) "" in
      if JsObject.truthy (Some userAnswer) then
        let call :=
          {| GradeCall.question := Question.prompt q;
             GradeCall.studentAnswer := userAnswer;
             GradeCall.gradeLevel := TextbookConfig.grade config |} in
        match grader (length (issued acc)) call with
        | Resolved fb =>
            Done
              {| totalScore := totalScore acc + WritingFeedback.score fb;
                 maxTotalScore := maxTotal;
                 newWritingFeedback :=
                   <[Question.id q := fb]> (newWritingFeedback acc);
                 issued := issued acc ++ [call] |}
        | Rejected =>
            Done
              {| totalScore := totalScore acc;
                 maxTotalScore := maxTotal;
                 newWritingFeedback := newWritingFeedback acc;
                 issued := issued acc ++ [call] |}
        end
      else
        Done
          {| totalScore := totalScore acc; maxTotalScore := maxTotal;
             newWritingFeedback := newWritingFeedback acc;
             issued := issued acc |}
  | _ =>
      match isMatch (JsObject.get ans (Question.id q)) (Question.correctAnswer q) with
      | Some true =>
          Done
            {| totalScore := totalScore acc + Question.maxScore q;
               maxTotalScore := maxTotal;
               newWritingFeedback := newWritingFeedback acc;
               issued := issued acc |}
      | Some false =>
          Done
            {| totalScore := totalScore acc; maxTotalScore := maxTotal;
               newWritingFeedback := newWritingFeedback acc;
               issued := issued acc |}
      | None => Thrown (issued acc)
      end
  end.

Definition gradeSection (grader : Grader) (config : TextbookConfig.t)
    (ans : gmap string string) (acc : Acc) (s : TestSection.t) : Run Acc :=
  forOf (gradeQuestion grader config ans) (TestSection.questions s) acc.

(** The two nested loops of [handleSubmit]. *)
Definition gradePaper (grader : Grader) (config : TextbookConfig.t)
    (ans : gmap string string) (paper : TestPaperData.t) : Run Acc :=
  forOf (gradeSection grader config ans) (TestPaperData.sections paper) start.

(** [handleSubmit]: the state once the returned promise has settled, with
    the requests that were sent, when no other handler runs in between.
    The answers graded are those of the state at the click. When the
    comparison throws, the promise rejects after [setGrading(true)] and
    nothing else is set. *)
Definition handleSubmit (grader : Grader) (config : TextbookConfig.t)
    (paper : TestPaperData.t) (st : State) : State * list GradeCall.t :=
  match gradePaper grader config (answers st) paper with
  | Done acc =>
      ({| answers := answers st;
          showResult := true;
          grading := false;
          writingFeedback := newWritingFeedback acc;
          score := {| total := totalScore acc; max := maxTotalScore acc |};
          isPlaying := isPlaying st;
          showListeningScript := showListeningScript st |},
       issued acc)
  | Thrown calls =>
      ({| answers := answers st; showResult := showResult st;
          grading := true; writingFeedback := writingFeedback st;
          score := score st; isPlaying := isPlaying st;
          showListeningScript := showListeningScript st |},
       calls)
  end.

(** [handleSubmit] when the user goes on answering while the requests
    are awaited: only the submit button is disabled in the meantime.
    [edits] are the calls of [handleAnswer] made until the promise
    settles; they change the answers of the state, not the answers that
    are graded. Without a request nothing is awaited and no other
    handler can run. *)
Definition handleSubmitEditing (edits : list (string * string))
    (grader : Grader) (config : TextbookConfig.t) (paper : TestPaperData.t)
    (st : State) : State * list GradeCall.t :=
  let (final, calls) := handleSubmit grader config paper st in
  match calls with
  | [] => (final, calls)
  | _ :: _ =>
      (fold_left (fun s e => handleAnswer (fst e) (snd e) s) edits final, calls)
  end.

End TestPaperView.

(** ** [TestPaperView], second variant *)

Module TestPaperView2.

(** Component state. *)
Record State := {
  answers : gmap string string;
  submitted : bool;
  result : option TestResult.t;
  writingFeedback : gmap string WritingFeedback.t;
  isGrading : bool }.

Definition initial : State :=
  {| answers := ∅; submitted := false; result := None;
     writingFeedback := ∅; isGrading := false |}.

(** The [onChange] handlers: [setAnswers({...answers, [q.id]: val})]. *)
Definition setAnswer (qId val : string) (st : State) : State :=
  {| answers := <[qId := val]> (answers st);
     submitted := submitted st; result := result st;
     writingFeedback := writingFeedback st; isGrading := isGrading st |}.

(** Local variables of [handleSubmit], with the requests sent so far;
    [newWritingFeedback] as in the first variant. *)
Record Acc := {
  totalScore : Z;
  maxTotalScore : Z;
  sectionScores : gmap string Z;
  newWritingFeedback : gmap string WritingFeedback.t;
  sectionScore : Z;
  issued : list GradeCall.t }.

Definition start : Acc :=
  {| totalScore := 0; maxTotalScore := 0; sectionScores := ∅;
     newWritingFeedback := ∅; sectionScore := 0; issued := [] |}.

(** [userAns === q.correctAnswer]: [undefined] is identical to the value
    of an omitted field, not to [null]; an inherited member is identical
    to no key. *)
Definition strictEq (a : option (JsObject.Value string)) (b : Nullable string)
  : bool :=
  match a, b with
  | Some (JsObject.Val x), Given y => String.eqb x y
  | None, Omitted => true
  | _, _ => false
  end.

(** Body of the inner loop of [handleSubmit]; the awaited call is not
    inside any [try]. *)
Definition gradeQuestion (grader : Grader) (config : TextbookConfig.t)
    (ans : gmap string string) (acc : Acc) (q : Question.t) : Run Acc :=
  let maxTotal := maxTotalScore acc + Question.maxScore q in
  let userAns := JsObject.get ans (Question.id q) in
  match Question.type q with
  | writing =>
      let call :=
        {| GradeCall.question := Question.prompt q;
           GradeCall.studentAnswer :=
             JsObject.orElse userAns "No answer provided.";
           GradeCall.gradeLevel := TextbookConfig.grade config |} in
      match grader (length (issued acc)) call with
      | Resolved fb =>
          Done
            {| totalScore := totalScore acc + WritingFeedback.score fb;
               maxTotalScore := maxTotal;
               sectionScores := sectionScores acc;
               newWritingFeedback :=
                 <[Question.id q := fb]> (newWritingFeedback acc);
               sectionScore := sectionScore acc + WritingFeedback.score fb;
               issued := issued acc ++ [call] |}
      | Rejected => Thrown (issued acc ++ [call])
      end
  | _ =>
      if strictEq userAns (Question.correctAnswer q) then
        Done
          {| totalScore := totalScore acc + Question.maxScore q;
             maxTotalScore := maxTotal;
             sectionScores := sectionScores acc;
             newWritingFeedback := newWritingFeedback acc;
             sectionScore := sectionScore acc + Question.maxScore q;
             issued := issued acc |}
      else
        Done
          {| totalScore := totalScore acc; maxTotalScore := maxTotal;
             sectionScores := sectionScores acc;
             newWritingFeedback := newWritingFeedback acc;
             sectionScore := sectionScore acc;
             issued := issued acc |}
  end.

(** Body of the outer loop: [let sectionScore = 0], the inner loop, then
    [sectionScores[section.id] = sectionScore]. *)
Definition gradeSection (grader : Grader) (config : TextbookConfig.t)
    (ans : gmap string string) (acc : Acc) (s : TestSection.t) : Run Acc :=
  let acc0 :=
    {| totalScore := totalScore acc; maxTotalScore := maxTotalScore acc;
       sectionScores := sectionScores acc;
       newWritingFeedback := newWritingFeedback acc;
       sectionScore := 0; issued := issued acc |} in
  match forOf (gradeQuestion grader config ans) (TestSection.questions s) acc0 with
  | Done acc1 =>
      Done
        {| totalScore := totalScore acc1;
           maxTotalScore := maxTotalScore acc1;
           sectionScores :=
             JsObject.assign (TestSection.id s) (sectionScore acc1)
               (sectionScores acc1);
           newWritingFeedback := newWritingFeedback acc1;
           sectionScore := sectionScore acc1;
           issued := issued acc1 |}
  | Thrown calls => Thrown calls
  end.

Definition gradePaper (grader : Grader) (config : TextbookConfig.t)
    (ans : gmap string string) (paper : TestPaperData.t) : Run Acc :=
  forOf (gradeSection grader config ans) (TestPaperData.sections paper) start.

(** [handleSubmit]: [confirmed] is the user's answer to [confirm(...)].
    The answers graded, and stored in the result, are those of the state
    at the click. When a [gradeWriting] call rejects, the promise of
    [handleSubmit] rejects after [setIsGrading(true)] and nothing else is
    set. *)
Definition handleSubmit (confirmed : bool) (grader : Grader)
    (config : TextbookConfig.t) (paper : TestPaperData.t) (st : State)
  : State * list GradeCall.t :=
  if confirmed then
    match gradePaper grader config (answers st) paper with
    | Done acc =>
        ({| answers := answers st;
            submitted := true;
            result :=
              Some {| TestResult.paperId := TestPaperData.id paper;
                      TestResult.totalScore := totalScore acc;
                      TestResult.maxTotalScore := maxTotalScore acc;
                      TestResult.sectionScores := sectionScores acc;
                      TestResult.writingFeedback :=
                        Some (newWritingFeedback acc);
                      TestResult.answers := answers st |};
            writingFeedback := newWritingFeedback acc;
            isGrading := false |},
         issued acc)
    | Thrown calls =>
        ({| answers := answers st; submitted := submitted st;
            result := result st; writingFeedback := writingFeedback st;
            isGrading := true |},
         calls)
    end
  else (st, []).

End TestPaperView2.

(** ** [App]: the session state machine *)

Module App.

Record State := {
  mode : AppMode.t;
  config : option TextbookConfig.t;
  practiceData : option PracticeSessionData.t;
  testPaper : option TestPaperData.t;
  isLoading : bool;
  loadingMessage : string }.

Definition initial : State :=
  {| mode := AppMode.Setup; config := None; practiceData := None;
     testPaper := None; isLoading := false; loadingMessage := "" |}.

(** The state setters and the other observable effects of a handler, in
    the order the handler performs them. *)
Inductive Effect :=
| SetMode (m : AppMode.t)
| SetConfig (c : TextbookConfig.t)
| SetPracticeData (d : PracticeSessionData.t)
| SetTestPaper (p : TestPaperData.t)
| SetIsLoading (b : bool)
| SetLoadingMessage (s : string)
| Alert (s : string)
| ConsoleError (s : string).

Definition apply (st : State) (e : Effect) : State :=
  match e with
  | SetMode m =>
      {| mode := m; config := config st; practiceData := practiceData st;
         testPaper := testPaper st; isLoading := isLoading st;
         loadingMessage := loadingMessage st |}
  | SetConfig c =>
      {| mode := mode st; config := Some c; practiceData := practiceData st;
         testPaper := testPaper st; isLoading := isLoading st;
         loadingMessage := loadingMessage st |}
  | SetPracticeData d =>
      {| mode := mode st; config := config st; practiceData := Some d;
         testPaper := testPaper st; isLoading := isLoading st;
         loadingMessage := loadingMessage st |}
  | SetTestPaper p =>
      {| mode := mode st; config := config st; practiceData := practiceData st;
         testPaper := Some p; isLoading := isLoading st;
         loadingMessage := loadingMessage st |}
  | SetIsLoading b =>
      {| mode := mode st; config := config st; practiceData := practiceData st;
         testPaper := testPaper st; isLoading := b;
         loadingMessage := loadingMessage st |}
  | SetLoadingMessage s =>
      {| mode := mode st; config := config st; practiceData := practiceData st;
         testPaper := testPaper st; isLoading := isLoading st;
         loadingMessage := s |}
  | Alert _ => st
  | ConsoleError _ => st
  end.

(** The state after all effects. *)
Definition run (st : State) (es : list Effect) : State := fold_left apply es st.

(** Every state the component goes through, the first one included. *)
Fixpoint trace (st : State) (es : list Effect) : list State :=
  match es with
  | [] => [st]
  | e :: es' => st :: trace (apply st e) es'
  end.

(** [handleConfigSave]. *)
Definition handleConfigSave (newConfig : TextbookConfig.t) : list Effect :=
  [SetConfig newConfig; SetMode AppMode.Dashboard].

(** [handleVocabStart]; [reply] is the outcome of
    [generateVocabAndGrammar]. The two variants of [App] differ in the
    text of the alert only. *)
Definition handleVocabStartWith (alertText : string) (st : State)
    (units : list Z) (reply : Outcome PracticeSessionData.t) : list Effect :=
  match config st with
  | None => []
  | Some _ =>
      [SetIsLoading true;
       SetLoadingMessage
         "Generating vocabulary and grammar challenges from textbook..."]
      ++ match reply with
         | Resolved data => [SetPracticeData data; SetMode AppMode.VocabPractice]
         | Rejected => [Alert alertText]
         end
      ++ [SetIsLoading false]
  end.

Definition handleVocabStart :=
  handleVocabStartWith
    "Failed to generate content. Please check your connection and try again.".

Definition handleVocabStart2 :=
  handleVocabStartWith
    "Failed to generate content. Please check your connection and API key.".

(** [paper.listeningAudioBase64 = audioBase64]. *)
Definition attachAudio (paper : TestPaperData.t) (audio : option string)
  : TestPaperData.t :=
  {| TestPaperData.id := TestPaperData.id paper;
     TestPaperData.title := TestPaperData.title paper;
     TestPaperData.listeningScript := TestPaperData.listeningScript paper;
     TestPaperData.listeningAudioBase64 := audio;
     TestPaperData.sections := TestPaperData.sections paper |}.

(** [handleTestStart]; [paperReply] is the outcome of [generateTestPaper]
    and [speechReply] that of [generateSpeech], which resolves with
    [result.audioData], a string or [undefined]. *)
Definition handleTestStartWith (alertText : string) (st : State)
    (units : list Z) (isZhongkao : bool)
    (paperReply : Outcome TestPaperData.t)
    (speechReply : Outcome (option string)) : list Effect :=
  match config st with
  | None => []
  | Some _ =>
      [SetIsLoading true;
       SetLoadingMessage
         (if isZhongkao
          then "Generating Zhongkao-level simulation (Short Convos, Passage, 3 Readings + Writing)..."
          else "Generating Comprehensive Test (Short Convos, Passage, 3 Readings)...")]
      ++ match paperReply with
         | Resolved paper =>
             if JsString.truthyOpt (TestPaperData.listeningScript paper) then
               SetLoadingMessage
                 "Synthesizing audio for Listening section (Conversations & Passage)..."
               :: match speechReply with
                  | Resolved audioBase64 =>
                      [SetTestPaper (attachAudio paper audioBase64);
                       SetMode AppMode.TestPaper]
                  | Rejected =>
                      [ConsoleError
                         "Audio generation failed, continuing without audio";
                       SetTestPaper paper;
                       SetMode AppMode.TestPaper]
                  end
             else [SetTestPaper paper; SetMode AppMode.TestPaper]
         | Rejected => [Alert alertText]
         end
      ++ [SetIsLoading false]
  end.

Definition handleTestStart :=
  handleTestStartWith "Failed to generate test paper.".


(** The child component that [<main>] mounts, with the props passed to
    it. *)
Inductive View :=
| VLoading (message : string)
| VSetup
| VDashboard (c : TextbookConfig.t)
| VVocabPractice (data : PracticeSessionData.t)
| VTestPaper (paper : TestPaperData.t) (c : option TextbookConfig.t)
| VNothing.

(** The guards of [<main>]: which child is mounted in a state, and
    [VNothing] when every guard fails. What the child renders is its own
    affair and not part of this function; there is no error boundary, so a
    child that throws while rendering leaves the page empty. *)
Definition render (st : State) : View :=
  if isLoading st then VLoading (loadingMessage st)
  else
    match mode st with
    | AppMode.Setup => VSetup
    | AppMode.Dashboard =>
        match config st with Some c => VDashboard c | None => VNothing end
    | AppMode.VocabPractice =>
        match practiceData st with
        | Some d => VVocabPractice d
        | None => VNothing
        end
    | AppMode.TestPaper =>
        match testPaper st with
        | Some p => VTestPaper p (config st)
        | None => VNothing
        end
    | AppMode.TestResult => VNothing
    end.

End App.

(** ** [GrammarSection]: rendering a grammar passage *)

Module Grammar.

Definition isDigit (c : ascii) : bool :=
  let n := JsString.charCode c in (48 <=? n) && (n <=? 57).

Definition openBrace : ascii := "{"%char.
Definition closeBrace : ascii := "}"%char.

(** A match of [\d*\}\}] at the start of [s]: the digits and the number
    of characters matched. *)
Fixpoint digitsClose (s : string) : option (string * nat) :=
  match s with
  | EmptyString => None
  | String c s' =>
      if isDigit c then
        match digitsClose s' with
        | Some (ds, n) => Some (String c ds, S n)
        | None => None
        end
      else if Ascii.eqb c closeBrace then
        match s' with
        | String c' _ =>
            if Ascii.eqb c' closeBrace then Some (EmptyString, 2%nat) else None
        | EmptyString => None
        end
      else None
  end.

(** A match of [\{\{(\d+)\}\}] at the start of [s]: the captured digits
    and the length of the match. The greedy [\d+] takes the whole run of
    digits, and no shorter run can be followed by a closing brace. *)
Definition matchAt (s : string) : option (string * nat) :=
  match s with
  | String c1 (String c2 ((String d _) as s2)) =>
      if Ascii.eqb c1 openBrace && Ascii.eqb c2 openBrace && isDigit d then
        match digitsClose s2 with
        | Some (ds, n) => Some (ds, (2 + n)%nat)
        | None => None
        end
      else None
  | _ => None
  end.

(** The text of a placeholder with the given digits. *)
Definition placeholder (digits : string) : string :=
  String openBrace (String openBrace
    (digits +:+ String closeBrace (String closeBrace EmptyString))).

(** [story.split(/(\{\{\d+\}\})/g)], scanning from the left. [skip]
    characters still belong to the placeholder found last. The result is
    the segment under construction and the segments after it. *)
Fixpoint splitFrom (skip : nat) (s : string) : string * list string :=
  match s with
  | EmptyString => (EmptyString, [])
  | String c s' =>
      match skip with
      | S k => splitFrom k s'
      | O =>
          match matchAt s with
          | Some (ds, S n) =>
              let '(t, rest) := splitFrom n s' in
              (EmptyString, placeholder ds :: t :: rest)
          | _ =>
              let '(t, rest) := splitFrom 0 s' in
              (String c t, rest)
          end
      end
  end.

Definition split (story : string) : list string :=
  let '(t, rest) := splitFrom 0 story in t :: rest.

(** [segment.match(/\{\{(\d+)\}\}/)]: the capture of the leftmost match
    anywhere in the segment. *)
Fixpoint search (segment : string) : option string :=
  match matchAt segment with
  | Some (ds, _) => Some ds
  | None =>
      match segment with
      | EmptyString => None
      | String _ s' => search s'
      end
  end.

Definition digitValue (c : ascii) : Z := JsString.charCode c - 48.

Fixpoint parseDigits (acc : Z) (s : string) : Z :=
  match s with
  | EmptyString => acc
  | String c s' => parseDigits (10 * acc + digitValue c) s'
  end.

(** [parseInt] on a non-empty string of decimal digits. *)
Definition parseInt (digits : string) : Z := parseDigits 0 digits.

(** [data.blanks.find(b => b.id === id)]. *)
Definition findBlank (data : GrammarPracticeData.t) (id : Z)
  : option GrammarBlank.t :=
  List.find (fun b => GrammarBlank.id b =? id) (GrammarPracticeData.blanks data).

Inductive Mark := Unchecked | Right | Wrong.

(** What a segment is rendered as. An element of the rendered array is
    [None] when the callback returns [null], which displays nothing. *)
Inductive Node :=
| Span (text : string)
| ErrorMarker
| BlankInput (id : Z) (blank : GrammarBlank.t) (value : string)
    (disabled : bool) (mark : Mark).

(** First variant. *)
Record State := { answers : gmap Z string; isChecked : bool }.

Definition renderSegment (data : GrammarPracticeData.t) (st : State)
    (segment : string) : option Node :=
  match search segment with
  | Some ds =>
      let id := parseInt ds in
      match findBlank data id with
      | None => Some ErrorMarker
      | Some blank =>
          let value := JsString.orElse (answers st !! id) "" in
          let isCorrect :=
            isChecked st &&
            String.eqb (JsString.toLowerCase (JsString.trim value))
                       (JsString.toLowerCase (GrammarBlank.answer blank)) in
          Some (BlankInput id blank value (isChecked st)
                  (if isChecked st
                   then if isCorrect then Right else Wrong
                   else Unchecked))
      end
  | None => Some (Span segment)
  end.

Definition render (data : GrammarPracticeData.t) (st : State)
  : list (option Node) :=
  List.map (renderSegment data st) (split (GrammarPracticeData.story data)).

(** Second variant. *)
Record State2 := {
  inputs : gmap Z string;
  results : gmap Z bool;
  showResults : bool }.

Definition renderSegment2 (data : GrammarPracticeData.t) (st : State2)
    (part : string) : option Node :=
  match search part with
  | Some ds =>
      let id := parseInt ds in
      match findBlank data id with
      | None => None
      | Some blank =>
          let isCorrect :=
            match results st !! id with Some b => b | None => false end in
          Some (BlankInput id blank (JsString.orElse (inputs st !! id) "")
                  false
                  (if showResults st
                   then if isCorrect then Right else Wrong
                   else Unchecked))
      end
  | None => Some (Span part)
  end.

Definition render2 (data : GrammarPracticeData.t) (st : State2)
  : list (option Node) :=
  List.map (renderSegment2 data st) (split (GrammarPracticeData.story data)).

End Grammar.

(** ** Audio decoding ([TestPaperView.playAudio], first variant) *)

Module Audio.

(** *** Base64 *)

(** Position of a character in the base64 alphabet. *)
Definition b64Index (c : ascii) : option Z :=
  let n := JsString.charCode c in
  if (65 <=? n) && (n <=? 90) then Some (n - 65)
  else if (97 <=? n) && (n <=? 122) then Some (n - 71)
  else if (48 <=? n) && (n <=? 57) then Some (n + 4)
  else if n =? 43 then Some 62
  else if n =? 47 then Some 63
  else None.

Definition b64Char (i : Z) : ascii :=
  JsString.fromCharCode
    (if i <? 26 then i + 65
     else if i <? 52 then i + 71
     else if i <? 62 then i - 4
     else if i =? 62 then 43
     else 47).

Definition padChar : ascii := "="%char.

(** ASCII whitespace, which [atob] removes: TAB, LF, FF, CR and SP. *)
Definition isAsciiWhitespace (c : ascii) : bool :=
  let n := JsString.charCode c in
  (n =? 9) || (n =? 10) || (n =? 12) || (n =? 13) || (n =? 32).

(** Removes one or two trailing padding characters. *)
Definition stripPadding (l : list ascii) : list ascii :=
  match rev l with
  | p1 :: p2 :: r =>
      if Ascii.eqb p1 padChar then
        if Ascii.eqb p2 padChar then rev r else rev (p2 :: r)
      else l
  | [p1] => if Ascii.eqb p1 padChar then [] else l
  | [] => l
  end.

(** The alphabet positions of all characters, if all are in the
    alphabet. *)
Fixpoint indices (l : list ascii) : option (list Z) :=
  match l with
  | [] => Some []
  | c :: l' =>
      match b64Index c, indices l' with
      | Some i, Some ixs => Some (i :: ixs)
      | _, _ => None
      end
  end.

(** Four 6-bit groups give three bytes; a final group of three gives two
    bytes and one of two gives one byte, the excess bits being
    discarded. *)
Fixpoint bytesOfSextets (l : list Z) : list Z :=
  match l with
  | a :: b :: c :: d :: rest =>
      let n := a * 262144 + b * 4096 + c * 64 + d in
      n / 65536 :: (n / 256) mod 256 :: n mod 256 :: bytesOfSextets rest
  | [a; b; c] =>
      let n := (a * 4096 + b * 64 + c) / 4 in
      [n / 256; n mod 256]
  | [a; b] => [(a * 64 + b) / 16]
  | _ => []
  end.

(** [atob], the forgiving base64 decoding of the platform: [None] when it
    throws. The result is a binary string. *)
Definition atob (data : string) : option string :=
  let l := List.filter (fun c => negb (isAsciiWhitespace c))
             (list_ascii_of_string data) in
  let l := if (Nat.modulo (length l) 4 =? 0)%nat then stripPadding l else l in
  if (Nat.modulo (length l) 4 =? 1)%nat then None
  else
    match indices l with
    | Some ixs =>
        Some (string_of_list_ascii
                (List.map JsString.fromCharCode (bytesOfSextets ixs)))
    | None => None
    end.

(** The standard base64 encoding of a byte sequence, with padding (the
    inverse that a producer of the payload applies; [btoa] on a binary
    string). *)
Fixpoint sextetsOfBytes (l : list Z) : list ascii :=
  match l with
  | a :: b :: c :: rest =>
      let n := a * 65536 + b * 256 + c in
      b64Char (n / 262144) :: b64Char ((n / 4096) mod 64)
      :: b64Char ((n / 64) mod 64) :: b64Char (n mod 64)
      :: sextetsOfBytes rest
  | [a; b] =>
      let n := (a * 256 + b) * 4 in
      [b64Char (n / 4096); b64Char ((n / 64) mod 64); b64Char (n mod 64);
       padChar]
  | [a] =>
      let n := a * 16 in
      [b64Char (n / 64); b64Char (n mod 64); padChar; padChar]
  | [] => []
  end.

Definition base64Encode (bytes : list Z) : string :=
  string_of_list_ascii (sextetsOfBytes bytes).

(** *** PCM samples *)

(** [bytes[i] = binaryString.charCodeAt(i)]. *)
Definition bytesOfBinaryString (s : string) : list Z :=
  List.map JsString.charCode (list_ascii_of_string s).

(** A signed 16-bit integer from two bytes, low byte first. *)
Definition int16le (lo hi : Z) : Z :=
  let u := lo + 256 * hi in
  if u <? 32768 then u else u - 65536.

(** [new Int16Array(bytes.buffer)] on a little-endian platform: throws
    ([None]) when the byte length is odd. *)
Fixpoint int16Array (bytes : list Z) : option (list Z) :=
  match bytes with
  | [] => Some []
  | lo :: hi :: rest =>
      match int16Array rest with
      | Some xs => Some (int16le lo hi :: xs)
      | None => None
      end
  | [_] => None
  end.

(** The two bytes of a signed 16-bit integer, low byte first. *)
Definition bytesOfInt16 (x : Z) : list Z :=
  let u := x mod 65536 in [u mod 256; u / 256].

Definition bytesOfSamples (xs : list Z) : list Z :=
  List.concat (List.map bytesOfInt16 xs).

(** *** Floating point *)

(** A JavaScript number (binary64) holding the integer [x]. *)
Definition number (x : Z) : spec_float := binary_normalize 53 1024 x 0 false.

(** Storing a number into a [Float32Array]: rounding to binary32. *)
Definition toFloat32 (f : spec_float) : spec_float :=
  match f with
  | S754_finite s m e => binary_round 24 128 s m e
  | _ => f
  end.

(** [float32Data[i] = dataInt16[i] / 32768.0]. *)
Definition normalise (x : Z) : spec_float :=
  toFloat32 (SFdiv 53 1024 (number x) (number 32768)).

(** The rational number a float denotes: [m * 2^e] with its sign (0 for
    zeros, infinities and NaN). *)
Definition value (f : spec_float) : Q :=
  match f with
  | S754_finite s m e =>
      let n := if s then Z.neg m else Z.pos m in
      match e with
      | Z.neg k => Qmake n (2 ^ k)
      | _ => inject_Z (n * 2 ^ e)
      end
  | _ => 0%Q
  end.

Definition isFinite (f : spec_float) : bool :=
  match f with
  | S754_finite _ _ _ | S754_zero _ => true
  | _ => false
  end.

(** The decoding steps of [playAudio]: from the payload to
    [float32Data]. *)
Definition decodeSamples (payload : string) : option (list spec_float) :=
  match atob payload with
  | Some binaryString =>
      match int16Array (bytesOfBinaryString binaryString) with
      | Some dataInt16 => Some (List.map normalise dataInt16)
      | None => None
      end
  | None => None
  end.

Record AudioBuffer := {
  numberOfChannels : Z;
  sampleRate : Z;
  channelData : list spec_float }.

(** [audioCtx.createBuffer(channels, length, rate)] followed by
    [getChannelData(0).set(data)]; the platform refuses a buffer of
    length zero. *)
Definition createBuffer (channels : Z) (data : list spec_float) (rate : Z)
  : option AudioBuffer :=
  match data with
  | [] => None
  | _ => Some {| numberOfChannels := channels; sampleRate := rate;
                 channelData := data |}
  end.

(** [playAudio]: the new component state, the buffer handed to the
    output device if playback started, and whether the failure alert was
    shown. [platformOk] tells whether creating the audio context and
    starting the source succeed. *)
Definition playAudio (platformOk : bool) (paper : TestPaperData.t)
    (st : TestPaperView.State)
  : TestPaperView.State * option AudioBuffer * bool :=
  let setIsPlaying b :=
    {| TestPaperView.answers := TestPaperView.answers st;
       TestPaperView.showResult := TestPaperView.showResult st;
       TestPaperView.grading := TestPaperView.grading st;
       TestPaperView.writingFeedback := TestPaperView.writingFeedback st;
       TestPaperView.score := TestPaperView.score st;
       TestPaperView.isPlaying := b;
       TestPaperView.showListeningScript :=
         TestPaperView.showListeningScript st |} in
  match TestPaperData.listeningAudioBase64 paper with
  | Some payload =>
      if negb (JsString.truthy payload) || TestPaperView.isPlaying st
      then (st, None, false)
      else
        let started :=
          if platformOk then
            match decodeSamples payload with
            | Some float32Data => createBuffer 1 float32Data 24000
            | None => None
            end
          else None in
        match started with
        | Some buffer => (setIsPlaying true, Some buffer, false)
        | None => (setIsPlaying false, None, true)
        end
  | None => (st, None, false)
  end.

End Audio.

(** ** [Dashboard]: the selection of units *)

Module Dashboard.

(** [current.includes(unit)]. *)
Definition includes (unit : Z) (current : list Z) : bool :=
  existsb (Z.eqb unit) current.

Fixpoint insertSorted (x : Z) (l : list Z) : list Z :=
  match l with
  | [] => [x]
  | y :: l' => if x <=? y then x :: l else y :: insertSorted x l'
  end.

(** [array.sort((a, b) => a - b)] on integers: the elements in ascending
    order, which the comparator determines whatever the algorithm of the
    engine. *)
Definition sortAscending (l : list Z) : list Z := fold_right insertSorted [] l.

(** The units for which [UnitSelector] shows a button. *)
Definition units : list Z := [1; 2; 3; 4; 5; 6; 7; 8; 9; 10; 11; 12].

(** The calls that [Dashboard] makes on its props. *)
Inductive Request :=
| OnStartVocab (units : list Z)
| OnStartTest (units : list Z) (isZhongkao : bool)
| OnChangeConfig.

(** First variant: one selection for each card. *)
Record State := {
  selectedVocabUnits : list Z;
  selectedTestUnits : list Z;
  isZhongkao : bool }.

Definition initial : State :=
  {| selectedVocabUnits := [1]; selectedTestUnits := [1]; isZhongkao := false |}.

(** [toggleUnit(unit, current, setter)]: the selection afterwards. The
    setter is not called when the only selected unit is clicked. *)
Definition toggleUnit (unit : Z) (current : list Z) : list Z :=
  if includes unit current then
    if (1 <? length current)%nat
    then List.filter (fun u => negb (u =? unit)) current
    else current
  else sortAscending (current ++ [unit]).

(** The controls of the first variant. *)
Inductive Event :=
| ToggleVocabUnit (u : Z)
| ToggleTestUnit (u : Z)
| SetZhongkao (checked : bool)
| StartPractice
| GenerateTestPaper
| ChangeTextbook.

Definition handle (st : State) (e : Event) : State * option Request :=
  match e with
  | ToggleVocabUnit u =>
      ({| selectedVocabUnits := toggleUnit u (selectedVocabUnits st);
          selectedTestUnits := selectedTestUnits st;
          isZhongkao := isZhongkao st |}, None)
  | ToggleTestUnit u =>
      ({| selectedVocabUnits := selectedVocabUnits st;
          selectedTestUnits := toggleUnit u (selectedTestUnits st);
          isZhongkao := isZhongkao st |}, None)
  | SetZhongkao checked =>
      ({| selectedVocabUnits := selectedVocabUnits st;
          selectedTestUnits := selectedTestUnits st;
          isZhongkao := checked |}, None)
  | StartPractice => (st, Some (OnStartVocab (selectedVocabUnits st)))
  | GenerateTestPaper =>
      (st, Some (OnStartTest (selectedTestUnits st) (isZhongkao st)))
  | ChangeTextbook => (st, Some OnChangeConfig)
  end.

(** Second variant: a single selection, and a toggle that may empty it. *)
Record State2 := { selectedUnits : list Z; isZhongkao2 : bool }.

Definition initial2 : State2 := {| selectedUnits := [1]; isZhongkao2 := false |}.

Definition toggleUnit2 (u : Z) (selectedUnits : list Z) : list Z :=
  if includes u selectedUnits
  then List.filter (fun i => negb (i =? u)) selectedUnits
  else sortAscending (selectedUnits ++ [u]).

Inductive Event2 :=
| ToggleUnit (u : Z)
| SetZhongkao2 (checked : bool)
| StartPractice2
| GenerateTestPaper2
| ChangeTextbook2.

(** The start buttons are guarded by [selectedUnits.length > 0 &&]. *)
Definition handle2 (st : State2) (e : Event2) : State2 * option Request :=
  match e with
  | ToggleUnit u =>
      ({| selectedUnits := toggleUnit2 u (selectedUnits st);
          isZhongkao2 := isZhongkao2 st |}, None)
  | SetZhongkao2 checked =>
      ({| selectedUnits := selectedUnits st; isZhongkao2 := checked |}, None)
  | StartPractice2 =>
      (st, if (0 <? length (selectedUnits st))%nat
           then Some (OnStartVocab (selectedUnits st)) else None)
  | GenerateTestPaper2 =>
      (st, if (0 <? length (selectedUnits st))%nat
           then Some (OnStartTest (selectedUnits st) (isZhongkao2 st))
           else None)
  | ChangeTextbook2 => (st, Some OnChangeConfig)
  end.

(** A sequence of user actions: the final state and the requests made, in
    order. *)
Fixpoint play {S E : Type} (handle : S -> E -> S * option Request)
    (st : S) (events : list E) : S * list Request :=
  match events with
  | [] => (st, [])
  | e :: events' =>
      let '(st1, r) := handle st e in
      let '(st2, rs) := play handle st1 events' in
      (st2, match r with Some x => x :: rs | None => rs end)
  end.

End Dashboard.

(** ** [VocabSection] (first variant): the spelling exercise *)

Module VocabSection.

Record State := {
  isReview : bool;
  userInputs : gmap string string;
  mistakes : list string;
  activeItems : list VocabItem.t }.

(** The state on mount: [useState(items)] for the active items. *)
Definition initial (items : list VocabItem.t) : State :=
  {| isReview := false; userInputs := ∅; mistakes := []; activeItems := items |}.

(** The [onChange] of an input:
    [setUserInputs({...userInputs, [item.id]: e.target.value})]. *)
Definition setInput (id value : string) (st : State) : State :=
  {| isReview := isReview st; userInputs := <[id := value]> (userInputs st);
     mistakes := mistakes st; activeItems := activeItems st |}.

(** One call of the callback of [activeItems.forEach] in [handleSubmit]:
    [(userInputs[item.id] || "").trim()] throws a [TypeError] ([None]) on
    an inherited member, which has no [trim]. *)
Definition checkItem (inputs : gmap string string) (newMistakes : list string)
    (item : VocabItem.t) : option (list string) :=
  match JsObject.orElse (JsObject.get inputs (VocabItem.id item)) "" with
  | JsObject.Val s =>
      let input := JsString.toLowerCase (JsString.trim s) in
      let answer :=
        JsString.toLowerCase (JsString.trim (VocabItem.english item)) in
      Some (if negb (String.eqb input answer)
            then newMistakes ++ [VocabItem.id item] else newMistakes)
  | JsObject.Member _ => None
  end.

(** [handleSubmit]; when the callback throws, no state is set ([None]). *)
Definition handleSubmit (st : State) : option State :=
  match
    fold_left
      (fun acc item =>
         match acc with
         | Some newMistakes => checkItem (userInputs st) newMistakes item
         | None => None
         end)
      (activeItems st) (Some [])
  with
  | Some newMistakes =>
      Some {| isReview := true; userInputs := userInputs st;
              mistakes := newMistakes; activeItems := activeItems st |}
  | None => None
  end.

(** [mistakes.includes(id)]. *)
Definition includes (id : string) (mistakes : list string) : bool :=
  existsb (String.eqb id) mistakes.

(** [handleRetry]; [items] is the prop of the component. *)
Definition handleRetry (items : list VocabItem.t) (st : State) : State :=
  let mistakeItems :=
    List.filter (fun i => includes (VocabItem.id i) (mistakes st)) items in
  {| isReview := false;
     userInputs :=
       fold_left
         (fun resetInputs i => JsObject.assign (VocabItem.id i) "" resetInputs)
         mistakeItems ∅;
     mistakes := [];
     activeItems := mistakeItems |}.

(** [handleFullReset]. *)
Definition handleFullReset (items : list VocabItem.t) (st : State) : State :=
  {| isReview := false; userInputs := ∅; mistakes := []; activeItems := items |}.

(** [score = activeItems.length - mistakes.length]. *)
Definition score (st : State) : Z :=
  Z.of_nat (length (activeItems st)) - Z.of_nat (length (mistakes st)).

(** The marks of a card. *)
Definition isWrong (st : State) (item : VocabItem.t) : bool :=
  isReview st && includes (VocabItem.id item) (mistakes st).

Definition isRight (st : State) (item : VocabItem.t) : bool :=
  isReview st && negb (includes (VocabItem.id item) (mistakes st)).

(** The button [Retry Mistakes] is shown in review when there are
    mistakes. *)
Definition retryOffered (st : State) : bool :=
  isReview st && (0 <? length (mistakes st))%nat.

End VocabSection.

(** ** [VocabPracticeView] (second variant): the spelling exercise *)

Module VocabPracticeView2.

Record State := {
  vocabInputs : gmap string string;
  vocabResults : gmap string bool;
  showVocabResults : bool }.

Definition initial : State :=
  {| vocabInputs := ∅; vocabResults := ∅; showVocabResults := false |}.

Definition setInput (id value : string) (st : State) : State :=
  {| vocabInputs := <[id := value]> (vocabInputs st);
     vocabResults := vocabResults st;
     showVocabResults := showVocabResults st |}.

(** [vocabInputs[word.id]?.trim().toLowerCase() || '']; the call of
    [trim] throws a [TypeError] ([None]) on an inherited member. *)
Definition userVal (vocabInputs : gmap string string) (id : string)
  : option string :=
  match JsObject.get vocabInputs id with
  | Some (JsObject.Val s) =>
      Some (JsString.orElse (Some (JsString.toLowerCase (JsString.trim s))) "")
  | Some (JsObject.Member _) => None
  | None => Some ""
  end.

(** [checkVocab]; when the callback of [data.vocab.forEach] throws, no
    state is set ([None]). *)
Definition checkVocab (data : PracticeSessionData.t) (st : State)
  : option State :=
  match
    fold_left
      (fun acc word =>
         match acc, userVal (vocabInputs st) (VocabItem.id word) with
         | Some newResults, Some userVal =>
             Some (JsObject.assign (VocabItem.id word)
                     (String.eqb userVal
                        (JsString.toLowerCase (VocabItem.english word)))
                     newResults)
         | _, _ => None
         end)
      (PracticeSessionData.vocab data) (Some ∅)
  with
  | Some newResults =>
      Some {| vocabInputs := vocabInputs st; vocabResults := newResults;
              showVocabResults := true |}
  | None => None
  end.

(** [retryVocab]. *)
Definition retryVocab (st : State) : State := initial.

(** [const isCorrect = vocabResults[item.id]], used as a condition: an
    inherited member is truthy. *)
Definition isCorrect (st : State) (item : VocabItem.t) : bool :=
  match JsObject.get (vocabResults st) (VocabItem.id item) with
  | Some (JsObject.Val b) => b
  | Some (JsObject.Member _) => true
  | None => false
  end.

End VocabPracticeView2.

(** ** [GrammarSection]: checking the blanks *)

Module GrammarSection.

(** First variant: [calculateScore]. *)
Definition calculateScore (data : GrammarPracticeData.t) (st : Grammar.State)
  : Z :=
  fold_left
    (fun correct b =>
       if String.eqb
            (JsString.toLowerCase
               (JsString.trim
                  (JsString.orElse (Grammar.answers st !! GrammarBlank.id b) "")))
            (JsString.toLowerCase (GrammarBlank.answer b))
       then correct + 1 else correct)
    (GrammarPracticeData.blanks data) 0.

(** [total = data.blanks.length]. *)
Definition total (data : GrammarPracticeData.t) : Z :=
  Z.of_nat (length (GrammarPracticeData.blanks data)).

(** The [onChange] of an input: [setAnswers({...answers, [id]: value})]. *)
Definition setAnswer (id : Z) (value : string) (st : Grammar.State)
  : Grammar.State :=
  {| Grammar.answers := <[id := value]> (Grammar.answers st);
     Grammar.isChecked := Grammar.isChecked st |}.

(** The button [Check Grammar Answers]. *)
Definition check (st : Grammar.State) : Grammar.State :=
  {| Grammar.answers := Grammar.answers st; Grammar.isChecked := true |}.

(** The button [Retry]. *)
Definition retry (st : Grammar.State) : Grammar.State :=
  {| Grammar.answers := ∅; Grammar.isChecked := false |}.

(** [inputs[b.id]?.trim().toLowerCase() || '']. *)
Definition userVal (inputs : gmap Z string) (id : Z) : string :=
  JsString.orElse
    (option_map (fun s => JsString.toLowerCase (JsString.trim s)) (inputs !! id))
    "".

(** Second variant: [checkGrammar]. *)
Definition checkGrammar (data : GrammarPracticeData.t) (st : Grammar.State2)
  : Grammar.State2 :=
  {| Grammar.inputs := Grammar.inputs st;
     Grammar.results :=
       fold_left
         (fun newResults b =>
            let userVal := userVal (Grammar.inputs st) (GrammarBlank.id b) in
            let correctVal :=
              JsString.toLowerCase (JsString.trim (GrammarBlank.answer b)) in
            <[GrammarBlank.id b := String.eqb userVal correctVal]> newResults)
         (GrammarPracticeData.blanks data) ∅;
     Grammar.showResults := true |}.

End GrammarSection.

(** ** The review of a graded paper *)

Module Review.

(** First variant, in the result view of [TestPaperView], for every
    question of every kind:
    [q.correctAnswer && answers[q.id]?.toLowerCase() === q.correctAnswer.toLowerCase()],
    used as a condition. [answers] is the current state of the component.
    On an inherited member, which has no [toLowerCase], the call throws
    while the view renders ([None]). *)
Definition isCorrect (answers : gmap string string) (q : Question.t)
  : option bool :=
  match Question.correctAnswer q with
  | Given c =>
      if JsString.truthy c then
        match JsObject.get answers (Question.id q) with
        | Some (JsObject.Val a) =>
            Some (String.eqb (JsString.toLowerCase a) (JsString.toLowerCase c))
        | Some (JsObject.Member _) => None
        | None => Some false
        end
      else Some false
  | Omitted | Null => Some false
  end.

(** Second variant, [TestResultView]:
    [q.type !== 'writing' && userAns === q.correctAnswer] with
    [userAns = result.answers[q.id]]. *)
Definition isCorrect2 (result : TestResult.t) (q : Question.t) : bool :=
  match Question.type q with
  | writing => false
  | _ =>
      TestPaperView2.strictEq
        (JsObject.get (TestResult.answers result) (Question.id q))
        (Question.correctAnswer q)
  end.

(** The green badge of a section:
    [result.sectionScores[section.id] === section.questions.reduce((a, b) => a + b.maxScore, 0)];
    an inherited member is identical to no number. *)
Definition fullMarks (result : TestResult.t) (section : TestSection.t) : bool :=
  match JsObject.get (TestResult.sectionScores result) (TestSection.id section) with
  | Some (JsObject.Val v) =>
      v =? fold_left (fun a b => a + Question.maxScore b)
             (TestSection.questions section) 0
  | Some (JsObject.Member _) => false
  | None => false
  end.

End Review.

(** ** The serverless endpoint and its client *)

Module Endpoint.

(** The functions of the API-backed gateway. *)
Inductive Call :=
| GenerateVocabAndGrammar
| GenerateTestPaper
| GenerateSpeech
| GradeWriting
| LookupWord.

(** The [action] that each of them passes to [callApi]. *)
Definition action (c : Call) : string :=
  match c with
  | GenerateVocabAndGrammar => "generateVocabAndGrammar"
  | GenerateTestPaper => "generateTestPaper"
  | GenerateSpeech => "generateSpeech"
  | GradeWriting => "gradeWriting"
  | LookupWord => "lookupWord"
  end.

(** The handlers of the endpoint. *)
Inductive Handler :=
| HandleVocab
| HandleTestPaper
| HandleSpeech
| HandleGrading
| HandleLookup.

(** The [switch (action)] of the endpoint; [None] is its [default]. *)
Definition route (action : string) : option Handler :=
  if String.eqb action "generateVocabAndGrammar" then Some HandleVocab
  else if String.eqb action "generateTestPaper" then Some HandleTestPaper
  else if String.eqb action "generateSpeech" then Some HandleSpeech
  else if String.eqb action "gradeWriting" then Some HandleGrading
  else if String.eqb action "lookupWord" then Some HandleLookup
  else None.

(** A computation that returns or throws an error with a message. *)
Inductive Attempt (A : Type) :=
| Returned (a : A)
| Threw (message : string).
Arguments Returned {A} a.
Arguments Threw {A} message.

Section Serving.

(** [P] is the type of payloads and [J] that of JSON values;
    [errorObject message] is the value [{ error: message }]. *)
Context {P J : Type}.
Variable errorObject : string -> J.

(** The body of a response: a JSON value, or a text that does not parse
    as JSON. *)
Inductive Content :=
| Text (text : string)
| Json (value : J).

Record Response := { status : Z; content : Content }.

(** The parsed body of a request: [action] is a string or something
    else ([None]). *)
Record Body := { bodyAction : option string; payload : P }.

(** A request: [body] is the outcome of [req.json()] and of the
    destructuring of its result. *)
Record Request := { method : string; body : Attempt Body }.

(** The default export of the function file; [handlers] gives the outcome
    of each handler on a payload. *)
Definition serve (handlers : Handler -> P -> Attempt Response) (req : Request)
  : Response :=
  if negb (String.eqb (method req) "POST") then
    {| status := 405; content := Text "Method Not Allowed" |}
  else
    match body req with
    | Returned b =>
        match
          match bodyAction b with Some a => route a | None => None end
        with
        | Some h =>
            match handlers h (payload b) with
            | Returned response => response
            | Threw message =>
                {| status := 500; content := Json (errorObject message) |}
            end
        | None => {| status := 400; content := Text "Unknown action" |}
        end
    | Threw message =>
        {| status := 500; content := Json (errorObject message) |}
    end.

(** The request that [callApi(action, payload)] sends. *)
Definition post (action : string) (payload : P) : Request :=
  {| method := "POST";
     body := Returned {| bodyAction := Some action; payload := payload |} |}.

(** [response.ok]. *)
Definition ok (r : Response) : bool := (200 <=? status r) && (status r <=? 299).

(** What [callApi] sees of a response that arrived. *)
Definition received (r : Response) : Gateway.HttpReply J :=
  Gateway.Response (ok r)
    match content r with
    | Json v => Some v
    | Text _ => None
    end.

(** [callApi] against the endpoint, when the transport delivers the
    request and the response. *)
Definition callApi (handlers : Handler -> P -> Attempt Response)
    (c : Call) (payload : P) : Outcome J :=
  Gateway.callApi (received (serve handlers (post (action c) payload))).

End Serving.

Arguments Content : clear implicits.
Arguments Response : clear implicits.
Arguments Body : clear implicits.
Arguments Request : clear implicits.

(** The decimal digits of an integer, as [`${n}`] produces them. *)
Definition numberToString (n : Z) : string :=
  NilZero.string_of_int (Z.to_int n).

(** [`vocab-${Date.now()}-${index}`]. *)
Definition vocabId (now : Z) (index : nat) : string :=
  "vocab-" +:+ numberToString now +:+ "-" +:+ numberToString (Z.of_nat index).

(** [(data.vocab || []).map((item, index) => ({...item, id: ...}))], in
    [handleVocab] and in [generateVocabAndGrammar] of the direct gateway;
    [clock index] is the value of [Date.now()] in the callback for
    [index]. *)
Fixpoint vocabWithIdsFrom (clock : nat -> Z) (index : nat)
    (vocab : list VocabItem.t) : list VocabItem.t :=
  match vocab with
  | [] => []
  | item :: vocab' =>
      {| VocabItem.id := vocabId (clock index) index;
         VocabItem.english := VocabItem.english item;
         VocabItem.chinese := VocabItem.chinese item;
         VocabItem.partOfSpeech := VocabItem.partOfSpeech item;
         VocabItem.example := VocabItem.example item |}
      :: vocabWithIdsFrom clock (S index) vocab'
  end.

Definition vocabWithIds (clock : nat -> Z) (vocab : option (list VocabItem.t))
  : list VocabItem.t :=
  vocabWithIdsFrom clock 0
    match vocab with Some l => l | None => [] end.

End Endpoint.

(** ** The controls of [App] *)

Module Session.

(** The handlers that the elements on display carry. *)
Inductive Event :=
| SaveConfig (c : TextbookConfig.t)
| StartVocab (units : list Z) (reply : Outcome PracticeSessionData.t)
| StartTest (units : list Z) (isZhongkao : bool)
    (paperReply : Outcome TestPaperData.t)
    (speechReply : Outcome (option string))
| ChangeConfig
| Back
| Logo
| NavDashboard.

(** Whether the element that carries the handler is displayed: the setup
    form, the dashboard and the practice and test views are shown by
    [<main>] according to [App.render]; the logo is always there, and the
    navigation button under [config && mode !== AppMode.Setup]. *)
Definition offered (st : App.State) (e : Event) : bool :=
  match e with
  | SaveConfig _ =>
      match App.render st with App.VSetup => true | _ => false end
  | StartVocab _ _ | StartTest _ _ _ _ | ChangeConfig =>
      match App.render st with App.VDashboard _ => true | _ => false end
  | Back =>
      match App.render st with
      | App.VVocabPractice _ | App.VTestPaper _ _ => true
      | _ => false
      end
  | Logo => true
  | NavDashboard =>
      match App.config st, App.mode st with
      | Some _, AppMode.Setup => false
      | Some _, _ => true
      | None, _ => false
      end
  end.

(** The effects of a handler; [alerts] holds the texts of the two alerts,
    in which the variants of [App] differ. *)
Definition effects (alerts : string * string) (st : App.State) (e : Event)
  : list App.Effect :=
  match e with
  | SaveConfig c => App.handleConfigSave c
  | StartVocab units reply =>
      App.handleVocabStartWith (fst alerts) st units reply
  | StartTest units isZhongkao paperReply speechReply =>
      App.handleTestStartWith (snd alerts) st units isZhongkao paperReply
        speechReply
  | ChangeConfig => [App.SetMode AppMode.Setup]
  | Back => [App.SetMode AppMode.Dashboard]
  | Logo =>
      match App.config st with
      | Some _ => [App.SetMode AppMode.Dashboard]
      | None => []
      end
  | NavDashboard => [App.SetMode AppMode.Dashboard]
  end.

(** The component while a handler may be under way: its state and the
    effects that the handler has still to perform. *)
Record Running := { state : App.State; pending : list App.Effect }.

(** The controls of the navigation bar, which stay on display while a
    handler waits for the gateway. *)
Definition inNavigationBar (e : Event) : bool :=
  match e with
  | Logo | NavDashboard => true
  | _ => false
  end.

(** One step of the component: a handler that is offered starts when none
    is under way; the handler under way performs its next effect; a control
    of the navigation bar is used in between. *)
Inductive step (alerts : string * string) : Running -> Running -> Prop :=
| step_start st e :
    offered st e = true ->
    step alerts {| state := st; pending := [] |}
      {| state := st; pending := effects alerts st e |}
| step_effect st e es :
    step alerts {| state := st; pending := e :: es |}
      {| state := App.apply st e; pending := es |}
| step_navigate st es e :
    inNavigationBar e = true -> offered st e = true ->
    step alerts {| state := st; pending := es |}
      {| state := App.run st (effects alerts st e); pending := es |}.

(** What the component goes through from its initial state. *)
Inductive reachable (alerts : string * string) : Running -> Prop :=
| reachable_initial :
    reachable alerts {| state := App.initial; pending := [] |}
| reachable_step r r' :
    reachable alerts r -> step alerts r r' -> reachable alerts r'.

(** The alert texts of the two variants. *)
Definition alerts1 : string * string :=
  ("Failed to generate content. Please check your connection and try again.",
   "Failed to generate test paper.").

Definition alerts2 : string * string :=
  ("Failed to generate content. Please check your connection and API key.",
   "Failed to generate test paper. Please check your API key.").

End Session.

(** ** [TextSelectionLookup]: looking up a selected word *)

Module WordDefinition.
Record t := {
  word : string; phonetic : string; chinese : string;
  englishDefinition : string; example : string }.
End WordDefinition.

Module TextSelectionLookup.

Record Selection := { text : string; x : spec_float; y : spec_float }.

Record State := {
  selection : option Selection;
  definition : option WordDefinition.t;
  loading : bool }.

Definition initial : State :=
  {| selection := None; definition := None; loading := false |}.

(** [text.split(' ')]: the pieces between the spaces. *)
Fixpoint splitOnSpace (s : string) : list string :=
  match s with
  | EmptyString => [EmptyString]
  | String c s' =>
      if Ascii.eqb c " "%char then EmptyString :: splitOnSpace s'
      else
        match splitOnSpace s' with
        | piece :: pieces => String c piece :: pieces
        | [] => [String c EmptyString]
        end
  end.

(** The bounding rectangle of the selected range. *)
Record Rect := { left : spec_float; top : spec_float; width : spec_float }.

(** The position of the tooltip: [rect.left + rect.width / 2] and
    [rect.top], to which the second variant adds [window.scrollY]. *)
Definition position (rect : Rect) : spec_float * spec_float :=
  (SFadd 53 1024 (left rect) (SFdiv 53 1024 (width rect) (Audio.number 2)),
   top rect).

Definition position2 (rect : Rect) (scrollY : spec_float)
  : spec_float * spec_float :=
  (SFadd 53 1024 (left rect) (SFdiv 53 1024 (width rect) (Audio.number 2)),
   SFadd 53 1024 (top rect) scrollY).

(** [handleMouseUp]; [sel] is the selected text with the position computed
    for it when there is a selection that is not collapsed. *)
Definition handleMouseUp (sel : option (string * (spec_float * spec_float)))
    (st : State) : State :=
  match sel with
  | Some (selected, pos) =>
      let text := JsString.trim selected in
      if JsString.truthy text && (String.length text <? 50)%nat
         && (length (splitOnSpace text) <=? 4)%nat
      then {| selection := Some {| text := text; x := fst pos; y := snd pos |};
              definition := None; loading := loading st |}
      else st
  | None => {| selection := None; definition := None; loading := loading st |}
  end.

(** [handleLookup] until its [await]: the word that [lookupWord] is called
    with, if any. *)
Definition handleLookup (st : State) : State * option string :=
  match selection st with
  | None => (st, None)
  | Some s =>
      ({| selection := selection st; definition := definition st;
          loading := true |},
       Some (text s))
  end.

(** [handleLookup] once [lookupWord] has settled. *)
Definition lookupSettled (reply : Outcome WordDefinition.t) (st : State)
  : State :=
  {| selection := selection st;
     definition :=
       match reply with
       | Resolved def => Some def
       | Rejected => definition st
       end;
     loading := false |}.

(** The button that closes the definition: [setSelection(null)]. *)
Definition close (st : State) : State :=
  {| selection := None; definition := definition st; loading := loading st |}.

Inductive Event :=
| MouseUp (sel : option (string * (spec_float * spec_float)))
| Lookup
| Settled (reply : Outcome WordDefinition.t)
| Close.

Definition handle (st : State) (e : Event) : State * option string :=
  match e with
  | MouseUp sel => (handleMouseUp sel st, None)
  | Lookup => handleLookup st
  | Settled reply => (lookupSettled reply st, None)
  | Close => (close st, None)
  end.

(** A sequence of events: the final state and the words looked up. *)
Fixpoint play (st : State) (events : list Event) : State * list string :=
  match events with
  | [] => (st, [])
  | e :: events' =>
      let '(st1, r) := handle st e in
      let '(st2, rs) := play st1 events' in
      (st2, match r with Some w => w :: rs | None => rs end)
  end.

End TextSelectionLookup.

(** ** Vocabulary of the properties *)

(** The questions of a paper, in document order. *)
Definition allQuestions (paper : TestPaperData.t) : list Question.t :=
  List.concat (List.map TestSection.questions (TestPaperData.sections paper)).

(** Sum of the [maxScore] of the given questions. *)
Definition sumMaxScore (qs : list Question.t) : Z :=
  fold_right (fun q acc => Question.maxScore q + acc) 0 qs.

Definition isWriting (q : Question.t) : bool :=
  match Question.type q with writing => true | _ => false end.

(** A question of kind multiple_choice, boolean or fill_in_blank. *)
Definition isObjective (q : Question.t) : bool := negb (isWriting q).

(** The form under which two strings are compared without regard to case
    and surrounding white space. *)
Definition normalised (s : string) : string :=
  JsString.toLowerCase (JsString.trim s).

(** The user supplied a non-empty answer to [q]. *)
Definition supplied (ans : gmap string string) (q : Question.t) : bool :=
  JsString.truthyOpt (ans !! Question.id q).

(** The user supplied no answer to [q] and the id of [q] is the name of a
    member of [Object.prototype], so that [answers[q.id]] is that member. *)
Definition inheritedAnswer (ans : gmap string string) (q : Question.t) : bool :=
  match JsObject.get ans (Question.id q) with
  | Some (JsObject.Member _) => true
  | _ => false
  end.

(** [answers[q.id]] is truthy, which is how the first variant takes a
    writing question as answered: a non-empty answer was supplied, or
    the lookup yields an inherited member. *)
Definition answered (ans : gmap string string) (q : Question.t) : bool :=
  JsObject.truthy (JsObject.get ans (Question.id q)).

(** The writing questions that have a non-empty answer. *)
Definition essaysAnswered (ans : gmap string string) (qs : list Question.t)
  : list Question.t :=
  List.filter (fun q => isWriting q && answered ans q) qs.

(** The request that the first variant sends for a writing question. *)
Definition callOf (config : TextbookConfig.t) (ans : gmap string string)
    (q : Question.t) : GradeCall.t :=
  {| GradeCall.question := Question.prompt q;
     GradeCall.studentAnswer :=
       JsObject.orElse (JsObject.get ans (Question.id q)) "";
     GradeCall.gradeLevel := TextbookConfig.grade config |}.

(** The request that the second variant sends for a writing question. *)
Definition callOf2 (config : TextbookConfig.t) (ans : gmap string string)
    (q : Question.t) : GradeCall.t :=
  {| GradeCall.question := Question.prompt q;
     GradeCall.studentAnswer :=
       JsObject.orElse (JsObject.get ans (Question.id q)) "No answer provided.";
     GradeCall.gradeLevel := TextbookConfig.grade config |}.

(** Score of an objective question in the first variant; nothing is
    awarded when the comparison throws. *)
Definition objectiveAward (ans : gmap string string) (q : Question.t) : Z :=
  match TestPaperView.isMatch (JsObject.get ans (Question.id q))
          (Question.correctAnswer q) with
  | Some true => Question.maxScore q
  | _ => 0
  end.

(** The comparison of the first variant throws on [q]: the question is
    objective, has a non-empty key, and [answers[q.id]] is an inherited
    member. *)
Definition throwsAt (ans : gmap string string) (q : Question.t) : bool :=
  match Question.type q with
  | writing => false
  | _ =>
      match TestPaperView.isMatch (JsObject.get ans (Question.id q))
              (Question.correctAnswer q) with
      | None => true
      | Some _ => false
      end
  end.

(** The comparison of the first variant throws on none of the questions. *)
Definition noThrow (ans : gmap string string) (qs : list Question.t) : Prop :=
  Forall (fun q => throwsAt ans q = false) qs.

(** The local variables of the first variant after the loop body for
    [q]; they are as before when the comparison throws. *)
Definition afterQuestion (grader : Grader) (config : TextbookConfig.t)
    (ans : gmap string string) (acc : TestPaperView.Acc) (q : Question.t)
  : TestPaperView.Acc :=
  match TestPaperView.gradeQuestion grader config ans acc q with
  | Done acc' => acc'
  | Thrown _ => acc
  end.

Definition objectiveTotal (ans : gmap string string) (qs : list Question.t) : Z :=
  fold_right
    (fun q acc => (if isObjective q then objectiveAward ans q else 0) + acc) 0 qs.

(** Score that a [gradeWriting] outcome contributes in the first variant. *)
Definition essayAward (o : Outcome WritingFeedback.t) : Z :=
  match o with
  | Resolved fb => WritingFeedback.score fb
  | Rejected => 0
  end.

(** Total contributed by the requests [calls], the first of which is the
    [k]-th request of the submission. *)
Fixpoint essayTotal (grader : Grader) (k : nat) (calls : list GradeCall.t) : Z :=
  match calls with
  | [] => 0
  | c :: cs => essayAward (grader k c) + essayTotal grader (S k) cs
  end.

(** A grader that never rejects. *)
Definition alwaysResolves (grader : Grader) : Prop :=
  forall k c, exists fb, grader k c = Resolved fb.

(** Signed 16-bit range. *)
Definition isInt16 (x : Z) : Prop := -32768 <= x < 32768.

Definition isByte (b : Z) : Prop := 0 <= b < 256.

(** The writing questions of a paper, in document order. *)
Definition writingQuestions (paper : TestPaperData.t) : list Question.t :=
  List.filter isWriting (allQuestions paper).

(** The answer is present and equals [c] up to case and surrounding white
    space. *)
Definition matches (userAns : option (JsObject.Value string)) (c : string)
  : Prop :=
  ∃ a, userAns = Some (JsObject.Val a) ∧ normalised a = normalised c.

(** A string of decimal digits. *)
Fixpoint allDigits (s : string) : bool :=
  match s with
  | EmptyString => true
  | String c s' => Grammar.isDigit c && allDigits s'
  end.

(** The concatenation of the segments. *)
Definition joined (segments : list string) : string :=
  fold_right String.append "" segments.

(** [s] without its first [n] characters. *)
Fixpoint dropString (n : nat) (s : string) : string :=
  match n, s with
  | O, _ => s
  | S k, String _ s' => dropString k s'
  | S _, EmptyString => EmptyString
  end.

(** Segments that are in turn a text without placeholder and a
    placeholder, starting and ending with a text. *)
Inductive Alternating : list string → Prop :=
| alternating_last t :
    Grammar.search t = None → Alternating [t]
| alternating_cons t ds rest :
    Grammar.search t = None → ds ≠ "" → allDigits ds = true →
    Alternating rest → Alternating (t :: Grammar.placeholder ds :: rest).

(** The effects of [handleVocabStart] and [handleTestStart] when the
    session-critical call is rejected. *)
Definition failureEffects (message alertText : string) : list App.Effect :=
  [App.SetIsLoading true; App.SetLoadingMessage message; App.Alert alertText;
   App.SetIsLoading false].

(** ** Sample data *)

Module Sample.

Definition config : TextbookConfig.t :=
  {| TextbookConfig.publisher := PEP; TextbookConfig.grade := Eight;
     TextbookConfig.term := One |}.

Definition question (id : string) (type : QuestionType)
    (correctAnswer : Nullable string) (maxScore : Z) : Question.t :=
  {| Question.id := id; Question.type := type;
     Question.prompt := "Prompt of " +:+ id;
     Question.options := None; Question.correctAnswer := correctAnswer;
     Question.explanation := None; Question.userAnswer := None;
     Question.maxScore := maxScore |}.

Definition section (id : string) (type : SectionType)
    (questions : list Question.t) : TestSection.t :=
  {| TestSection.id := id; TestSection.title := "Section " +:+ id;
     TestSection.type := type; TestSection.readingPassage := None;
     TestSection.questions := questions |}.

Definition paperOf (script : option string) (sections : list TestSection.t)
  : TestPaperData.t :=
  {| TestPaperData.id := "test-1"; TestPaperData.title := "Mock test";
     TestPaperData.listeningScript := script;
     TestPaperData.listeningAudioBase64 := None;
     TestPaperData.sections := sections |}.

Definition feedbackOf (score : Z) : WritingFeedback.t :=
  {| WritingFeedback.score := score; WritingFeedback.feedback := "Good.";
     WritingFeedback.improvedVersion := "Better." |}.

(** A capital city question, a question whose key is the empty string, a
    question without key, and writing questions. *)
Definition capital : Question.t := question "q1" fill_in_blank (Given "paris") 5.
Definition emptyKey : Question.t := question "q2" fill_in_blank (Given "") 5.
Definition noKey : Question.t := question "q3" multiple_choice Omitted 2.
Definition essay1 : Question.t := question "w1" writing Omitted 10.
Definition essay2 : Question.t := question "w2" writing Omitted 10.
Definition essay3 : Question.t := question "w3" writing Omitted 10.

(** A paper with two objective questions and three essays. *)
Definition paper : TestPaperData.t :=
  paperOf (Some "Narrator: Conversation 1.")
    [section "s1" vocabulary [capital; noKey];
     section "s2" writing_section [essay1; essay2];
     section "s3" writing_section [essay3]].

(** A paper with a single essay. *)
Definition essayPaper : TestPaperData.t :=
  paperOf None [section "s1" writing_section [essay1]].

(** A paper with the question whose key is the empty string. *)
Definition emptyKeyPaper : TestPaperData.t :=
  paperOf None [section "s1" vocabulary [emptyKey]].

(** A fill-in-blank question and an essay whose ids are names of members
    of [Object.prototype], and papers with them. *)
Definition inheritedId : Question.t :=
  question "constructor" fill_in_blank (Given "paris") 5.
Definition inheritedEssay : Question.t := question "toString" writing Omitted 10.

Definition inheritedIdPaper : TestPaperData.t :=
  paperOf None [section "s1" vocabulary [inheritedId]].

Definition inheritedEssayPaper : TestPaperData.t :=
  paperOf None [section "s1" writing_section [inheritedEssay]].

(** All three essays answered, and the capital in another spelling. *)
Definition answers : gmap string string :=
  <["q1" := " Paris "]> (<["w1" := "Essay one"]> (<["w2" := "Essay two"]>
    (<["w3" := "Essay three"]> ∅))).

(** The second request is rejected, the others resolve with a score of 7. *)
Definition secondFails : Grader :=
  fun k _ => if (k =? 1)%nat then Rejected else Resolved (feedbackOf 7).

(** Every request resolves with the given score. *)
Definition scores (n : Z) : Grader := fun _ _ => Resolved (feedbackOf n).

Definition rejects : Grader := fun _ _ => Rejected.

Definition view (ans : gmap string string) : TestPaperView.State :=
  {| TestPaperView.answers := ans; TestPaperView.showResult := false;
     TestPaperView.grading := false; TestPaperView.writingFeedback := ∅;
     TestPaperView.score := {| TestPaperView.total := 0; TestPaperView.max := 0 |};
     TestPaperView.isPlaying := false;
     TestPaperView.showListeningScript := false |}.

Definition view2 (ans : gmap string string) : TestPaperView2.State :=
  {| TestPaperView2.answers := ans; TestPaperView2.submitted := false;
     TestPaperView2.result := None; TestPaperView2.writingFeedback := ∅;
     TestPaperView2.isGrading := false |}.

(** The application on the dashboard, nothing loaded yet. *)
Definition dashboard : App.State :=
  {| App.mode := AppMode.Dashboard; App.config := Some config;
     App.practiceData := None; App.testPaper := None;
     App.isLoading := false; App.loadingMessage := "" |}.

(** A passage with two placeholders, the second of which has no blank. *)
Definition passage : GrammarPracticeData.t :=
  {| GrammarPracticeData.title := "A trip";
     GrammarPracticeData.story := "We {{1}} to the zoo and {{2}} a lion.";
     GrammarPracticeData.blanks :=
       [{| GrammarBlank.id := 1; GrammarBlank.hint := "";
           GrammarBlank.answer := "went";
           GrammarBlank.explanation := "Simple past." |}] |}.

End Sample.

(** The grader that the API-backed gateway makes of the replies of the
    HTTP endpoint. *)
Definition apiGrader
    (replies : nat → GradeCall.t → Gateway.HttpReply WritingFeedback.t)
  : Grader :=
  fun k c => Gateway.gradeWriting (replies k c).

(** [grader] is what the direct gateway makes of the replies of the
    model, every outcome being of the declared type. *)
Definition directGrader (apiKey : bool)
    (replies : nat → GradeCall.t → Gateway.ModelReply) (grader : Grader) : Prop :=
  ∀ k c,
    Gateway.typed (Gateway.gradeWritingDirect apiKey (replies k c))
    = Some (grader k c).

(** The model call threw, or its text did not parse. *)
Definition modelFailed (reply : Gateway.ModelReply) : Prop :=
  reply = Gateway.ModelError ∨ reply = Gateway.ModelText Gateway.Unparsable.

(** A 6-bit group. *)
Definition isSextet (v : Z) : Prop := 0 <= v < 64.

(** ** Vocabulary of the further properties *)

(** None of the identifiers is the name of a member of
    [Object.prototype]: a lookup under such an identifier finds an own
    property or nothing, and an assignment to it makes an own property. *)
Definition ordinaryIds (ids : list string) : Prop :=
  Forall (fun k => JsObject.inherits k = false) ids.

(** The units that a request carries. *)
Definition unitsOf (r : Dashboard.Request) : option (list Z) :=
  match r with
  | Dashboard.OnStartVocab us | Dashboard.OnStartTest us _ => Some us
  | Dashboard.OnChangeConfig => None
  end.

(** A selection in ascending order without repetition, made of units that
    the selector offers. *)
Definition orderedSelection (us : list Z) : Prop :=
  StronglySorted Z.lt us ∧ Forall (λ u, u ∈ Dashboard.units) us.

(** The unit buttons that exist. *)
Definition onOffer (e : Dashboard.Event) : Prop :=
  match e with
  | Dashboard.ToggleVocabUnit u | Dashboard.ToggleTestUnit u =>
      u ∈ Dashboard.units
  | _ => True
  end.

Definition onOffer2 (e : Dashboard.Event2) : Prop :=
  match e with
  | Dashboard.ToggleUnit u => u ∈ Dashboard.units
  | _ => True
  end.

(** The input for a vocabulary item equals its English word up to case and
    surrounding white space. *)
Definition spelledRight (inputs : gmap string string) (item : VocabItem.t)
  : bool :=
  String.eqb
    (normalised (JsString.orElse (inputs !! VocabItem.id item) ""))
    (normalised (VocabItem.english item)).

Definition misspelled (inputs : gmap string string) (item : VocabItem.t)
  : bool :=
  negb (spelledRight inputs item).

(** The answer to a blank equals its key, the answer taken up to case and
    surrounding white space and the key up to case. *)
Definition blankRight (answers : gmap Z string) (b : GrammarBlank.t) : bool :=
  String.eqb
    (normalised (JsString.orElse (answers !! GrammarBlank.id b) ""))
    (JsString.toLowerCase (GrammarBlank.answer b)).

(** Score of an objective question in the second variant. *)
Definition objectiveAward2 (ans : gmap string string) (q : Question.t) : Z :=
  if TestPaperView2.strictEq (JsObject.get ans (Question.id q))
       (Question.correctAnswer q)
  then Question.maxScore q else 0.

Definition objectiveTotal2 (ans : gmap string string) (qs : list Question.t) : Z :=
  fold_right
    (fun q acc => (if isObjective q then objectiveAward2 ans q else 0) + acc) 0 qs.

(** Position, among the requests [calls] of which the first is the [k]-th
    of the submission, of the first one that is rejected. *)
Fixpoint firstRejected (grader : Grader) (k : nat) (calls : list GradeCall.t)
  : option nat :=
  match calls with
  | [] => None
  | c :: cs =>
      match grader k c with
      | Rejected => Some O
      | Resolved _ => option_map S (firstRejected grader (S k) cs)
      end
  end.

(** Score of a section in the second variant, when [k] requests were sent
    before its first question. *)
Definition sectionAward2 (grader : Grader) (config : TextbookConfig.t)
    (ans : gmap string string) (k : nat) (s : TestSection.t) : Z :=
  objectiveTotal2 ans (TestSection.questions s)
  + essayTotal grader k
      (List.map (callOf2 config ans)
         (List.filter isWriting (TestSection.questions s))).

(** Number of writing questions in the first [i] sections. *)
Definition essaysBefore (i : nat) (ss : list TestSection.t) : nat :=
  length (List.filter isWriting
            (List.concat (List.map TestSection.questions (take i ss)))).

(** Sum of the scores recorded for the given sections. *)
Definition sectionScoreSum (scores : gmap string Z) (ss : list TestSection.t) : Z :=
  fold_right
    (fun s acc =>
       match scores !! TestSection.id s with Some v => v | None => 0 end + acc)
    0 ss.

(** The mode of the application has the data that its view needs. *)
Definition consistent (st : App.State) : Prop :=
  (App.mode st = AppMode.Setup ∨ is_Some (App.config st)) ∧
  (App.mode st = AppMode.VocabPractice → is_Some (App.practiceData st)) ∧
  (App.mode st = AppMode.TestPaper → is_Some (App.testPaper st)) ∧
  App.mode st ≠ AppMode.TestResult.

(** An effect that keeps the state consistent. *)
Definition safe (st : App.State) (e : App.Effect) : Prop :=
  match e with
  | App.SetMode AppMode.Setup => True
  | App.SetMode AppMode.Dashboard => is_Some (App.config st)
  | App.SetMode AppMode.VocabPractice =>
      is_Some (App.config st) ∧ is_Some (App.practiceData st)
  | App.SetMode AppMode.TestPaper =>
      is_Some (App.config st) ∧ is_Some (App.testPaper st)
  | App.SetMode AppMode.TestResult => False
  | _ => True
  end.

Fixpoint allSafe (st : App.State) (es : list App.Effect) : Prop :=
  match es with
  | [] => True
  | e :: es' => safe st e ∧ allSafe (App.apply st e) es'
  end.

(** The handler that each function of the gateway is meant for. *)
Definition handlerOf (c : Endpoint.Call) : Endpoint.Handler :=
  match c with
  | Endpoint.GenerateVocabAndGrammar => Endpoint.HandleVocab
  | Endpoint.GenerateTestPaper => Endpoint.HandleTestPaper
  | Endpoint.GenerateSpeech => Endpoint.HandleSpeech
  | Endpoint.GradeWriting => Endpoint.HandleGrading
  | Endpoint.LookupWord => Endpoint.HandleLookup
  end.

(** A string without hyphen. *)
Fixpoint noHyphen (s : string) : bool :=
  match s with
  | EmptyString => true
  | String c s' => negb (Ascii.eqb c "-"%char) && noHyphen s'
  end.

(** Number of spaces of a string. *)
Fixpoint countSpaces (s : string) : nat :=
  match s with
  | EmptyString => O
  | String c s' => ((if Ascii.eqb c " "%char then 1 else 0) + countSpaces s')%nat
  end.

(** A text that the tooltip accepts: not empty, without surrounding white
    space, shorter than 50 characters and with at most three spaces. *)
Definition lookable (text : string) : Prop :=
  text ≠ "" ∧ JsString.trim text = text ∧
  (String.length text < 50)%nat ∧ (countSpaces text ≤ 3)%nat.

(** Sample data of the practice view. *)
Module Practice.

Definition word (id english : string) : VocabItem.t :=
  {| VocabItem.id := id; VocabItem.english := english;
     VocabItem.chinese := "Word " +:+ id; VocabItem.partOfSpeech := "n.";
     VocabItem.example := "An example with " +:+ english |}.

(** Two words, the second of which carries a leading space. *)
Definition apple : VocabItem.t := word "vocab-1-0" "apple".
Definition pear : VocabItem.t := word "vocab-1-1" " pear".
Definition items : list VocabItem.t := [apple; pear].

(** A word whose identifier is the name of a member of
    [Object.prototype]. *)
Definition inheritedId : VocabItem.t := word "constructor" "apple".

Definition data : PracticeSessionData.t :=
  {| PracticeSessionData.vocab := items;
     PracticeSessionData.grammar := Sample.passage |}.

End Practice.

(** ** The answer form of [TestPaperView] *)

Module PaperForm.

(** What the user can do on the form: choose the [o]-th option of the
    [i]-th question of the paper, or type a text for the [i]-th
    question. *)
Inductive Input :=
| Choose (i o : nat)
| Enter (i : nat) (text : string).

(** First variant: radio buttons with [value={opt}] for a multiple-choice
    question that has options, a text field for a fill-in-blank or boolean
    question, a text area for a writing question. An input that is not on
    the form does nothing. *)
Definition handle (paper : TestPaperData.t) (st : TestPaperView.State)
    (input : Input) : TestPaperView.State :=
  match input with
  | Choose i o =>
      match allQuestions paper !! i with
      | Some q =>
          match Question.type q, Question.options q with
          | multiple_choice, Some options =>
              match options !! o with
              | Some opt => TestPaperView.handleAnswer (Question.id q) opt st
              | None => st
              end
          | _, _ => st
          end
      | None => st
      end
  | Enter i text =>
      match allQuestions paper !! i with
      | Some q =>
          match Question.type q with
          | fill_in_blank | boolean | writing =>
              TestPaperView.handleAnswer (Question.id q) text st
          | multiple_choice => st
          end
      | None => st
      end
  end.

(** [opt.charAt(0)]. *)
Definition charAt0 (s : string) : string :=
  match s with
  | EmptyString => EmptyString
  | String c _ => String c EmptyString
  end.

(** Second variant: radio buttons with [value={opt.charAt(0)}] for a
    multiple-choice question that has options and a text area for a
    writing question; nothing for the other kinds. *)
Definition handle2 (paper : TestPaperData.t) (st : TestPaperView2.State)
    (input : Input) : TestPaperView2.State :=
  match input with
  | Choose i o =>
      match allQuestions paper !! i with
      | Some q =>
          match Question.type q, Question.options q with
          | multiple_choice, Some options =>
              match options !! o with
              | Some opt =>
                  TestPaperView2.setAnswer (Question.id q) (charAt0 opt) st
              | None => st
              end
          | _, _ => st
          end
      | None => st
      end
  | Enter i text =>
      match allQuestions paper !! i with
      | Some q =>
          match Question.type q with
          | writing => TestPaperView2.setAnswer (Question.id q) text st
          | _ => st
          end
      | None => st
      end
  end.

End PaperForm.

(** The answer [a] to a question of the paper is one that the first form
    can produce. *)
Definition enterable (q : Question.t) (a : string) : Prop :=
  match Question.type q with
  | multiple_choice =>
      ∃ options, Question.options q = Some options ∧ a ∈ options
  | _ => True
  end.

(** The answer [a] to a question of the paper is one that the second form
    can produce. *)
Definition enterable2 (q : Question.t) (a : string) : Prop :=
  match Question.type q with
  | multiple_choice =>
      ∃ options opt, Question.options q = Some options ∧ opt ∈ options ∧
                     a = PaperForm.charAt0 opt
  | writing => True
  | _ => False
  end.

(** A paper with a multiple-choice question whose key is the letter of an
    option, and a fill-in-blank question. *)
Module Quiz.

Definition choice : Question.t :=
  {| Question.id := "m1"; Question.type := multiple_choice;
     Question.prompt := "Which city is the capital of France?";
     Question.options := Some ["A. Paris"; "B. Rome"];
     Question.correctAnswer := Given "A";
     Question.explanation := None; Question.userAnswer := None;
     Question.maxScore := 2 |}.

Definition paper : TestPaperData.t :=
  Sample.paperOf None [Sample.section "s1" reading [choice; Sample.capital]].

(** The same question with options that start with a small letter. *)
Definition smallLetters : Question.t :=
  {| Question.id := "m2"; Question.type := multiple_choice;
     Question.prompt := "Which city is the capital of France?";
     Question.options := Some ["a. Paris"; "b. Rome"];
     Question.correctAnswer := Given "A";
     Question.explanation := None; Question.userAnswer := None;
     Question.maxScore := 2 |}.

Definition smallLettersPaper : TestPaperData.t :=
  Sample.paperOf None [Sample.section "s1" reading [smallLetters]].

(** A multiple-choice question whose key is [null]. *)
Definition nullKey : Question.t :=
  {| Question.id := "m3"; Question.type := multiple_choice;
     Question.prompt := "Which city do you like best?";
     Question.options := Some ["A. Paris"; "B. Rome"];
     Question.correctAnswer := Null;
     Question.explanation := None; Question.userAnswer := None;
     Question.maxScore := 3 |}.

(** A paper with two sections: objective questions and an essay. *)
Definition mixedPaper : TestPaperData.t :=
  Sample.paperOf None
    [Sample.section "s1" reading [choice; nullKey];
     Sample.section "s2" writing_section [Sample.essay1]].

End Quiz.

(** * Properties *)

(** ** Strings *)

Section StringFacts.

Import JsString.

Lemma isWhiteSpace_toLowerChar c : isWhiteSpace (toLowerChar c) = isWhiteSpace c.
Proof. by destruct c as [[] [] [] [] [] [] [] []]. Qed.

Lemma trimStart_toLowerCase s :
  trimStart (toLowerCase s) = toLowerCase (trimStart s).
Proof.
  induction s as [|c s IH]; [done|]. cbn [toLowerCase trimStart].
  rewrite isWhiteSpace_toLowerChar. by destruct (isWhiteSpace c).
Qed.

Lemma trimEnd_toLowerCase s :
  trimEnd (toLowerCase s) = toLowerCase (trimEnd s).
Proof.
  induction s as [|c s IH]; [done|]. cbn [toLowerCase trimEnd].
  rewrite IH, isWhiteSpace_toLowerChar.
  destruct (trimEnd s); [by destruct (isWhiteSpace c)|done].
Qed.

(** Trimming and lower-casing commute. *)
Lemma trim_toLowerCase s : trim (toLowerCase s) = toLowerCase (trim s).
Proof. unfold trim. by rewrite trimStart_toLowerCase, trimEnd_toLowerCase. Qed.

Lemma trimEnd_allWhiteSpace w : allWhiteSpace w = true → trimEnd w = "".
Proof.
  induction w as [|c w IH]; [done|]. cbn [allWhiteSpace trimEnd].
  intros [Hc Hw]%andb_true_iff. by rewrite (IH Hw), Hc.
Qed.

Lemma trimStart_allWhiteSpace w : allWhiteSpace w = true → trimStart w = "".
Proof.
  induction w as [|c w IH]; [done|]. cbn [allWhiteSpace trimStart].
  intros [Hc Hw]%andb_true_iff. by rewrite Hc, IH.
Qed.

Lemma append_nil w : "" +:+ w = w.
Proof. reflexivity. Qed.

Lemma append_cons c s w : String c s +:+ w = String c (s +:+ w).
Proof. reflexivity. Qed.

Lemma trimEnd_app s w : allWhiteSpace w = true → trimEnd (s +:+ w) = trimEnd s.
Proof.
  intros Hw. induction s as [|c s IH].
  - rewrite append_nil. by apply trimEnd_allWhiteSpace.
  - rewrite append_cons. cbn [trimEnd]. by rewrite IH.
Qed.

Lemma trim_app_l w s : allWhiteSpace w = true → trim (w +:+ s) = trim s.
Proof.
  intros Hw. unfold trim. f_equal.
  induction w as [|c w IH]; [done|]. cbn [allWhiteSpace] in Hw.
  apply andb_true_iff in Hw as [Hc Hw]. rewrite append_cons.
  cbn [trimStart]. rewrite Hc. by apply IH.
Qed.

Lemma trim_app_r s w : allWhiteSpace w = true → trim (s +:+ w) = trim s.
Proof.
  intros Hw. unfold trim. induction s as [|c s IH].
  - rewrite append_nil. by rewrite (trimStart_allWhiteSpace w Hw).
  - rewrite append_cons. cbn [trimStart].
    destruct (isWhiteSpace c); [done|].
    rewrite <- append_cons. by apply trimEnd_app.
Qed.

(** Surrounding white space and the case of the letters do not show in
    the normalised form. *)
Lemma normalised_variant (w1 w2 a a' : string) :
  allWhiteSpace w1 = true → allWhiteSpace w2 = true →
  toLowerCase a' = toLowerCase a →
  normalised (w1 +:+ a' +:+ w2) = normalised a.
Proof.
  intros H1 H2 Ha. unfold normalised.
  rewrite trim_app_l, trim_app_r by done.
  by rewrite <- !trim_toLowerCase, Ha.
Qed.

End StringFacts.

(** ** Grading, first variant *)

Section GradingFacts.

Import TestPaperView.

Variable grader : Grader.
Variable config : TextbookConfig.t.
Variable ans : gmap string string.

Local Notation "'step'" := (afterQuestion grader config ans).

Lemma forOf_app {A B} (body : A → B → Run A) l1 l2 a :
  forOf body (l1 ++ l2) a
  = match forOf body l1 a with
    | Done a' => forOf body l2 a'
    | Thrown calls => Thrown calls
    end.
Proof.
  revert a. induction l1 as [|b l1 IH]; intros a; cbn [forOf app]; [done|].
  destruct (body a b); [apply IH | done].
Qed.

(** The nested loops visit the questions in document order. *)
Lemma gradePaper_flat paper :
  gradePaper grader config ans paper
  = forOf (gradeQuestion grader config ans) (allQuestions paper) start.
Proof.
  unfold gradePaper, allQuestions. generalize start.
  induction (TestPaperData.sections paper) as [|s ss IH]; intros acc; [done|].
  cbn [forOf List.map List.concat]. rewrite forOf_app.
  unfold gradeSection at 1. destruct (forOf _ _ acc); [apply IH | done].
Qed.

(** The loop body throws exactly on the questions of [throwsAt], before
    anything is sent or counted for them. *)
Lemma gradeQuestion_throws acc q :
  throwsAt ans q = true →
  gradeQuestion grader config ans acc q = Thrown (issued acc).
Proof.
  unfold throwsAt, gradeQuestion.
  destruct (Question.type q); try done;
    by destruct (isMatch _ _) as [[]|].
Qed.

Lemma gradeQuestion_done acc q :
  throwsAt ans q = false →
  gradeQuestion grader config ans acc q = Done (step acc q).
Proof.
  unfold throwsAt, afterQuestion, gradeQuestion.
  destruct (Question.type q);
    try (by destruct (isMatch _ _) as [[]|]).
  intros _. destruct (JsObject.truthy _); [|done]. by destruct (grader _ _).
Qed.

Lemma step_objective acc q :
  isObjective q = true → throwsAt ans q = false →
  step acc q
  = {| totalScore := totalScore acc + objectiveAward ans q;
       maxTotalScore := maxTotalScore acc + Question.maxScore q;
       newWritingFeedback := newWritingFeedback acc;
       issued := issued acc |}.
Proof.
  unfold isObjective, isWriting, throwsAt, afterQuestion, gradeQuestion,
    objectiveAward.
  destruct (Question.type q); try done;
    intros _; destruct (isMatch _ _) as [[]|]; try done; intros _;
    f_equal; lia.
Qed.

Lemma truthy_orElse v :
  JsObject.truthy (Some (JsObject.orElse v "")) = JsObject.truthy v.
Proof. by destruct v as [[[|c s]|name]|]. Qed.

Lemma step_unanswered acc q :
  isWriting q = true → answered ans q = false →
  step acc q
  = {| totalScore := totalScore acc;
       maxTotalScore := maxTotalScore acc + Question.maxScore q;
       newWritingFeedback := newWritingFeedback acc;
       issued := issued acc |}.
Proof.
  unfold isWriting, answered, afterQuestion, gradeQuestion.
  destruct (Question.type q); try done. intros _ Ha.
  by rewrite truthy_orElse, Ha.
Qed.

Lemma step_essay acc q :
  isWriting q = true → answered ans q = true →
  step acc q
  = match grader (length (issued acc)) (callOf config ans q) with
    | Resolved fb =>
        {| totalScore := totalScore acc + WritingFeedback.score fb;
           maxTotalScore := maxTotalScore acc + Question.maxScore q;
           newWritingFeedback :=
             <[Question.id q := fb]> (newWritingFeedback acc);
           issued := issued acc ++ [callOf config ans q] |}
    | Rejected =>
        {| totalScore := totalScore acc;
           maxTotalScore := maxTotalScore acc + Question.maxScore q;
           newWritingFeedback := newWritingFeedback acc;
           issued := issued acc ++ [callOf config ans q] |}
    end.
Proof.
  unfold isWriting, answered, afterQuestion, gradeQuestion.
  destruct (Question.type q); try done. intros _ Ha.
  rewrite truthy_orElse, Ha. fold (callOf config ans q).
  by destruct (grader _ _).
Qed.

(** A writing question never throws. *)
Lemma throwsAt_writing q : isWriting q = true → throwsAt ans q = false.
Proof. unfold isWriting, throwsAt. by destruct (Question.type q). Qed.

(** The three cases of the loop body. *)
Lemma step_cases q :
  (isObjective q = true) ∨
  (isWriting q = true ∧ answered ans q = false) ∨
  (isWriting q = true ∧ answered ans q = true).
Proof.
  unfold isObjective. destruct (isWriting q), (answered ans q); auto.
Qed.

Lemma essaysAnswered_cons q qs :
  essaysAnswered ans (q :: qs)
  = if isWriting q && answered ans q
    then q :: essaysAnswered ans qs else essaysAnswered ans qs.
Proof. reflexivity. Qed.

(** Without a throw the loop runs to its end. *)
Lemma run_done qs : ∀ acc,
  noThrow ans qs →
  forOf (gradeQuestion grader config ans) qs acc = Done (fold_left step qs acc).
Proof.
  induction qs as [|q qs IH]; intros acc Hsafe; [done|].
  apply Forall_cons in Hsafe as [Hq Hsafe].
  cbn [forOf fold_left]. rewrite gradeQuestion_done by done. by apply IH.
Qed.

(** A throw abandons the loop. *)
Lemma run_thrown qs : ∀ acc,
  ¬ noThrow ans qs →
  ∃ calls, forOf (gradeQuestion grader config ans) qs acc = Thrown calls.
Proof.
  induction qs as [|q qs IH]; intros acc Hsafe.
  - destruct Hsafe. constructor.
  - cbn [forOf]. destruct (throwsAt ans q) eqn:Hq.
    + rewrite gradeQuestion_throws by done. by eexists.
    + rewrite gradeQuestion_done by done. apply IH.
      intros H. apply Hsafe. by constructor.
Qed.

Lemma step_maxTotalScore acc q :
  throwsAt ans q = false →
  maxTotalScore (step acc q) = maxTotalScore acc + Question.maxScore q.
Proof.
  intros Hq. destruct (step_cases q) as [Ho|[[Hw Ha]|[Hw Ha]]].
  - by rewrite step_objective.
  - by rewrite step_unanswered.
  - rewrite step_essay by done. by destruct (grader _ _).
Qed.

Lemma fold_maxTotalScore qs : ∀ acc,
  noThrow ans qs →
  maxTotalScore (fold_left step qs acc) = maxTotalScore acc + sumMaxScore qs.
Proof.
  induction qs as [|q qs IH]; intros acc Hsafe;
    cbn [fold_left sumMaxScore fold_right].
  - lia.
  - apply Forall_cons in Hsafe as [Hq Hsafe].
    rewrite IH, step_maxTotalScore by done. fold (sumMaxScore qs). lia.
Qed.

(** The requests sent are those of the writing questions taken as
    answered, in document order. *)
Lemma fold_issued qs : ∀ acc,
  noThrow ans qs →
  issued (fold_left step qs acc)
  = issued acc ++ List.map (callOf config ans) (essaysAnswered ans qs).
Proof.
  induction qs as [|q qs IH]; intros acc Hsafe; cbn [fold_left].
  - cbn. by rewrite app_nil_r.
  - apply Forall_cons in Hsafe as [Hq Hsafe].
    rewrite IH, essaysAnswered_cons by done.
    destruct (step_cases q) as [Ho|[[Hw Ha]|[Hw Ha]]].
    + rewrite step_objective by done. unfold isObjective in Ho.
      apply negb_true_iff in Ho. by rewrite Ho.
    + rewrite step_unanswered by done. by rewrite Hw, Ha.
    + rewrite step_essay, Hw, Ha by done. cbn [andb List.map].
      destruct (grader _ _); cbn [issued]; by rewrite <- app_assoc.
Qed.

Lemma fold_totalScore qs : ∀ acc,
  noThrow ans qs →
  totalScore (fold_left step qs acc)
  = totalScore acc + objectiveTotal ans qs
    + essayTotal grader (length (issued acc))
        (List.map (callOf config ans) (essaysAnswered ans qs)).
Proof.
  induction qs as [|q qs IH]; intros acc Hsafe;
    cbn [fold_left objectiveTotal fold_right].
  - cbn. lia.
  - apply Forall_cons in Hsafe as [Hq Hsafe].
    rewrite IH, essaysAnswered_cons by done. fold (objectiveTotal ans qs).
    destruct (step_cases q) as [Ho|[[Hw Ha]|[Hw Ha]]].
    + rewrite step_objective by done. rewrite Ho. unfold isObjective in Ho.
      apply negb_true_iff in Ho. rewrite Ho. cbn [andb totalScore issued]. lia.
    + rewrite step_unanswered by done. unfold isObjective.
      rewrite Hw, Ha. cbn [andb negb totalScore issued]. lia.
    + rewrite step_essay by done. unfold isObjective.
      rewrite Hw, Ha. cbn [andb negb List.map essayTotal].
      destruct (grader _ _); cbn [totalScore issued essayAward];
        rewrite length_app; cbn [length];
        replace (length (issued acc) + 1)%nat with (S (length (issued acc)))
          by lia; lia.
Qed.

(** A feedback entry changes only when a writing question with that id,
    taken as answered, is graded. *)
Lemma fold_feedback_other qs x : ∀ acc,
  noThrow ans qs →
  x ∉ List.map Question.id (essaysAnswered ans qs) →
  newWritingFeedback (fold_left step qs acc) !! x
  = newWritingFeedback acc !! x.
Proof.
  induction qs as [|q qs IH]; intros acc Hsafe Hx; cbn [fold_left]; [done|].
  apply Forall_cons in Hsafe as [Hq Hsafe].
  rewrite essaysAnswered_cons in Hx.
  destruct (step_cases q) as [Ho|[[Hw Ha]|[Hw Ha]]].
  - pose proof Ho as Ho'. unfold isObjective in Ho'.
    apply negb_true_iff in Ho'. rewrite Ho' in Hx.
    rewrite IH by done. by rewrite step_objective.
  - rewrite Hw, Ha in Hx. rewrite IH by done. by rewrite step_unanswered.
  - rewrite Hw, Ha in Hx. cbn [andb List.map] in Hx.
    apply not_elem_of_cons in Hx as [Hne Hx].
    rewrite IH by done. rewrite step_essay by done.
    destruct (grader _ _); cbn [newWritingFeedback]; [|done].
    by rewrite lookup_insert_ne.
Qed.

(** With distinct ids, the entry of the [i]-th writing question taken as
    answered is the feedback of the [i]-th request when that request
    resolved; when it was rejected no entry is written. *)
Lemma fold_feedback qs : ∀ acc (i : nat) q,
  noThrow ans qs →
  NoDup (List.map Question.id (essaysAnswered ans qs)) →
  essaysAnswered ans qs !! i = Some q →
  newWritingFeedback (fold_left step qs acc) !! Question.id q
  = match grader (length (issued acc) + i)%nat (callOf config ans q) with
    | Resolved fb => Some fb
    | Rejected => newWritingFeedback acc !! Question.id q
    end.
Proof.
  induction qs as [|q0 qs IH]; intros acc i q Hsafe Hnd Hi; [done|].
  apply Forall_cons in Hsafe as [Hq0 Hsafe].
  cbn [fold_left]. rewrite essaysAnswered_cons in Hnd, Hi.
  destruct (step_cases q0) as [Ho|[[Hw Ha]|[Hw Ha]]].
  - pose proof Ho as Ho'. unfold isObjective in Ho'.
    apply negb_true_iff in Ho'.
    rewrite Ho' in Hnd, Hi. rewrite (IH _ i q) by done.
    by rewrite step_objective.
  - rewrite Hw, Ha in Hnd, Hi. rewrite (IH _ i q) by done.
    by rewrite step_unanswered.
  - rewrite Hw, Ha in Hnd, Hi. cbn [andb List.map] in Hnd, Hi.
    apply NoDup_cons in Hnd as [Hnotin Hnd].
    destruct i as [|i].
    + injection Hi as ->. rewrite fold_feedback_other by done.
      rewrite step_essay by done. rewrite Nat.add_0_r.
      destruct (grader _ _); cbn [newWritingFeedback]; [|done].
      by rewrite lookup_insert_eq.
    + cbn in Hi. rewrite (IH _ i q) by done.
      assert (Question.id q0 ≠ Question.id q) as Hne.
      { intros Heq. apply Hnotin. rewrite Heq.
        apply list_elem_of_In, in_map, list_elem_of_In.
        by eapply list_elem_of_lookup_2. }
      rewrite step_essay by done.
      destruct (grader (length (issued acc)) (callOf config ans q0));
        cbn [issued newWritingFeedback]; rewrite length_app; cbn [length];
        replace (length (issued acc) + 1 + i)%nat
          with (length (issued acc) + S i)%nat by lia;
        destruct (grader (length (issued acc) + S i)%nat _); try done.
      by rewrite lookup_insert_ne.
Qed.

(** Whether or not the loop is abandoned, the requests sent so far are
    the first ones of the writing questions taken as answered. *)
Lemma run_issued qs : ∀ acc,
  ∃ n,
    match forOf (gradeQuestion grader config ans) qs acc with
    | Done acc' => issued acc'
    | Thrown calls => calls
    end
    = issued acc ++ take n (List.map (callOf config ans) (essaysAnswered ans qs)).
Proof.
  induction qs as [|q qs IH]; intros acc.
  - exists O. cbn. by rewrite app_nil_r.
  - cbn [forOf]. destruct (throwsAt ans q) eqn:Hq.
    + rewrite gradeQuestion_throws by done. exists O.
      rewrite take_0. by rewrite app_nil_r.
    + rewrite gradeQuestion_done by done.
      destruct (IH (step acc q)) as [n Hn]. rewrite Hn.
      rewrite essaysAnswered_cons.
      destruct (step_cases q) as [Ho|[[Hw Ha]|[Hw Ha]]].
      * rewrite step_objective by done. unfold isObjective in Ho.
        apply negb_true_iff in Ho. rewrite Ho. by exists n.
      * rewrite step_unanswered by done. rewrite Hw, Ha. by exists n.
      * rewrite step_essay, Hw, Ha by done. cbn [andb List.map].
        exists (S n). cbn [take].
        destruct (grader _ _); cbn [issued]; by rewrite <- app_assoc.
Qed.

End GradingFacts.

(** ** Grading, second variant *)

Section GradingFacts2.

Import TestPaperView2.

Variable grader : Grader.
Variable config : TextbookConfig.t.
Variable ans : gmap string string.

Lemma step2_maxTotalScore acc q acc' :
  gradeQuestion grader config ans acc q = Done acc' →
  maxTotalScore acc' = maxTotalScore acc + Question.maxScore q.
Proof.
  unfold gradeQuestion. intros H.
  destruct (Question.type q); repeat case_match; simplify_eq; reflexivity.
Qed.

Lemma sumMaxScore_cons q qs :
  sumMaxScore (q :: qs) = Question.maxScore q + sumMaxScore qs.
Proof. reflexivity. Qed.

Lemma questions2_maxTotalScore qs : ∀ acc acc',
  forOf (gradeQuestion grader config ans) qs acc = Done acc' →
  maxTotalScore acc' = maxTotalScore acc + sumMaxScore qs.
Proof.
  induction qs as [|q qs IH]; intros acc acc' H; cbn [forOf] in H.
  - simplify_eq. cbn. lia.
  - destruct (gradeQuestion grader config ans acc q) as [acc1|] eqn:E; [|done].
    rewrite (IH _ _ H), (step2_maxTotalScore _ _ _ E), sumMaxScore_cons. lia.
Qed.

Lemma section2_maxTotalScore acc s acc' :
  gradeSection grader config ans acc s = Done acc' →
  maxTotalScore acc'
  = maxTotalScore acc + sumMaxScore (TestSection.questions s).
Proof.
  unfold gradeSection. intros H.
  destruct (forOf _ _ _) as [acc1|] eqn:E; [|done]. simplify_eq.
  cbn [maxTotalScore]. by rewrite (questions2_maxTotalScore _ _ _ E).
Qed.

Lemma sumMaxScore_app qs1 qs2 :
  sumMaxScore (qs1 ++ qs2) = sumMaxScore qs1 + sumMaxScore qs2.
Proof.
  induction qs1 as [|q qs1 IH]; [done|].
  rewrite <- app_comm_cons, !sumMaxScore_cons, IH. lia.
Qed.

Lemma sections2_maxTotalScore ss : ∀ acc acc',
  forOf (gradeSection grader config ans) ss acc = Done acc' →
  maxTotalScore acc'
  = maxTotalScore acc
    + sumMaxScore (List.concat (List.map TestSection.questions ss)).
Proof.
  induction ss as [|s ss IH]; intros acc acc' H; cbn [forOf] in H.
  - simplify_eq. cbn. lia.
  - destruct (gradeSection grader config ans acc s) as [acc1|] eqn:E; [|done].
    rewrite (IH _ _ H), (section2_maxTotalScore _ _ _ E).
    cbn [List.map List.concat]. rewrite sumMaxScore_app. lia.
Qed.

Lemma gradePaper2_maxTotalScore paper acc :
  gradePaper grader config ans paper = Done acc →
  maxTotalScore acc = sumMaxScore (allQuestions paper).
Proof.
  intros H. apply sections2_maxTotalScore in H. by rewrite H.
Qed.

(** When no request is rejected, the loops run to completion. *)
Lemma questions2_complete qs :
  alwaysResolves grader →
  ∀ acc, ∃ acc', forOf (gradeQuestion grader config ans) qs acc = Done acc'.
Proof.
  intros Hg. induction qs as [|q qs IH]; intros acc; cbn [forOf]; [by eexists|].
  assert (∃ acc1, gradeQuestion grader config ans acc q = Done acc1) as [acc1 ->].
  { unfold gradeQuestion.
    destruct (Question.type q); try (case_match; by eexists).
    match goal with |- context [grader ?k ?c] => destruct (Hg k c) as [fb ->] end.
    by eexists. }
  apply IH.
Qed.

Lemma gradePaper2_complete paper :
  alwaysResolves grader →
  ∃ acc, gradePaper grader config ans paper = Done acc.
Proof.
  intros Hg. unfold gradePaper. generalize start.
  induction (TestPaperData.sections paper) as [|s ss IH]; intros acc;
    cbn [forOf]; [by eexists|].
  unfold gradeSection at 1.
  match goal with
  | |- context [forOf (gradeQuestion grader config ans) ?qs ?a] =>
      destruct (questions2_complete qs Hg a) as [acc1 ->]
  end.
  apply IH.
Qed.

End GradingFacts2.

(** ** Objective questions *)

Lemma truthy_true s : JsString.truthy s = true ↔ s ≠ "".
Proof. by destruct s. Qed.

(** With a non-empty key, [isMatch] is equality up to case and surrounding
    white space. *)
Lemma isMatch_spec userAns c :
  c ≠ "" →
  TestPaperView.isMatch userAns (Given c) = Some true ↔ matches userAns c.
Proof.
  intros Hc. unfold TestPaperView.isMatch, matches, normalised.
  apply truthy_true in Hc. rewrite Hc.
  destruct userAns as [[a|name]|].
  - split.
    + intros [= H]. apply String.eqb_eq in H. by eexists.
    + intros (a' & [= <-] & H). by rewrite (proj2 (String.eqb_eq _ _) H).
  - split; [done|]. by intros (a' & ? & _).
  - split; [done|]. by intros (a' & ? & _).
Qed.

(** An objective question throws exactly when its key is non-empty and
    the lookup of its answer yields an inherited member. *)
Lemma throwsAt_spec ans q :
  throwsAt ans q = true ↔
  isObjective q = true ∧ inheritedAnswer ans q = true ∧
  ∃ c, Question.correctAnswer q = Given c ∧ c ≠ "".
Proof.
  unfold throwsAt, isObjective, isWriting, inheritedAnswer,
    TestPaperView.isMatch.
  destruct (Question.type q), (Question.correctAnswer q) as [| |c];
    try (split; [done | by intros (? & ? & c' & ? & ?)]);
    (destruct c as [|ch c];
       [split; [done | by intros (? & ? & c' & [= <-] & ?)]|]);
    cbn [JsString.truthy];
    destruct (JsObject.get ans (Question.id q)) as [[a|name]|];
    try (split; [done | by intros (? & ? & _)]);
    (split; [|done]; intros _; repeat split; by eexists).
Qed.

Lemma throwsAt_own ans q : inheritedAnswer ans q = false → throwsAt ans q = false.
Proof.
  intros H. destruct (throwsAt ans q) eqn:E; [|done].
  apply throwsAt_spec in E as (_ & E & _). congruence.
Qed.

(** C1, as amended: take a question of kind multiple_choice, boolean or
    fill_in_blank for which the lookup [answers[q.id]] yields the answer of
    the user or [undefined], and not a member inherited from
    [Object.prototype]. In the first variant of [handleSubmit], with a
    non-empty [correctAnswer] it is awarded exactly [maxScore] when the
    answer is present and equals [correctAnswer] up to case and
    surrounding white space, and exactly 0 otherwise; with an omitted,
    null or empty [correctAnswer] it is awarded 0; changing only the case
    or the surrounding white space of an answer never changes the award.
    In the second variant, with a [correctAnswer] that is a string, it is
    awarded [maxScore] exactly when the stored answer is that very string,
    and 0 otherwise. *)
Theorem objective_grading grader config ans q :
  isObjective q = true →
  inheritedAnswer ans q = false →
  (∀ acc, ∃ acc',
     TestPaperView.gradeQuestion grader config ans acc q = Done acc' ∧
     TestPaperView.totalScore acc'
     = TestPaperView.totalScore acc + objectiveAward ans q) ∧
  (∀ c, Question.correctAnswer q = Given c → c ≠ "" →
     (matches (JsObject.get ans (Question.id q)) c →
      objectiveAward ans q = Question.maxScore q) ∧
     (¬ matches (JsObject.get ans (Question.id q)) c →
      objectiveAward ans q = 0)) ∧
  (Question.correctAnswer q = Omitted ∨ Question.correctAnswer q = Null ∨
   Question.correctAnswer q = Given "" →
     objectiveAward ans q = 0) ∧
  (∀ w1 w2 a a',
     JsString.allWhiteSpace w1 = true → JsString.allWhiteSpace w2 = true →
     JsString.toLowerCase a' = JsString.toLowerCase a →
     objectiveAward (<[Question.id q := w1 +:+ a' +:+ w2]> ans) q
     = objectiveAward (<[Question.id q := a]> ans) q) ∧
  (∀ c acc, Question.correctAnswer q = Given c →
     ∃ acc',
       TestPaperView2.gradeQuestion grader config ans acc q = Done acc' ∧
       TestPaperView2.totalScore acc'
       = TestPaperView2.totalScore acc
         + (if bool_decide (ans !! Question.id q = Some c)
            then Question.maxScore q else 0)).
Proof.
  intros Ho Hown. split; [|split; [|split; [|split]]].
  - intros acc. eexists. split.
    + apply gradeQuestion_done. by apply throwsAt_own.
    + rewrite step_objective; [done|done|]. by apply throwsAt_own.
  - intros c Hkey Hne. unfold objectiveAward. rewrite Hkey. split; intros Hm.
    + by rewrite (proj2 (isMatch_spec _ _ Hne) Hm).
    + destruct (TestPaperView.isMatch _ _) as [[]|] eqn:E; try done.
      by apply isMatch_spec in E.
  - intros [Hk|[Hk|Hk]]; unfold objectiveAward; by rewrite Hk.
  - intros w1 w2 a a' H1 H2 Ha. unfold objectiveAward, JsObject.get.
    rewrite !lookup_insert_eq.
    destruct (Question.correctAnswer q) as [| |c]; try done.
    unfold TestPaperView.isMatch. destruct (JsString.truthy c); [|done].
    fold (normalised (w1 +:+ a' +:+ w2)).
    fold (normalised a). by rewrite (normalised_variant w1 w2 a a').
  - intros c acc Hc. unfold TestPaperView2.gradeQuestion.
    unfold isObjective, isWriting in Ho. rewrite Hc.
    assert (TestPaperView2.strictEq (JsObject.get ans (Question.id q)) (Given c)
            = bool_decide (ans !! Question.id q = Some c)) as ->.
    { unfold TestPaperView2.strictEq, JsObject.get.
      destruct (ans !! Question.id q) as [a|].
      - destruct (String.eqb_spec a c) as [->|Hne].
        + by rewrite bool_decide_eq_true_2.
        + rewrite bool_decide_eq_false_2; [done|]. by intros [= ->].
      - rewrite bool_decide_eq_false_2 by done.
        by destruct (JsObject.inherits _). }
    destruct (Question.type q); try done;
      destruct (bool_decide _); eexists; split; try reflexivity; cbn; lia.
Qed.

(** Witness of C1: the capital question, answered [" Paris "]. *)
Lemma objective_grading_witness :
  objectiveAward Sample.answers Sample.capital = 5 ∧
  objectiveAward (<["q1" := "  PARIS" +:+ " "]> Sample.answers) Sample.capital
  = objectiveAward (<["q1" := "paris"]> Sample.answers) Sample.capital.
Proof.
  destruct (objective_grading Sample.rejects Sample.config Sample.answers
              Sample.capital eq_refl ltac:(reflexivity))
    as (_ & Hkey & _ & Hvar & _).
  split.
  - apply (Hkey "paris" eq_refl); [discriminate|].
    exists " Paris ". split; reflexivity.
  - apply (Hvar "  " " " "paris" "PARIS"); reflexivity.
Defined.

(** Counterexample to C1 as stated. In the first variant the text field
    of a fill-in-blank question whose [correctAnswer] is empty is left
    empty after typing: the answer equals the key, and the submission
    scores 0 of 5. In the second variant the first option ["a. Paris"] of
    a multiple-choice question whose [correctAnswer] is ["A"] is chosen:
    the form stores ["a"], which equals the key up to case, and the
    submission scores 0 of 2. *)
Lemma objective_grading_counterexample :
  (let st :=
     PaperForm.handle Sample.emptyKeyPaper TestPaperView.initial
       (PaperForm.Enter 0 "") in
   JsObject.get (TestPaperView.answers st) "q2" = Some (JsObject.Val "") ∧
   matches (JsObject.get (TestPaperView.answers st) "q2") "" ∧
   let final :=
     fst (TestPaperView.handleSubmit Sample.rejects Sample.config
            Sample.emptyKeyPaper st) in
   TestPaperView.showResult final = true ∧
   TestPaperView.score final
   = {| TestPaperView.total := 0; TestPaperView.max := 5 |}) ∧
  (let st :=
     PaperForm.handle2 Quiz.smallLettersPaper TestPaperView2.initial
       (PaperForm.Choose 0 0) in
   JsObject.get (TestPaperView2.answers st) "m2" = Some (JsObject.Val "a") ∧
   matches (JsObject.get (TestPaperView2.answers st) "m2") "A" ∧
   ∃ r,
     TestPaperView2.result
       (fst (TestPaperView2.handleSubmit true Sample.rejects Sample.config
               Quiz.smallLettersPaper st)) = Some r ∧
     TestResult.totalScore r = 0 ∧ TestResult.maxTotalScore r = 2).
Proof.
  split.
  - split; [reflexivity|]. split; [by eexists|]. split; reflexivity.
  - split; [reflexivity|]. split; [by eexists|].
    eexists. split; [reflexivity|]. split; reflexivity.
Qed.

(** C10: in the second variant an unanswered multiple-choice question
    without [correctAnswer] is awarded its [maxScore], because
    [undefined === undefined] holds. *)
Theorem missing_key_unanswered_second_variant :
  Question.correctAnswer Sample.noKey = Omitted ∧
  JsObject.get (∅ : gmap string string) (Question.id Sample.noKey) = None ∧
  ∃ acc,
    TestPaperView2.gradeQuestion Sample.rejects Sample.config ∅
      TestPaperView2.start Sample.noKey = Done acc ∧
    TestPaperView2.totalScore acc = Question.maxScore Sample.noKey ∧
    Question.maxScore Sample.noKey = 2.
Proof.
  repeat split. eexists. repeat split.
Qed.

(** The first variant awards 0 to every objective question without
    [correctAnswer], whatever the answer. *)
Lemma missing_key_scores_zero grader config ans acc q :
  isObjective q = true → Question.correctAnswer q = Omitted →
  ∃ acc',
    TestPaperView.gradeQuestion grader config ans acc q = Done acc' ∧
    TestPaperView.totalScore acc' = TestPaperView.totalScore acc.
Proof.
  intros Ho Hk.
  assert (throwsAt ans q = false) as Hsafe.
  { destruct (throwsAt ans q) eqn:E; [|done].
    apply throwsAt_spec in E as (_ & _ & c & Hc & _). congruence. }
  eexists. split; [by apply gradeQuestion_done|].
  rewrite step_objective by done.
  unfold objectiveAward. rewrite Hk. cbn. lia.
Qed.

(** ** The submission of the first variant *)

(** When no comparison throws, the submission ends in the result state,
    with the local variables of the loop in the state. *)
Lemma handleSubmit_done grader config paper st :
  let acc :=
    fold_left (afterQuestion grader config (TestPaperView.answers st))
      (allQuestions paper) TestPaperView.start in
  noThrow (TestPaperView.answers st) (allQuestions paper) →
  TestPaperView.handleSubmit grader config paper st
  = ({| TestPaperView.answers := TestPaperView.answers st;
        TestPaperView.showResult := true;
        TestPaperView.grading := false;
        TestPaperView.writingFeedback := TestPaperView.newWritingFeedback acc;
        TestPaperView.score :=
          {| TestPaperView.total := TestPaperView.totalScore acc;
             TestPaperView.max := TestPaperView.maxTotalScore acc |};
        TestPaperView.isPlaying := TestPaperView.isPlaying st;
        TestPaperView.showListeningScript :=
          TestPaperView.showListeningScript st |},
     TestPaperView.issued acc).
Proof.
  intros acc Hsafe. unfold TestPaperView.handleSubmit.
  by rewrite gradePaper_flat, run_done.
Qed.

(** When a comparison throws, the state is left with [grading] set:
    there is no result and the button [Submit Test] stays disabled. *)
Lemma handleSubmit_thrown grader config paper st :
  ¬ noThrow (TestPaperView.answers st) (allQuestions paper) →
  ∃ calls,
    TestPaperView.handleSubmit grader config paper st
    = ({| TestPaperView.answers := TestPaperView.answers st;
          TestPaperView.showResult := TestPaperView.showResult st;
          TestPaperView.grading := true;
          TestPaperView.writingFeedback := TestPaperView.writingFeedback st;
          TestPaperView.score := TestPaperView.score st;
          TestPaperView.isPlaying := TestPaperView.isPlaying st;
          TestPaperView.showListeningScript :=
            TestPaperView.showListeningScript st |},
       calls).
Proof.
  intros Hthrow. unfold TestPaperView.handleSubmit.
  rewrite gradePaper_flat.
  destruct (run_thrown grader config (TestPaperView.answers st) _
              TestPaperView.start Hthrow) as [calls ->].
  by eexists.
Qed.

Lemma handleSubmit_calls grader config paper st :
  noThrow (TestPaperView.answers st) (allQuestions paper) →
  snd (TestPaperView.handleSubmit grader config paper st)
  = List.map (callOf config (TestPaperView.answers st))
      (essaysAnswered (TestPaperView.answers st) (allQuestions paper)).
Proof.
  intros Hsafe. rewrite handleSubmit_done by done. cbn [snd].
  by rewrite fold_issued.
Qed.

(** Completed or not, a submission sends the first requests of the
    writing questions taken as answered, and no other. *)
Lemma handleSubmit_calls_prefix grader config paper st :
  ∃ n,
    snd (TestPaperView.handleSubmit grader config paper st)
    = take n
        (List.map (callOf config (TestPaperView.answers st))
           (essaysAnswered (TestPaperView.answers st) (allQuestions paper))).
Proof.
  unfold TestPaperView.handleSubmit. rewrite gradePaper_flat.
  destruct (run_issued grader config (TestPaperView.answers st)
              (allQuestions paper) TestPaperView.start) as [n Hn].
  exists n. by destruct (forOf _ _ _).
Qed.

(** When no comparison throws, the first variant ends in the result
    state, with the sum of all [maxScore] as maximum, whatever the outcomes
    of the requests. *)
Lemma handleSubmit_completes grader config paper st :
  noThrow (TestPaperView.answers st) (allQuestions paper) →
  let final := fst (TestPaperView.handleSubmit grader config paper st) in
  TestPaperView.showResult final = true ∧
  TestPaperView.grading final = false ∧
  TestPaperView.max (TestPaperView.score final)
  = sumMaxScore (allQuestions paper).
Proof.
  intros Hsafe. rewrite handleSubmit_done by done. cbn.
  repeat split. rewrite fold_maxTotalScore by done. cbn. lia.
Qed.

(** ** Writing questions *)

Lemma answered_cases ans q :
  answered ans q = supplied ans q || inheritedAnswer ans q.
Proof.
  unfold answered, supplied, inheritedAnswer, JsObject.get.
  destruct (ans !! Question.id q) as [a|]; cbn.
  - by rewrite orb_false_r.
  - by destruct (JsObject.inherits (Question.id q)).
Qed.

(** C3, as amended: take a writing question for which [answers[q.id]] is
    [undefined] or the empty string, so that the user supplied no
    non-empty answer and the lookup does not yield a member inherited from
    [Object.prototype]. In the first variant it is awarded 0, gets no
    feedback entry and causes no [gradeWriting] request: the requests of a
    submission are the first ones, and all of them when the submission
    runs to its end, of the writing questions for which [answers[q.id]] is
    truthy, in document order. In the second variant such a question is
    sent to [gradeWriting] with the text ["No answer provided."]; when the
    request resolves, its feedback is recorded and its score is added to
    the score of the section and to the total. *)
Theorem unanswered_essay grader config ans q :
  isWriting q = true → supplied ans q = false → inheritedAnswer ans q = false →
  (∀ acc, ∃ acc',
     TestPaperView.gradeQuestion grader config ans acc q = Done acc' ∧
     TestPaperView.totalScore acc' = TestPaperView.totalScore acc ∧
     TestPaperView.newWritingFeedback acc' = TestPaperView.newWritingFeedback acc ∧
     TestPaperView.issued acc' = TestPaperView.issued acc) ∧
  (∀ paper st, TestPaperView.answers st = ans →
     (q ∉ essaysAnswered ans (allQuestions paper)) ∧
     (∃ n,
        snd (TestPaperView.handleSubmit grader config paper st)
        = take n (List.map (callOf config ans)
                    (essaysAnswered ans (allQuestions paper)))) ∧
     (noThrow ans (allQuestions paper) →
      snd (TestPaperView.handleSubmit grader config paper st)
      = List.map (callOf config ans) (essaysAnswered ans (allQuestions paper)))) ∧
  GradeCall.studentAnswer (callOf2 config ans q)
  = JsObject.Val "No answer provided." ∧
  (∀ acc fb,
     grader (length (TestPaperView2.issued acc)) (callOf2 config ans q)
     = Resolved fb →
     ∃ acc',
       TestPaperView2.gradeQuestion grader config ans acc q = Done acc' ∧
       TestPaperView2.totalScore acc'
       = TestPaperView2.totalScore acc + WritingFeedback.score fb ∧
       TestPaperView2.sectionScore acc'
       = TestPaperView2.sectionScore acc + WritingFeedback.score fb ∧
       TestPaperView2.newWritingFeedback acc' !! Question.id q = Some fb ∧
       TestPaperView2.issued acc'
       = TestPaperView2.issued acc ++ [callOf2 config ans q]).
Proof.
  intros Hw Hs Hi.
  assert (answered ans q = false) as Ha
    by (by rewrite answered_cases, Hs, Hi).
  split; [|split; [|split]].
  - intros acc. eexists. split.
    + apply gradeQuestion_done. by apply throwsAt_writing.
    + by rewrite step_unanswered.
  - intros paper st <-. split; [|split].
    + unfold essaysAnswered. rewrite list_elem_of_In, filter_In.
      intros [_ H]. by rewrite Hw, Ha in H.
    + apply handleSubmit_calls_prefix.
    + apply handleSubmit_calls.
  - unfold callOf2, supplied, inheritedAnswer, JsObject.get in *.
    cbn [GradeCall.studentAnswer].
    destruct (ans !! Question.id q) as [a|].
    + cbn in Hs. cbn. by rewrite Hs.
    + by destruct (JsObject.inherits _).
  - intros acc fb Hg. unfold TestPaperView2.gradeQuestion.
    unfold isWriting in Hw. destruct (Question.type q); try done.
    fold (callOf2 config ans q). rewrite Hg. eexists.
    split; [reflexivity|]. cbn. by rewrite lookup_insert_eq.
Qed.

(** Witness of C3: the first essay of the sample paper, left unanswered. *)
Lemma unanswered_essay_witness :
  snd (TestPaperView.handleSubmit (Sample.scores 7) Sample.config
         Sample.essayPaper (Sample.view ∅)) = [] ∧
  Sample.essay1 ∉ essaysAnswered ∅ (allQuestions Sample.essayPaper).
Proof.
  destruct (unanswered_essay (Sample.scores 7) Sample.config ∅ Sample.essay1
              ltac:(reflexivity) ltac:(reflexivity) ltac:(reflexivity))
    as (_ & H & _).
  destruct (H Sample.essayPaper (Sample.view ∅) eq_refl) as (Hnot & _ & Hall).
  split; [|exact Hnot]. apply Hall.
  repeat constructor.
Defined.

(** Counterexample to C3 as stated: the second variant grades the essay
    of the sample paper, for which nothing was typed; one request is sent
    with the text ["No answer provided."], the feedback is recorded and
    its score of 7 is the score of the section and the total. *)
Lemma unanswered_essay_counterexample :
  supplied ∅ Sample.essay1 = false ∧
  inheritedAnswer ∅ Sample.essay1 = false ∧
  GradeCall.studentAnswer (callOf2 Sample.config ∅ Sample.essay1)
  = JsObject.Val "No answer provided." ∧
  ∃ st r,
    TestPaperView2.handleSubmit true (Sample.scores 7) Sample.config
      Sample.essayPaper TestPaperView2.initial
    = (st, [callOf2 Sample.config ∅ Sample.essay1]) ∧
    TestPaperView2.result st = Some r ∧
    TestResult.totalScore r = 7 ∧
    TestResult.sectionScores r !! "s1" = Some 7 ∧
    TestPaperView2.writingFeedback st !! "w1" = Some (Sample.feedbackOf 7).
Proof.
  split; [reflexivity|]. split; [reflexivity|]. split; [reflexivity|].
  do 2 eexists. split; [reflexivity|].
  repeat split.
Qed.

(** An unanswered writing question whose id is the name of a member of
    [Object.prototype] is taken as answered by the first variant: the
    member is sent as the student answer. *)
Lemma inherited_essay_is_sent :
  supplied ∅ Sample.inheritedEssay = false ∧
  snd (TestPaperView.handleSubmit (Sample.scores 7) Sample.config
         Sample.inheritedEssayPaper TestPaperView.initial)
  = [{| GradeCall.question := Question.prompt Sample.inheritedEssay;
        GradeCall.studentAnswer := JsObject.Member "toString";
        GradeCall.gradeLevel := Eight |}].
Proof. split; reflexivity. Qed.

(** C4: when the request of a writing question resolves, the score added
    to the total is the score of the feedback, whatever the [maxScore] of
    the question, in both variants; so a feedback with a score above
    [maxScore] makes the question contribute more than [maxScore]. *)
Theorem essay_score_unclamped :
  (∀ grader config ans acc q fb,
     isWriting q = true → answered ans q = true →
     grader (length (TestPaperView.issued acc)) (callOf config ans q)
     = Resolved fb →
     ∃ acc',
       TestPaperView.gradeQuestion grader config ans acc q = Done acc' ∧
       TestPaperView.totalScore acc'
       = TestPaperView.totalScore acc + WritingFeedback.score fb) ∧
  (∀ grader config ans acc q fb,
     isWriting q = true →
     grader (length (TestPaperView2.issued acc)) (callOf2 config ans q)
     = Resolved fb →
     ∃ acc',
       TestPaperView2.gradeQuestion grader config ans acc q = Done acc' ∧
       TestPaperView2.totalScore acc'
       = TestPaperView2.totalScore acc + WritingFeedback.score fb) ∧
  (∃ grader ans st2 r,
     Question.maxScore Sample.essay1 = 10 ∧
     TestPaperView.score
       (fst (TestPaperView.handleSubmit grader Sample.config Sample.essayPaper
               (Sample.view ans)))
     = {| TestPaperView.total := 15; TestPaperView.max := 10 |} ∧
     fst (TestPaperView2.handleSubmit true grader Sample.config
            Sample.essayPaper (Sample.view2 ans)) = st2 ∧
     TestPaperView2.result st2 = Some r ∧
     TestResult.totalScore r = 15 ∧ TestResult.maxTotalScore r = 10).
Proof.
  split; [|split].
  - intros grader config ans acc q fb Hw Ha Hg. eexists. split.
    + apply gradeQuestion_done. by apply throwsAt_writing.
    + by rewrite step_essay, Hg.
  - intros grader config ans acc q fb Hw Hg.
    unfold TestPaperView2.gradeQuestion. unfold isWriting in Hw.
    destruct (Question.type q); try done.
    fold (callOf2 config ans q). rewrite Hg. by eexists.
  - exists (Sample.scores 15), (<["w1" := "Essay one"]> ∅).
    do 2 eexists. repeat split.
Qed.

(** Witness of C4: an essay graded 15 out of a maximum of 10. *)
Lemma essay_score_unclamped_witness :
  ∃ acc',
    TestPaperView.gradeQuestion (Sample.scores 15) Sample.config
      Sample.answers TestPaperView.start Sample.essay1 = Done acc' ∧
    TestPaperView.totalScore acc' = 0 + 15.
Proof.
  destruct essay_score_unclamped as (H & _).
  apply (H (Sample.scores 15) Sample.config Sample.answers TestPaperView.start
           Sample.essay1 (Sample.feedbackOf 15)); reflexivity.
Defined.

(** ** The maximum total *)

(** C5: a defect of the second variant. An essay is typed into the form
    of the sample paper with one essay, whose maximum total is 10, and the
    [gradeWriting] request is rejected. The second variant has no [try]
    around the awaited call: the promise of [handleSubmit] rejects, no
    [TestResult] is stored and [isGrading] stays set, so there is no
    [maxTotalScore] at all. On the same input the first variant, which
    catches the rejection, ends in the result state with the maximum total
    10. The first variant has a defect of its own: on a keyed
    fill-in-blank question that is left unanswered and whose id is
    ["constructor"], the comparison throws and no score is set either. *)
Theorem max_total_absent_after_rejection :
  let st2 :=
    PaperForm.handle2 Sample.essayPaper TestPaperView2.initial
      (PaperForm.Enter 0 "Essay one") in
  let st :=
    PaperForm.handle Sample.essayPaper TestPaperView.initial
      (PaperForm.Enter 0 "Essay one") in
  sumMaxScore (allQuestions Sample.essayPaper) = 10 ∧
  TestPaperView2.handleSubmit true Sample.rejects Sample.config
    Sample.essayPaper st2
  = ({| TestPaperView2.answers := TestPaperView2.answers st2;
        TestPaperView2.submitted := false;
        TestPaperView2.result := None;
        TestPaperView2.writingFeedback := ∅;
        TestPaperView2.isGrading := true |},
     [callOf2 Sample.config (TestPaperView2.answers st2) Sample.essay1]) ∧
  (let final :=
     fst (TestPaperView.handleSubmit Sample.rejects Sample.config
            Sample.essayPaper st) in
   TestPaperView.showResult final = true ∧
   TestPaperView.score final
   = {| TestPaperView.total := 0; TestPaperView.max := 10 |}) ∧
  (let final :=
     fst (TestPaperView.handleSubmit Sample.rejects Sample.config
            Sample.inheritedIdPaper TestPaperView.initial) in
   sumMaxScore (allQuestions Sample.inheritedIdPaper) = 5 ∧
   TestPaperView.showResult final = false ∧
   TestPaperView.grading final = true ∧
   TestPaperView.score final
   = {| TestPaperView.total := 0; TestPaperView.max := 0 |}).
Proof.
  repeat split.
Qed.

(** Every result that the second variant stores has the sum of all
    [maxScore] as maximum. *)
Lemma handleSubmit2_max grader config paper st r :
  TestPaperView2.result st = None →
  TestPaperView2.result
    (fst (TestPaperView2.handleSubmit true grader config paper st)) = Some r →
  TestResult.maxTotalScore r = sumMaxScore (allQuestions paper).
Proof.
  intros Hnone. unfold TestPaperView2.handleSubmit.
  destruct (TestPaperView2.gradePaper _ _ _ _) as [acc|calls] eqn:E;
    cbn [fst TestPaperView2.result].
  - intros [= <-]. cbn [TestResult.maxTotalScore].
    by apply (gradePaper2_maxTotalScore grader config (TestPaperView2.answers st)).
  - by rewrite Hnone.
Qed.

(** ** Containment of a failed essay grading *)

(** When every writing question is taken as answered, each of them is
    sent. *)
Lemma essaysAnswered_all ans qs :
  (∀ q, q ∈ List.filter isWriting qs → answered ans q = true) →
  essaysAnswered ans qs = List.filter isWriting qs.
Proof.
  induction qs as [|q qs IH]; intros Hall; [done|].
  rewrite essaysAnswered_cons. cbn [List.filter] in *.
  destruct (isWriting q) eqn:Hw; cbn [andb].
  - rewrite (Hall q) by apply list_elem_of_here. f_equal.
    apply IH. intros q' Hq'. apply Hall. by apply list_elem_of_further.
  - by apply IH.
Qed.

Lemma supplied_answered ans q : supplied ans q = true → answered ans q = true.
Proof. intros H. by rewrite answered_cases, H. Qed.

(** The API-backed [gradeWriting] rejects on every transport or service
    error. *)
Lemma gradeWriting_rejects reply :
  Gateway.gradeWriting reply = Rejected ↔
  ¬ ∃ fb, reply = Gateway.Response true (Some fb).
Proof.
  unfold Gateway.gradeWriting, Gateway.callApi. split.
  - intros H (fb & ->). done.
  - intros H. destruct reply as [|[] [fb|]]; try done. destruct H. by eexists.
Qed.

(** The direct [gradeWriting] rejects only without API key; an error of
    the model call or of the parsing is turned into the fallback feedback
    of score 0, and a missing text into a value that is no feedback. *)
Lemma gradeWritingDirect_outcomes apiKey reply :
  (Gateway.gradeWritingDirect apiKey reply = Rejected ↔ apiKey = false) ∧
  (apiKey = true → modelFailed reply →
   Gateway.gradeWritingDirect apiKey reply
   = Resolved (Gateway.Feedback Gateway.gradingFallback)) ∧
  (apiKey = true → reply = Gateway.ModelNoText →
   Gateway.gradeWritingDirect apiKey reply = Resolved Gateway.NotFeedback) ∧
  WritingFeedback.score Gateway.gradingFallback = 0.
Proof.
  unfold Gateway.gradeWritingDirect, modelFailed. repeat split.
  - destruct apiKey; [|done]. by destruct reply as [| |[]].
  - by intros ->.
  - intros -> [-> | ->]; reflexivity.
  - by intros -> ->.
Qed.

(** With distinct ids and every writing question taken as answered, the
    entry of the [i]-th writing question is the feedback of the [i]-th
    request if it resolved, and is missing if it was rejected. *)
Lemma handleSubmit_entry grader config paper st (i : nat) q :
  noThrow (TestPaperView.answers st) (allQuestions paper) →
  NoDup (List.map Question.id (writingQuestions paper)) →
  (∀ q', q' ∈ writingQuestions paper →
         answered (TestPaperView.answers st) q' = true) →
  writingQuestions paper !! i = Some q →
  TestPaperView.writingFeedback
    (fst (TestPaperView.handleSubmit grader config paper st)) !! Question.id q
  = match grader i (callOf config (TestPaperView.answers st) q) with
    | Resolved fb => Some fb
    | Rejected => None
    end.
Proof.
  intros Hsafe Hnd Hall Hq.
  assert (essaysAnswered (TestPaperView.answers st) (allQuestions paper)
          = writingQuestions paper) as Hws
    by (by apply essaysAnswered_all).
  rewrite handleSubmit_done by done. cbn [fst TestPaperView.writingFeedback].
  rewrite (fold_feedback _ _ _ _ _ i q) by by rewrite ?Hws.
  cbn [TestPaperView.start TestPaperView.issued length Nat.add].
  by destruct (grader i _).
Qed.

(** The requests and the scores of a submission in which every writing
    question is taken as answered. *)
Lemma handleSubmit_all_essays grader config paper st :
  let ans := TestPaperView.answers st in
  let final := fst (TestPaperView.handleSubmit grader config paper st) in
  noThrow ans (allQuestions paper) →
  (∀ q, q ∈ writingQuestions paper → answered ans q = true) →
  snd (TestPaperView.handleSubmit grader config paper st)
  = List.map (callOf config ans) (writingQuestions paper) ∧
  TestPaperView.total (TestPaperView.score final)
  = objectiveTotal ans (allQuestions paper)
    + essayTotal grader 0 (List.map (callOf config ans) (writingQuestions paper)).
Proof.
  intros ans final Hsafe Hall.
  assert (essaysAnswered ans (allQuestions paper) = writingQuestions paper)
    as Hws by (by apply essaysAnswered_all).
  split.
  - subst ans. by rewrite handleSubmit_calls, Hws.
  - subst final ans. rewrite handleSubmit_done by done.
    cbn [fst TestPaperView.score TestPaperView.total].
    rewrite fold_totalScore, Hws by done.
    cbn [TestPaperView.start TestPaperView.totalScore TestPaperView.issued length].
    lia.
Qed.

(** C2, as amended: let a paper have N writing questions, with distinct
    ids and all answered, so that N [gradeWriting] calls are due, and take
    a submission of the first variant of [handleSubmit] in which no
    comparison of an objective question runs into a member inherited from
    [Object.prototype]. If exactly one of the N calls is rejected, which
    is how the API-backed gateway reports every transport or service
    failure, all N requests are still sent in document order, the failed
    question is awarded 0 and gets no feedback entry, the feedback of each
    of the other N-1 is recorded, and the submission ends in the result
    state with the maximum total of the whole paper. With the direct
    gateway, whose replies carry a feedback or fail, a failure of the
    model call or of the parsing of its text is caught inside
    [gradeWriting] and replaced by a fallback feedback of score 0: the
    failed question is awarded 0 but that fallback is recorded as its
    feedback entry; all requests are sent, the other entries are recorded
    and the submission ends in the result state all the same. *)
Theorem essay_failure_contained config paper st (j : nat) qj :
  let ans := TestPaperView.answers st in
  let ws := writingQuestions paper in
  NoDup (List.map Question.id ws) →
  (∀ q, q ∈ ws → supplied ans q = true) →
  noThrow ans (allQuestions paper) →
  ws !! j = Some qj →
  (∀ grader,
     let final := fst (TestPaperView.handleSubmit grader config paper st) in
     grader j (callOf config ans qj) = Rejected →
     (∀ (i : nat) q, i ≠ j → ws !! i = Some q →
        ∃ fb, grader i (callOf config ans q) = Resolved fb) →
     snd (TestPaperView.handleSubmit grader config paper st)
     = List.map (callOf config ans) ws ∧
     TestPaperView.writingFeedback final !! Question.id qj = None ∧
     (∀ (i : nat) q, i ≠ j → ws !! i = Some q →
        ∃ fb, grader i (callOf config ans q) = Resolved fb ∧
              TestPaperView.writingFeedback final !! Question.id q = Some fb) ∧
     essayAward (grader j (callOf config ans qj)) = 0 ∧
     TestPaperView.total (TestPaperView.score final)
     = objectiveTotal ans (allQuestions paper)
       + essayTotal grader 0 (List.map (callOf config ans) ws) ∧
     TestPaperView.max (TestPaperView.score final)
     = sumMaxScore (allQuestions paper) ∧
     TestPaperView.showResult final = true ∧
     TestPaperView.grading final = false) ∧
  (∀ replies,
     (∀ k c, apiGrader replies k c = Rejected ↔
             ¬ ∃ fb, replies k c = Gateway.Response true (Some fb))) ∧
  (∀ replies grader,
     let final := fst (TestPaperView.handleSubmit grader config paper st) in
     directGrader true replies grader →
     modelFailed (replies j (callOf config ans qj)) →
     snd (TestPaperView.handleSubmit grader config paper st)
     = List.map (callOf config ans) ws ∧
     TestPaperView.writingFeedback final !! Question.id qj
     = Some Gateway.gradingFallback ∧
     WritingFeedback.score Gateway.gradingFallback = 0 ∧
     essayAward (grader j (callOf config ans qj)) = 0 ∧
     (∀ (i : nat) q fb, ws !! i = Some q →
        replies i (callOf config ans q)
        = Gateway.ModelText (Gateway.ParsedFeedback fb) →
        TestPaperView.writingFeedback final !! Question.id q = Some fb) ∧
     TestPaperView.total (TestPaperView.score final)
     = objectiveTotal ans (allQuestions paper)
       + essayTotal grader 0 (List.map (callOf config ans) ws) ∧
     TestPaperView.max (TestPaperView.score final)
     = sumMaxScore (allQuestions paper) ∧
     TestPaperView.showResult final = true ∧
     TestPaperView.grading final = false).
Proof.
  intros ans ws Hnd Hsup Hsafe Hj. subst ans ws.
  assert (Hall : ∀ q, q ∈ writingQuestions paper →
                      answered (TestPaperView.answers st) q = true)
    by (intros q Hq; by apply supplied_answered, Hsup).
  split; [|split].
  - intros grader final Hrej Hothers.
    destruct (handleSubmit_all_essays grader config paper st Hsafe Hall)
      as [Hcalls Htotal].
    destruct (handleSubmit_completes grader config paper st Hsafe)
      as (Hs & Hg & Hm).
    split; [done|]. split.
    { subst final. by rewrite (handleSubmit_entry _ _ _ _ j qj), Hrej. }
    split.
    { intros i q Hi Hq. destruct (Hothers i q Hi Hq) as [fb Hfb].
      exists fb. split; [done|]. subst final.
      by rewrite (handleSubmit_entry _ _ _ _ i q), Hfb. }
    split; [by rewrite Hrej|]. by repeat split.
  - intros replies k c. apply gradeWriting_rejects.
  - intros replies grader final Hdirect Hfail.
    destruct (handleSubmit_all_essays grader config paper st Hsafe Hall)
      as [Hcalls Htotal].
    destruct (handleSubmit_completes grader config paper st Hsafe)
      as (Hs & Hg & Hm).
    assert (grader j (callOf config (TestPaperView.answers st) qj)
            = Resolved Gateway.gradingFallback) as Hfallback.
    { specialize (Hdirect j (callOf config (TestPaperView.answers st) qj)).
      rewrite (proj1 (proj2 (gradeWritingDirect_outcomes true _)) eq_refl Hfail)
        in Hdirect.
      by injection Hdirect as <-. }
    split; [done|]. split.
    { subst final. by rewrite (handleSubmit_entry _ _ _ _ j qj), Hfallback. }
    split; [done|]. split; [by rewrite Hfallback|]. split.
    { intros i q fb Hq Hfb. subst final.
      rewrite (handleSubmit_entry _ _ _ _ i q) by done.
      specialize (Hdirect i (callOf config (TestPaperView.answers st) q)).
      rewrite Hfb in Hdirect. cbn in Hdirect. by injection Hdirect as <-. }
    by repeat split.
Qed.

(** Witness of C2: the sample paper has three answered essays and the
    second request is rejected; the total is 5 for the capital plus 7 for
    each of the two graded essays. *)
Lemma essay_failure_contained_witness :
  let final :=
    fst (TestPaperView.handleSubmit Sample.secondFails Sample.config
           Sample.paper (Sample.view Sample.answers)) in
  TestPaperView.writingFeedback final !! "w2" = None ∧
  TestPaperView.total (TestPaperView.score final) = 19 ∧
  TestPaperView.showResult final = true.
Proof.
  destruct (essay_failure_contained Sample.config Sample.paper
              (Sample.view Sample.answers) 1 Sample.essay2) as (H & _).
  - apply (bool_decide_unpack _). vm_compute. exact I.
  - intros q Hq. cbn in Hq.
    repeat (apply elem_of_cons in Hq as [->|Hq]; [reflexivity|]).
    by apply elem_of_nil in Hq.
  - repeat constructor.
  - reflexivity.
  - destruct (H Sample.secondFails) as (_ & Hnone & _ & _ & Htotal & _ & Hshow & _).
    + reflexivity.
    + intros [|[|[|i]]] q Hi Hq; try done; injection Hq as <-; by eexists.
    + split; [exact Hnone|]. split; [|exact Hshow]. rewrite Htotal. reflexivity.
Defined.

(** Counterexample to C2 as stated: with the direct gateway, the model
    call for the only essay, typed into the form, fails, and the question
    nevertheless has a feedback entry, the fallback. *)
Lemma essay_failure_counterexample :
  let replies : nat → GradeCall.t → Gateway.ModelReply :=
    fun _ _ => Gateway.ModelError in
  let grader : Grader := fun _ _ => Resolved Gateway.gradingFallback in
  let st :=
    PaperForm.handle Sample.essayPaper TestPaperView.initial
      (PaperForm.Enter 0 "Essay one") in
  let final :=
    fst (TestPaperView.handleSubmit grader Sample.config Sample.essayPaper st) in
  directGrader true replies grader ∧
  writingQuestions Sample.essayPaper = [Sample.essay1] ∧
  supplied (TestPaperView.answers st) Sample.essay1 = true ∧
  modelFailed (replies O (callOf Sample.config (TestPaperView.answers st)
                            Sample.essay1)) ∧
  TestPaperView.writingFeedback final !! "w1" = Some Gateway.gradingFallback ∧
  TestPaperView.total (TestPaperView.score final) = 0 ∧
  TestPaperView.showResult final = true.
Proof.
  repeat split. by left.
Qed.

(** ** The session state machine *)

Lemma handleVocabStart_rejected alertText st units c :
  App.config st = Some c →
  ∃ message,
    App.handleVocabStartWith alertText st units Rejected
    = failureEffects message alertText.
Proof.
  intros Hc. unfold App.handleVocabStartWith. rewrite Hc. by eexists.
Qed.

Lemma handleTestStart_rejected alertText st units isZhongkao speechReply c :
  App.config st = Some c →
  ∃ message,
    App.handleTestStartWith alertText st units isZhongkao Rejected speechReply
    = failureEffects message alertText.
Proof.
  intros Hc. unfold App.handleTestStartWith. rewrite Hc. by eexists.
Qed.

Lemma failureEffects_trace message alertText st s :
  s ∈ App.trace st (failureEffects message alertText) →
  App.mode s = App.mode st ∧
  App.practiceData s = App.practiceData st ∧
  App.testPaper s = App.testPaper st ∧
  App.config s = App.config st.
Proof.
  cbn [failureEffects App.trace]. intros Hs.
  repeat (apply elem_of_cons in Hs as [-> | Hs]; [by cbn|]).
  by apply elem_of_nil in Hs.
Qed.

(** C8: when [generateVocabAndGrammar] or [generateTestPaper] fails while
    the application is on the dashboard, every state the application goes
    through has mode Dashboard and the practice data and the test paper it
    had before, so that neither the practice view nor the test view is
    shown; the failure is reported by an alert and the loading indicator
    is cleared at the end. Both variants of [App] are covered: they differ
    in the alert text only. *)
Theorem critical_failure_keeps_dashboard
    alertText st units isZhongkao speechReply c effects s :
  App.mode st = AppMode.Dashboard →
  App.config st = Some c →
  effects = App.handleVocabStartWith alertText st units Rejected ∨
  effects = App.handleTestStartWith alertText st units isZhongkao Rejected
              speechReply →
  s ∈ App.trace st effects →
  (App.mode s = AppMode.Dashboard ∧
   App.practiceData s = App.practiceData st ∧
   App.testPaper s = App.testPaper st ∧
   App.config s = App.config st) ∧
  (∀ d, App.render s ≠ App.VVocabPractice d) ∧
  (∀ p c', App.render s ≠ App.VTestPaper p c') ∧
  App.Alert alertText ∈ effects ∧
  App.isLoading (App.run st effects) = false ∧
  App.render (App.run st effects) = App.VDashboard c.
Proof.
  intros Hmode Hconfig Heffects Hs.
  assert (∃ message, effects = failureEffects message alertText) as [message ->].
  { destruct Heffects as [-> | ->].
    - by eapply handleVocabStart_rejected.
    - by eapply handleTestStart_rejected. }
  destruct (failureEffects_trace _ _ _ _ Hs) as (Hm & Hp & Ht & Hc).
  rewrite Hmode in Hm.
  split; [done|]. split; [|split; [|split; [|split]]].
  - intros d. unfold App.render. rewrite Hm, Hc, Hconfig.
    by destruct (App.isLoading s).
  - intros p c'. unfold App.render. rewrite Hm, Hc, Hconfig.
    by destruct (App.isLoading s).
  - unfold failureEffects. do 2 apply list_elem_of_further. apply list_elem_of_here.
  - reflexivity.
  - unfold App.render, App.run. cbn. by rewrite Hmode, Hconfig.
Qed.

(** Witness of C8: a failed test-paper generation on the fresh dashboard. *)
Lemma critical_failure_keeps_dashboard_witness :
  let effects :=
    App.handleTestStart Sample.dashboard [1; 2] true Rejected Rejected in
  App.render (App.run Sample.dashboard effects) = App.VDashboard Sample.config ∧
  App.testPaper (App.run Sample.dashboard effects) = None.
Proof.
  destruct (critical_failure_keeps_dashboard "Failed to generate test paper."
              Sample.dashboard [1; 2] true Rejected Sample.config
              (App.handleTestStart Sample.dashboard [1; 2] true Rejected Rejected)
              (App.run Sample.dashboard
                 (App.handleTestStart Sample.dashboard [1; 2] true Rejected Rejected)))
    as ((_ & _ & Hpaper & _) & _ & _ & _ & _ & Hrender).
  - reflexivity.
  - reflexivity.
  - right. reflexivity.
  - cbn. do 4 apply list_elem_of_further. apply list_elem_of_here.
  - split; [exact Hrender | exact Hpaper].
Defined.

(** ** Rendering of a grammar passage *)

Section GrammarFacts.

Import Grammar.

Lemma app_assoc_s a b c : (a +:+ b) +:+ c = a +:+ (b +:+ c).
Proof. induction a as [|x a IH]; [done|]. by rewrite !append_cons, IH. Qed.

Lemma length_app_s a b : String.length (a +:+ b) = (String.length a + String.length b)%nat.
Proof. induction a as [|x a IH]; [done|]. rewrite append_cons. cbn. by rewrite IH. Qed.

Lemma digitsClose_spec s ds n :
  digitsClose s = Some (ds, n) →
  allDigits ds = true ∧ n = (String.length ds + 2)%nat ∧
  ∃ rest, s = ds +:+ String closeBrace (String closeBrace rest).
Proof.
  revert ds n. induction s as [|c s IH]; intros ds n H; cbn [digitsClose] in H; [done|].
  destruct (isDigit c) eqn:Hd.
  - destruct (digitsClose s) as [[ds' n']|]; [|done]. injection H as <- <-.
    destruct (IH ds' n' eq_refl) as (Ha & -> & rest & ->).
    cbn [allDigits]. rewrite Hd, Ha. repeat split. by exists rest.
  - destruct (Ascii.eqb_spec c closeBrace) as [->|]; [|done].
    destruct s as [|c' s]; [done|].
    destruct (Ascii.eqb_spec c' closeBrace) as [->|]; [|done].
    injection H as <- <-. repeat split. by exists s.
Qed.

Lemma digitsClose_app s t r :
  digitsClose s = Some r → digitsClose (s +:+ t) = Some r.
Proof.
  revert r. induction s as [|c s IH]; intros r H; [done|].
  rewrite append_cons. cbn [digitsClose] in *.
  destruct (isDigit c).
  - destruct (digitsClose s) as [r'|]; [|done]. by rewrite (IH r' eq_refl).
  - destruct (Ascii.eqb c closeBrace); [|done].
    destruct s as [|c' s]; [done|]. by rewrite append_cons.
Qed.

Lemma matchAt_app s t r : matchAt s = Some r → matchAt (s +:+ t) = Some r.
Proof.
  destruct s as [|c1 [|c2 [|d s]]]; try done.
  rewrite !append_cons. cbn [matchAt].
  destruct (Ascii.eqb c1 openBrace && Ascii.eqb c2 openBrace && isDigit d); [|done].
  destruct (digitsClose (String d s)) as [[ds n]|] eqn:E; [|done].
  rewrite <- append_cons. by rewrite (digitsClose_app _ t _ E).
Qed.

Lemma matchAt_spec s ds n :
  matchAt s = Some (ds, n) →
  ds ≠ "" ∧ allDigits ds = true ∧ n = String.length (placeholder ds) ∧
  ∃ rest, s = placeholder ds +:+ rest.
Proof.
  destruct s as [|c1 [|c2 [|d s]]]; try done. cbn [matchAt].
  destruct (Ascii.eqb_spec c1 openBrace) as [->|]; [|done].
  destruct (Ascii.eqb_spec c2 openBrace) as [->|]; [|done].
  destruct (isDigit d) eqn:Hd; [|done]. cbn [andb].
  destruct (digitsClose (String d s)) as [[ds' n']|] eqn:E; [|done].
  intros [= <- <-]. destruct (digitsClose_spec _ _ _ E) as (Ha & -> & rest & Hs).
  repeat split; try done.
  - intros ->. rewrite append_nil in Hs. injection Hs as -> _. done.
  - unfold placeholder. cbn [String.length]. rewrite length_app_s. cbn. lia.
  - exists rest. unfold placeholder. rewrite !append_cons, Hs.
    do 2 f_equal. by rewrite app_assoc_s.
Qed.


Lemma matchAt_placeholder ds rest :
  ds ≠ "" → allDigits ds = true →
  matchAt (placeholder ds +:+ rest) = Some (ds, String.length (placeholder ds)).
Proof.
  intros Hne Ha.
  assert (∀ d, allDigits d = true →
    digitsClose (d +:+ String closeBrace (String closeBrace rest))
    = Some (d, (String.length d + 2)%nat)) as Hclose.
  { induction d as [|c d IH]; [done|]. cbn [allDigits].
    intros [Hc Hd]%andb_true_iff. rewrite append_cons. cbn [digitsClose].
    by rewrite Hc, (IH Hd). }
  destruct ds as [|d ds]; [done|]. unfold placeholder.
  rewrite !append_cons, app_assoc_s, !append_cons, append_nil.
  cbn [matchAt]. cbn [allDigits] in Ha. apply andb_true_iff in Ha as [Hd Ha'].
  rewrite !Ascii.eqb_refl, Hd. cbn [andb].
  rewrite <- append_cons, Hclose by (cbn [allDigits]; by rewrite Hd, Ha').
  cbn [String.length]. rewrite length_app_s. cbn [String.length].
  do 2 f_equal.
Qed.

Lemma search_placeholder ds : ds ≠ "" → allDigits ds = true → search (placeholder ds) = Some ds.
Proof.
  intros Hne Ha. pose proof (matchAt_placeholder ds "" Hne Ha) as H.
  assert (∀ s, s +:+ "" = s) as Hnil by (induction s as [|c s IH]; [done|]; by rewrite append_cons, IH).
  rewrite Hnil in H. destruct (placeholder ds) eqn:E; [done|]. cbn [search]. by rewrite H.
Qed.

Lemma dropString_app a b : dropString (String.length a) (a +:+ b) = b.
Proof. induction a as [|c a IH]; [done|]. by rewrite append_cons. Qed.

Lemma search_cons c s :
  matchAt (String c s) = None → search s = None → search (String c s) = None.
Proof. intros Hm Hs. cbn [search]. by rewrite Hm. Qed.

Lemma Alternating_head t rest : Alternating (t :: rest) → search t = None.
Proof. by inversion 1. Qed.

Lemma splitFrom_spec s : ∀ skip t rest,
  splitFrom skip s = (t, rest) →
  joined (t :: rest) = dropString skip s ∧ Alternating (t :: rest).
Proof.
  induction s as [|c s IH]; intros skip t rest H; cbn [splitFrom] in H.
  - injection H as <- <-. split; [by destruct skip|]. by constructor.
  - destruct skip as [|k].
    + destruct (matchAt (String c s)) as [[ds [|n]]|] eqn:Hm.
      * apply matchAt_spec in Hm as (_ & _ & Hlen & _). by unfold placeholder in Hlen.
      * destruct (splitFrom n s) as [t' rest'] eqn:E. injection H as <- <-.
        destruct (IH _ _ _ E) as [Hj Ha].
        destruct (matchAt_spec _ _ _ Hm) as (Hne & Hd & Hlen & rest0 & Hs).
        split.
        -- cbn [joined fold_right] in *. rewrite append_nil, Hj.
           cbn [dropString].
           replace (dropString n s) with (dropString (S n) (String c s)) by done.
           by rewrite Hlen, Hs, dropString_app.
        -- by constructor.
      * destruct (splitFrom 0 s) as [t' rest'] eqn:E. injection H as <- <-.
        destruct (IH _ _ _ E) as [Hj Ha]. cbn [dropString] in *.
        split.
        -- cbn [joined fold_right] in *. by rewrite append_cons, Hj.
        -- assert (search (String c t') = None) as Hnone.
           { apply search_cons; [|by eapply Alternating_head].
             destruct (matchAt (String c t')) as [r|] eqn:Hm'; [|done].
             apply (matchAt_app _ (joined rest')) in Hm'.
             rewrite append_cons in Hm'. unfold joined in Hm', Hj.
             cbn [fold_right] in Hj. by rewrite Hj, Hm in Hm'. }
           inversion Ha; subst; by constructor.
    + destruct (IH _ _ _ H) as [Hj Ha]. by split.
Qed.

Lemma split_spec story : joined (split story) = story ∧ Alternating (split story).
Proof.
  unfold split. destruct (splitFrom 0 story) as [t rest] eqn:E.
  by apply splitFrom_spec in E.
Qed.

(** Every segment is a text without placeholder or exactly one
    placeholder. *)
Lemma Alternating_lookup segs (i : nat) seg :
  Alternating segs → segs !! i = Some seg →
  search seg = None ∨
  ∃ ds, seg = placeholder ds ∧ ds ≠ "" ∧ allDigits ds = true ∧
        search seg = Some ds.
Proof.
  intros Ha. revert i. induction Ha as [t Ht|t ds rest Ht Hne Hd Ha IH];
    intros [|[|i]] Hi; simplify_eq/=; auto.
  - right. exists ds. repeat split; try done. by apply search_placeholder.
  - by apply (IH i).
Qed.

Lemma findBlank_id data id blank :
  findBlank data id = Some blank → GrammarBlank.id blank = id.
Proof.
  unfold findBlank. intros H. apply find_some in H as [_ H]. lia.
Qed.

End GrammarFacts.

(** C9, as amended: rendering a passage never fails, whatever placeholders
    and blanks it has. The story is cut into segments that are in turn a
    text and a placeholder, nothing being lost; a text is rendered as it
    is; a placeholder whose number is the id of a blank is rendered as an
    input bound to the first such blank; a placeholder without blank is
    rendered in the first variant as the error marker and in the second
    variant as nothing at all, and the segments around it are rendered as
    usual. *)
Theorem orphan_placeholder_tolerated data st st2 (i : nat) seg :
  Grammar.split (GrammarPracticeData.story data) !! i = Some seg →
  joined (Grammar.split (GrammarPracticeData.story data))
  = GrammarPracticeData.story data ∧
  ((Grammar.search seg = None ∧
    Grammar.render data st !! i = Some (Some (Grammar.Span seg)) ∧
    Grammar.render2 data st2 !! i = Some (Some (Grammar.Span seg))) ∨
   (∃ ds,
      seg = Grammar.placeholder ds ∧ ds ≠ "" ∧ allDigits ds = true ∧
      Grammar.search seg = Some ds ∧
      match Grammar.findBlank data (Grammar.parseInt ds) with
      | None =>
          Grammar.render data st !! i = Some (Some Grammar.ErrorMarker) ∧
          Grammar.render2 data st2 !! i = Some None
      | Some blank =>
          GrammarBlank.id blank = Grammar.parseInt ds ∧
          ∃ value disabled mark value2 mark2,
            Grammar.render data st !! i
            = Some (Some (Grammar.BlankInput (Grammar.parseInt ds) blank
                            value disabled mark)) ∧
            Grammar.render2 data st2 !! i
            = Some (Some (Grammar.BlankInput (Grammar.parseInt ds) blank
                            value2 false mark2))
      end)).
Proof.
  intros Hi. destruct (split_spec (GrammarPracticeData.story data)) as [Hj Ha].
  split; [done|].
  assert (Grammar.render data st !! i = Some (Grammar.renderSegment data st seg))
    as Hr1.
  { unfold Grammar.render.
    change (List.map ?f ?l) with (f <$> l). by rewrite list_lookup_fmap, Hi. }
  assert (Grammar.render2 data st2 !! i = Some (Grammar.renderSegment2 data st2 seg))
    as Hr2.
  { unfold Grammar.render2.
    change (List.map ?f ?l) with (f <$> l). by rewrite list_lookup_fmap, Hi. }
  rewrite Hr1, Hr2. unfold Grammar.renderSegment, Grammar.renderSegment2.
  destruct (Alternating_lookup _ _ _ Ha Hi) as [Hs|(ds & -> & Hne & Hd & Hs)];
    rewrite Hs.
  - by left.
  - right. exists ds. repeat split; try done.
    destruct (Grammar.findBlank data (Grammar.parseInt ds)) as [blank|] eqn:E;
      [|done].
    split; [by eapply findBlank_id|]. by repeat eexists.
Qed.

(** Witness of C9: the second placeholder of the sample passage has no
    blank. *)
Lemma orphan_placeholder_tolerated_witness :
  Grammar.render Sample.passage
    {| Grammar.answers := ∅; Grammar.isChecked := false |} !! 3%nat
  = Some (Some Grammar.ErrorMarker).
Proof.
  destruct (orphan_placeholder_tolerated Sample.passage
              {| Grammar.answers := ∅; Grammar.isChecked := false |}
              {| Grammar.inputs := ∅; Grammar.results := ∅;
                 Grammar.showResults := false |}
              3 "{{2}}" eq_refl) as (_ & [(Hs & _)|(ds & _ & _ & _ & Hs & H)]).
  - discriminate Hs.
  - injection Hs as <-. exact (proj1 H).
Defined.

(** Counterexample to C9 as stated: the second variant renders the
    placeholder without blank as nothing; no error marker appears. *)
Lemma orphan_placeholder_counterexample :
  Grammar.findBlank Sample.passage 2 = None ∧
  ∃ blank,
    Grammar.render2 Sample.passage
      {| Grammar.inputs := ∅; Grammar.results := ∅;
         Grammar.showResults := false |}
    = [Some (Grammar.Span "We ");
       Some (Grammar.BlankInput 1 blank "" false Grammar.Unchecked);
       Some (Grammar.Span " to the zoo and ");
       None;
       Some (Grammar.Span " a lion.")].
Proof.
  split; [reflexivity|]. eexists. reflexivity.
Qed.

(** ** Audio decoding *)

(** *** Normalisation of a sample is exact *)

Section FloatFacts.

Lemma div_eucl_mul (a b : Z) : 0 < b -> Z.div_eucl (b * a) b = (a, 0).
Proof.
  intros Hb. generalize (Z.div_eucl_eq (b * a) b) (Z.mod_pos_bound (b * a) b Hb).
  unfold Z.modulo. destruct (Z.div_eucl (b * a) b) as [q r]. intros He Hr.
  specialize (He ltac:(lia)). 
  assert (q = a) by nia. subst. f_equal. lia.
Qed.

Lemma round_canonical prec emax s m e :
  fexp prec emax (Z.pos (digits2_pos m) + e) = e ->
  e <= emax - prec ->
  binary_round_aux prec emax s (Z.pos m) e loc_Exact = S754_finite s m e.
Proof.
  intros Hc He. unfold binary_round_aux, shr_fexp.
  cbn [Zdigits2]. rewrite Hc, Z.sub_diag.
  cbn [shr shr_record_of_loc shr_m loc_of_shr_record round_nearest_even Zdigits2].
  rewrite Hc, Z.sub_diag. cbn [shr shr_m].
  apply Z.leb_le in He. rewrite He. reflexivity.
Qed.

Lemma div_pow15 s M e :
  digits2_pos M = 53%positive -> -1000 <= e <= 900 ->
  SFdiv 53 1024 (S754_finite s M e) (S754_finite false 4503599627370496 (-37))
  = S754_finite s M (e - 15).
Proof.
  intros Hd He. unfold SFdiv, SFdiv_core_binary.
  cbn [Zdigits2]. rewrite Hd.
  change (digits2_pos 4503599627370496) with 53%positive.
  replace (Z.min (fexp 53 1024 (53 + e - (53 + -37))) (e - -37)) with (e - 16)
    by (unfold fexp, emin; lia).
  replace (e - -37 - (e - 16)) with 53 by lia.
  rewrite Z.shiftl_mul_pow2 by lia.
  replace (Z.pos M * 2 ^ 53) with (4503599627370496 * (2 * Z.pos M)) by lia.
  rewrite div_eucl_mul by lia.
  change (new_location 4503599627370496 0) with loc_Exact.
  rewrite xorb_false_r.
  change (2 * Z.pos M) with (Z.pos M~0).
  unfold binary_round_aux, shr_fexp.
  cbn [Zdigits2 digits2_pos shr_record_of_loc]. rewrite Hd.
  replace (fexp 53 1024 (Z.pos (Pos.succ 53) + (e - 16)) - (e - 16)) with 1
    by (unfold fexp, emin; lia).
  cbn [shr SpecFloat.iter_pos shr_1 fst snd shr_m loc_of_shr_record round_nearest_even orb Zdigits2].
  rewrite Hd.
  replace (fexp 53 1024 (53 + (e - 16 + 1)) - (e - 16 + 1)) with 0
    by (unfold fexp, emin; lia).
  cbn [shr shr_m].
  replace (e - 16 + 1 <=? 1024 - 53) with true by (symmetry; apply Z.leb_le; lia).
  f_equal. lia.
Qed.

Lemma digits_iter m n :
  digits2_pos (Pos.iter xO m n) = (digits2_pos m + n)%positive.
Proof.
  induction n as [|n IH] using Pos.peano_ind.
  - cbn. lia.
  - rewrite Pos.iter_succ. cbn [digits2_pos]. rewrite IH. lia.
Qed.

Lemma Zpos_iter m n : Z.pos (Pos.iter xO m n) = Z.pos m * 2 ^ Z.pos n.
Proof.
  induction n as [|n IH] using Pos.peano_ind.
  - cbn [Pos.iter]. lia.
  - rewrite Pos.iter_succ, Pos2Z.inj_succ, Z.pow_succ_r by lia.
    rewrite Pos2Z.inj_xO, IH. lia.
Qed.

Lemma iter_pos_iter {A} (f : A -> A) n : forall x, SpecFloat.iter_pos f n x = Pos.iter f x n.
Proof.
  induction n as [n IH|n IH|]; intros x; cbn [SpecFloat.iter_pos Pos.iter].
  - rewrite !IH, !Pos.iter_swap. reflexivity.
  - rewrite !IH. reflexivity.
  - reflexivity.
Qed.

Lemma shr_trailing n : forall j q,
  Pos.iter shr_1 {| shr_m := Z.pos (Pos.iter xO q (n + j)); shr_r := false; shr_s := false |} n
  = {| shr_m := Z.pos (Pos.iter xO q j); shr_r := false; shr_s := false |}.
Proof.
  induction n as [|n IH] using Pos.peano_ind; intros j q.
  - rewrite Pos.add_1_l, Pos.iter_succ. reflexivity.
  - rewrite Pos.iter_succ.
    replace (Pos.succ n + j)%positive with (n + Pos.succ j)%positive by lia.
    rewrite IH, Pos.iter_succ. reflexivity.
Qed.

Lemma number_finite s p k :
  (digits2_pos p + k = 53)%positive ->
  binary_round 53 1024 s p 0 = S754_finite s (Pos.iter xO p k) (Z.neg k).
Proof.
  intros Hd. unfold binary_round.
  replace (fexp 53 1024 (Z.pos (digits2_pos p) + 0)) with (Z.neg k)
    by (unfold fexp, emin; lia).
  cbn [shl_align Z.sub Z.opp Z.add].
  apply round_canonical.
  - rewrite digits_iter, Hd. unfold fexp, emin. lia.
  - lia.
Qed.

Lemma float32_exact s p j e :
  (digits2_pos p + (29 + j) = 53)%positive -> -178 <= e <= 75 ->
  binary_round 24 128 s (Pos.iter xO p (29 + j)) e
  = S754_finite s (Pos.iter xO p j) (e + 29).
Proof.
  intros Hd He. unfold binary_round.
  rewrite digits_iter, Hd.
  replace (fexp 24 128 (53 + e)) with (e + 29) by (unfold fexp, emin; lia).
  unfold shl_align. replace (e + 29 - e) with 29 by lia.
  unfold binary_round_aux, shr_fexp.
  cbn [Zdigits2 shr_record_of_loc]. rewrite digits_iter, Hd.
  replace (fexp 24 128 (53 + e) - e) with 29 by (unfold fexp, emin; lia).
  cbn [shr]. rewrite iter_pos_iter, shr_trailing.
  cbn [shr_m loc_of_shr_record round_nearest_even Zdigits2].
  rewrite digits_iter.
  replace (fexp 24 128 (Z.pos (digits2_pos p + j) + (e + 29)) - (e + 29)) with 0
    by (unfold fexp, emin; lia).
  cbn [shr shr_m shr_record_of_loc].
  replace (e + 29 <=? 128 - 24) with true by (symmetry; apply Z.leb_le; lia).
  reflexivity.
Qed.

Lemma normalise_signed s p k j :
  (digits2_pos p + k = 53)%positive -> (k = 29 + j)%positive ->
  Audio.toFloat32
    (SFdiv 53 1024 (binary_round 53 1024 s p 0) (Audio.number 32768))
  = S754_finite s (Pos.iter xO p j) (Z.neg k + 14).
Proof.
  intros Hd Hk. rewrite (number_finite s p k Hd).
  change (Audio.number 32768) with (S754_finite false 4503599627370496 (-37)).
  rewrite div_pow15 by (rewrite ?digits_iter; lia).
  cbn [Audio.toFloat32]. subst k.
  rewrite float32_exact by lia. f_equal. lia.
Qed.

Lemma digits_bound p : Z.pos p <= 32768 -> (digits2_pos p <= 16)%positive.
Proof.
  intros Hp.
  assert (Hs : forall q, digits2_pos q = Pos.size q)
    by (intros q; induction q as [q IH|q IH|]; cbn [digits2_pos Pos.size];
        rewrite ?IH; reflexivity).
  rewrite Hs. pose proof (Pos.size_le p) as Hle.
  assert (H2 : 2 ^ Z.pos (Pos.size p) <= 2 ^ 16).
  { rewrite <- Pos2Z.inj_pow. change (2 ^ 16) with 65536. lia. }
  apply Z.pow_le_mono_r_iff in H2; lia.
Qed.

Lemma normalise_value_signed s p k j :
  (k = 29 + j)%positive ->
  (Audio.value (S754_finite s (Pos.iter xO p j) (Z.neg k + 14))
   == (if s then Z.neg p else Z.pos p) # 32768)%Q.
Proof.
  intros ->. replace (Z.neg (29 + j) + 14) with (Z.neg (j + 15)) by lia.
  cbn [Audio.value]. unfold Qeq. cbn [Qnum Qden].
  rewrite Pos2Z.inj_pow, Pos2Z.inj_add, Z.pow_add_r by lia.
  pose proof (Zpos_iter p j) as Hv.
  destruct s.
  - change (Z.neg (Pos.iter xO p j)) with (- Z.pos (Pos.iter xO p j)).
    change (Z.neg p) with (- Z.pos p). rewrite Hv. 
    change (2 ^ 15) with 32768. change (Z.pos 32768) with 32768. change (Z.pos 2) with 2. ring.
  - rewrite Hv. change (2 ^ 15) with 32768. change (Z.pos 32768) with 32768. change (Z.pos 2) with 2. ring.
Qed.

Lemma normalise_finite (s : bool) p :
  Z.pos p <= 32768 ->
  exists k j, (k = 29 + j)%positive /\
    Audio.normalise (if s then Z.neg p else Z.pos p)
    = S754_finite s (Pos.iter xO p j) (Z.neg k + 14).
Proof.
  intros Hp. pose proof (digits_bound p Hp) as Hd.
  exists (53 - digits2_pos p)%positive, (24 - digits2_pos p)%positive.
  split; [lia|].
  rewrite <- (normalise_signed s p (53 - digits2_pos p) (24 - digits2_pos p))
    by lia.
  destruct s; reflexivity.
Qed.

Lemma normalise_exact x :
  -32768 <= x < 32768 ->
  Audio.isFinite (Audio.normalise x) = true /\
  (Audio.value (Audio.normalise x) == x # 32768)%Q.
Proof.
  intros Hx. destruct x as [|p|p].
  - split; reflexivity.
  - destruct (normalise_finite false p ltac:(lia)) as (k & j & Hk & E).
    cbn [negb] in E. rewrite E. split; [reflexivity|].
    apply (normalise_value_signed false). exact Hk.
  - destruct (normalise_finite true p ltac:(lia)) as (k & j & Hk & E).
    rewrite E. split; [reflexivity|].
    apply (normalise_value_signed true). exact Hk.
Qed.

End FloatFacts.

(** *** Base64 and the 16-bit view *)

Section Base64Facts.

Import Audio.

Lemma list_ind3 {A} (P : list A → Prop) :
  P [] → (∀ a, P [a]) → (∀ a b, P [a; b]) →
  (∀ a b c l, P l → P (a :: b :: c :: l)) → ∀ l, P l.
Proof.
  intros H0 H1 H2 H3.
  fix IH 1. intros [|a [|b [|c l]]];
    [exact H0 | apply H1 | apply H2 | apply H3, IH].
Qed.

Lemma list_ind2 {A} (P : list A → Prop) :
  P [] → (∀ a, P [a]) → (∀ a b l, P l → P (a :: b :: l)) → ∀ l, P l.
Proof.
  intros H0 H1 H2. fix IH 1.
  intros [|a [|b l]]; [exact H0 | apply H1 | apply H2, IH].
Qed.

Lemma charCode_range c : isByte (JsString.charCode c).
Proof.
  unfold isByte, JsString.charCode. pose proof (N_ascii_bounded c). lia.
Qed.

Lemma charCode_fromCharCode b : isByte b → JsString.charCode (JsString.fromCharCode b) = b.
Proof.
  unfold isByte, JsString.charCode, JsString.fromCharCode. intros Hb.
  rewrite N_ascii_embedding by lia. lia.
Qed.

Lemma b64Index_b64Char v : isSextet v → b64Index (b64Char v) = Some v.
Proof.
  unfold isSextet, b64Index, b64Char. intros Hv.
  rewrite charCode_fromCharCode by (unfold isByte; repeat case_match; lia).
  repeat case_match; try lia; f_equal; lia.
Qed.

Lemma b64Index_padChar : b64Index padChar = None.
Proof. reflexivity. Qed.

Lemma b64Char_not_pad v : isSextet v → Ascii.eqb (b64Char v) padChar = false.
Proof.
  intros Hv. destruct (Ascii.eqb_spec (b64Char v) padChar) as [E|]; [|done].
  pose proof (b64Index_b64Char v Hv) as H. by rewrite E in H.
Qed.

Lemma b64Char_not_space v : isSextet v → isAsciiWhitespace (b64Char v) = false.
Proof.
  unfold isSextet, isAsciiWhitespace, b64Char. intros Hv.
  rewrite charCode_fromCharCode by (unfold isByte; repeat case_match; lia).
  repeat case_match; lia.
Qed.

Lemma indices_chars vs : Forall isSextet vs → indices (List.map b64Char vs) = Some vs.
Proof.
  induction 1 as [|v vs Hv _ IH]; [done|]. cbn [List.map indices].
  by rewrite b64Index_b64Char, IH.
Qed.

Ltac divmod := unfold isByte, isSextet in *; Z.div_mod_to_equations; lia.

Lemma group3 a b c :
  isByte a → isByte b → isByte c →
  let n := a * 65536 + b * 256 + c in
  let m := n / 262144 * 262144 + (n / 4096) mod 64 * 4096
           + (n / 64) mod 64 * 64 + n mod 64 in
  isSextet (n / 262144) ∧ isSextet ((n / 4096) mod 64) ∧
  isSextet ((n / 64) mod 64) ∧ isSextet (n mod 64) ∧
  m / 65536 = a ∧ (m / 256) mod 256 = b ∧ m mod 256 = c.
Proof.
  intros Ha Hb Hc n m.
  assert (m = n) as -> by (subst m n; divmod).
  subst n. repeat split; divmod.
Qed.

Lemma group2 a b :
  isByte a → isByte b →
  let n := (a * 256 + b) * 4 in
  let m := (n / 4096 * 4096 + (n / 64) mod 64 * 64 + n mod 64) / 4 in
  isSextet (n / 4096) ∧ isSextet ((n / 64) mod 64) ∧ isSextet (n mod 64) ∧
  m / 256 = a ∧ m mod 256 = b.
Proof.
  intros Ha Hb n m.
  assert (m = a * 256 + b) as -> by (subst m n; divmod).
  subst n. repeat split; divmod.
Qed.

Lemma group1 a :
  isByte a →
  let n := a * 16 in
  isSextet (n / 64) ∧ isSextet (n mod 64) ∧ (n / 64 * 64 + n mod 64) / 16 = a.
Proof. intros Ha n. subst n. repeat split; divmod. Qed.

Lemma encode_shape bytes :
  Forall isByte bytes →
  ∃ vs (k : nat),
    sextetsOfBytes bytes = List.map b64Char vs ++ replicate k padChar ∧
    (k ≤ 2)%nat ∧ Forall isSextet vs ∧ bytesOfSextets vs = bytes ∧
    ((length vs + k) mod 4 = 0)%nat ∧ (length vs mod 4 ≠ 1)%nat.
Proof.
  induction bytes as [|a|a b|a b c l IH] using list_ind3; intros Hb.
  - exists [], 0%nat. split; [done|]. split; [lia|]. by repeat split.
  - apply Forall_cons_1 in Hb as [Ha _].
    destruct (group1 a Ha) as (H0 & H1 & Hm).
    exists [a * 16 / 64; (a * 16) mod 64], 2%nat.
    split; [done|]. split; [lia|]. split; [repeat (apply Forall_cons_2; [assumption|]); apply Forall_nil_2|].
    split; [cbn; by rewrite Hm|]. by split.
  - apply Forall_cons_1 in Hb as [Ha Hb]. apply Forall_cons_1 in Hb as [Hb _].
    destruct (group2 a b Ha Hb) as (H0 & H1 & H2 & Hm1 & Hm2).
    exists [(a * 256 + b) * 4 / 4096; ((a * 256 + b) * 4 / 64) mod 64;
            ((a * 256 + b) * 4) mod 64], 1%nat.
    split; [done|]. split; [lia|]. split; [repeat (apply Forall_cons_2; [assumption|]); apply Forall_nil_2|].
    split; [cbn; by rewrite Hm1, Hm2|]. by split.
  - apply Forall_cons_1 in Hb as [Ha Hb]. apply Forall_cons_1 in Hb as [Hb Hc].
    apply Forall_cons_1 in Hc as [Hc Hl].
    destruct (IH Hl) as (vs & k & He & Hk & Hvs & Hdec & Hlen & Hlen').
    destruct (group3 a b c Ha Hb Hc) as (H0 & H1 & H2 & H3 & Hm1 & Hm2 & Hm3).
    set (n := a * 65536 + b * 256 + c) in *.
    exists (n / 262144 :: (n / 4096) mod 64 :: (n / 64) mod 64 :: n mod 64 :: vs), k.
    split; [|split; [done|split; [|split; [|split]]]].
    + cbn [sextetsOfBytes]. fold n. by rewrite He.
    + repeat (apply Forall_cons_2; [assumption|]). assumption.
    + cbn [bytesOfSextets]. by rewrite Hm1, Hm2, Hm3, Hdec.
    + cbn [length]. replace (S (S (S (S (length vs)))) + k)%nat
        with ((length vs + k) + 1 * 4)%nat by lia.
      by rewrite Nat.Div0.mod_add.
    + cbn [length]. replace (S (S (S (S (length vs)))))%nat
        with (length vs + 1 * 4)%nat by lia.
      by rewrite Nat.Div0.mod_add.
Qed.

Lemma stripPadding_encoded vs (k : nat) :
  Forall isSextet vs → (k ≤ 2)%nat →
  stripPadding (List.map b64Char vs ++ replicate k padChar) = List.map b64Char vs.
Proof.
  intros Hvs Hk. unfold stripPadding.
  destruct k as [|[|[|k]]]; [| | |lia]; cbn [replicate].
  - rewrite app_nil_r.
    destruct (rev (List.map b64Char vs)) as [|p1 r] eqn:E; [done|].
    assert (Ascii.eqb p1 padChar = false) as Hp.
    { assert (In p1 (List.map b64Char vs)) as Hin
        by (apply in_rev; rewrite E; by left).
      apply in_map_iff in Hin as (v & <- & Hv). apply b64Char_not_pad.
      rewrite Forall_forall in Hvs. by apply Hvs, list_elem_of_In. }
    rewrite Hp. by destruct r.
  - rewrite rev_app_distr. cbn [rev app].
    destruct (rev (List.map b64Char vs)) as [|p2 r] eqn:E.
    + rewrite Ascii.eqb_refl. apply (f_equal (@rev ascii)) in E.
      by rewrite rev_involutive in E.
    + rewrite Ascii.eqb_refl.
      assert (Ascii.eqb p2 padChar = false) as Hp.
      { assert (In p2 (List.map b64Char vs)) as Hin
          by (apply in_rev; rewrite E; by left).
        apply in_map_iff in Hin as (v & <- & Hv). apply b64Char_not_pad.
        rewrite Forall_forall in Hvs. by apply Hvs, list_elem_of_In. }
      rewrite Hp. apply (f_equal (@rev ascii)) in E.
      rewrite rev_involutive in E. by rewrite E.
  - rewrite rev_app_distr. cbn [rev app]. rewrite !Ascii.eqb_refl.
    apply rev_involutive.
Qed.

Lemma filter_all {A} (f : A → bool) l :
  Forall (λ x, f x = true) l → List.filter f l = l.
Proof.
  induction 1 as [|x l Hx _ IH]; [done|]. cbn [List.filter]. by rewrite Hx, IH.
Qed.

Lemma atob_base64Encode bytes :
  Forall isByte bytes →
  atob (base64Encode bytes)
  = Some (string_of_list_ascii (List.map JsString.fromCharCode bytes)).
Proof.
  intros Hb. unfold atob, base64Encode.
  rewrite list_ascii_of_string_of_list_ascii.
  destruct (encode_shape bytes Hb) as (vs & k & -> & Hk & Hvs & Hdec & Hlen & Hlen').
  rewrite filter_all.
  2:{ apply Forall_app. split.
      - rewrite Forall_forall in Hvs. apply Forall_forall. intros c Hc.
        apply list_elem_of_In, in_map_iff in Hc as (v & <- & Hv).
        rewrite b64Char_not_space; [done|]. by apply Hvs, list_elem_of_In.
      - apply Forall_forall. intros c Hc. apply elem_of_replicate in Hc as [-> _].
        reflexivity. }
  rewrite length_app, length_map, length_replicate.
  apply Nat.eqb_eq in Hlen as ->. rewrite stripPadding_encoded by done.
  rewrite length_map. apply Nat.eqb_neq in Hlen' as ->.
  by rewrite indices_chars, Hdec.
Qed.

Lemma bytesOfBinaryString_fromCharCode bytes :
  Forall isByte bytes →
  bytesOfBinaryString (string_of_list_ascii (List.map JsString.fromCharCode bytes))
  = bytes.
Proof.
  intros Hb. unfold bytesOfBinaryString.
  rewrite list_ascii_of_string_of_list_ascii.
  induction Hb as [|b bytes Hb _ IH]; [done|]. cbn [List.map].
  by rewrite charCode_fromCharCode, IH.
Qed.

Lemma bytesOfBinaryString_range s : Forall isByte (bytesOfBinaryString s).
Proof.
  unfold bytesOfBinaryString. induction (list_ascii_of_string s) as [|c l IH];
    cbn [List.map]; constructor; [apply charCode_range | done].
Qed.

Lemma int16le_range lo hi : isByte lo → isByte hi → isInt16 (int16le lo hi).
Proof.
  unfold isByte, isInt16, int16le. intros Hlo Hhi. case_match; lia.
Qed.

Lemma bytesOfInt16_spec x :
  isInt16 x →
  ∃ lo hi, bytesOfInt16 x = [lo; hi] ∧ isByte lo ∧ isByte hi ∧ int16le lo hi = x.
Proof.
  unfold isInt16, bytesOfInt16, isByte, int16le. intros Hx.
  eexists _, _. split; [reflexivity|].
  split; [divmod|]. split; [divmod|]. case_match; divmod.
Qed.

Lemma bytesOfSamples_spec xs :
  Forall isInt16 xs →
  Forall isByte (bytesOfSamples xs) ∧ int16Array (bytesOfSamples xs) = Some xs.
Proof.
  unfold bytesOfSamples. induction 1 as [|x xs Hx _ [IHb IHa]]; [done|].
  cbn [List.map List.concat].
  destruct (bytesOfInt16_spec x Hx) as (lo & hi & -> & Hlo & Hhi & Hv).
  cbn [app]. split; [by repeat apply Forall_cons_2|]. cbn [int16Array].
  by rewrite IHa, Hv.
Qed.

Lemma int16Array_even bytes :
  Nat.even (length bytes) = true →
  ∃ xs, int16Array bytes = Some xs ∧ length xs = (length bytes / 2)%nat ∧
        ∀ (i : nat) lo hi,
          bytes !! (2 * i)%nat = Some lo → bytes !! (2 * i + 1)%nat = Some hi →
          xs !! i = Some (int16le lo hi).
Proof.
  induction bytes as [|a|lo hi l IH] using list_ind2; intros Hev.
  - exists []. by repeat split.
  - done.
  - destruct (IH Hev) as (xs & Hxs & Hlen & Hi). exists (int16le lo hi :: xs).
    cbn [int16Array]. rewrite Hxs. split; [done|]. split.
    + cbn [length]. rewrite Hlen.
      change (S (S (length l))) with (1 * 2 + length l)%nat.
      by rewrite Nat.div_add_l.
    + intros [|i] lo' hi' H1 H2.
      * by simplify_eq/=.
      * replace (2 * S i)%nat with (S (S (2 * i))) in H1 by lia.
        replace (2 * S i + 1)%nat with (S (S (2 * i + 1))) in H2 by lia.
        cbn in H1, H2 |- *. by apply Hi.
Qed.

End Base64Facts.

Lemma unit_range x : isInt16 x → (-1 <= x # 32768)%Q ∧ (x # 32768 < 1)%Q.
Proof.
  unfold isInt16, Qle, Qlt. cbn [Qnum Qden]. lia.
Qed.

(** C6: for a payload that [atob] decodes to a byte sequence of even
    length, the decoder yields one sample per pair of consecutive bytes;
    the sample is the binary32 number obtained by dividing the signed
    16-bit little-endian integer of the pair by 32768.0, which is exactly
    that quotient and lies in [-1, 1). Playback uses a buffer with 1
    channel at 24000 Hz holding these samples. Hence encoding signed 16-bit
    samples as little-endian bytes and base64 and decoding them gives as
    many samples, each exactly the original one divided by 32768. *)
Theorem audio_decoding :
  (∀ payload binaryString,
     Audio.atob payload = Some binaryString →
     let bytes := Audio.bytesOfBinaryString binaryString in
     Nat.even (length bytes) = true →
     ∃ samples,
       Audio.decodeSamples payload = Some samples ∧
       length samples = (length bytes / 2)%nat ∧
       ∀ (i : nat) lo hi,
         bytes !! (2 * i)%nat = Some lo → bytes !! (2 * i + 1)%nat = Some hi →
         ∃ f,
           samples !! i = Some f ∧
           f = Audio.normalise (Audio.int16le lo hi) ∧
           Audio.isFinite f = true ∧
           (Audio.value f == Audio.int16le lo hi # 32768)%Q ∧
           (-1 <= Audio.value f)%Q ∧ (Audio.value f < 1)%Q) ∧
  (∀ platformOk paper view view' buffer alert,
     Audio.playAudio platformOk paper view = (view', Some buffer, alert) →
     Audio.numberOfChannels buffer = 1 ∧
     Audio.sampleRate buffer = 24000 ∧
     ∃ payload,
       TestPaperData.listeningAudioBase64 paper = Some payload ∧
       Audio.decodeSamples payload = Some (Audio.channelData buffer)) ∧
  (∀ paper payload view samples,
     TestPaperData.listeningAudioBase64 paper = Some payload →
     payload ≠ "" → TestPaperView.isPlaying view = false →
     Audio.decodeSamples payload = Some samples → samples ≠ [] →
     ∃ view',
       Audio.playAudio true paper view
       = (view',
          Some {| Audio.numberOfChannels := 1; Audio.sampleRate := 24000;
                  Audio.channelData := samples |},
          false)) ∧
  (∀ xs,
     Forall isInt16 xs →
     ∃ samples,
       Audio.decodeSamples (Audio.base64Encode (Audio.bytesOfSamples xs))
       = Some samples ∧
       length samples = length xs ∧
       ∀ (i : nat) x,
         xs !! i = Some x →
         ∃ f,
           samples !! i = Some f ∧ Audio.isFinite f = true ∧
           (Audio.value f == x # 32768)%Q).
Proof.
  split; [|split; [|split]].
  - intros payload binaryString Hatob bytes Hev.
    destruct (int16Array_even bytes Hev) as (xs & Hxs & Hlen & Hpair).
    exists (List.map Audio.normalise xs).
    split; [unfold Audio.decodeSamples; subst bytes; by rewrite Hatob, Hxs|].
    split; [by rewrite length_map|].
    intros i lo hi Hlo Hhi. exists (Audio.normalise (Audio.int16le lo hi)).
    assert (isInt16 (Audio.int16le lo hi)) as Hrange.
    { pose proof (bytesOfBinaryString_range binaryString) as Hb.
      rewrite Forall_forall in Hb.
      apply int16le_range; apply Hb; by eapply list_elem_of_lookup_2. }
    destruct (normalise_exact _ Hrange) as [Hfin Hval].
    destruct (unit_range _ Hrange) as [Hge Hlt].
    split.
    { change (List.map ?g ?l) with (g <$> l).
      by rewrite list_lookup_fmap, (Hpair i lo hi Hlo Hhi). }
    split; [done|]. split; [done|]. split; [done|].
    split; by rewrite Hval.
  - intros platformOk paper view view' buffer alert. unfold Audio.playAudio.
    destruct (TestPaperData.listeningAudioBase64 paper) as [payload|]; [|done].
    destruct (negb (JsString.truthy payload) || TestPaperView.isPlaying view);
      [done|].
    destruct platformOk; [|done].
    destruct (Audio.decodeSamples payload) as [samples|] eqn:Hdec; [|done].
    destruct samples as [|f samples]; [done|]. cbn [Audio.createBuffer].
    intros [= _ <- _]. cbn. repeat split. by exists payload.
  - intros paper payload view samples Hp Hne Hplay Hdec Hsamples.
    unfold Audio.playAudio. rewrite Hp, Hplay, Hdec.
    apply truthy_true in Hne. rewrite Hne. cbn [negb orb].
    destruct samples as [|f samples]; [done|]. by eexists.
  - intros xs Hxs. destruct (bytesOfSamples_spec xs Hxs) as [Hb Harr].
    exists (List.map Audio.normalise xs). split.
    { unfold Audio.decodeSamples.
      by rewrite atob_base64Encode, bytesOfBinaryString_fromCharCode, Harr. }
    split; [by rewrite length_map|].
    intros i x Hi. exists (Audio.normalise x).
    rewrite Forall_forall in Hxs.
    destruct (normalise_exact x) as [Hfin Hval];
      [by eapply Hxs, list_elem_of_lookup_2|].
    split; [|done].
    change (List.map ?g ?l) with (g <$> l). by rewrite list_lookup_fmap, Hi.
Qed.

(** Witness of C6: five samples, the extreme values included. *)
Lemma audio_decoding_witness :
  ∃ samples,
    Audio.decodeSamples
      (Audio.base64Encode (Audio.bytesOfSamples [-32768; 32767; -1; 0; 1]))
    = Some samples ∧
    length samples = 5%nat.
Proof.
  destruct audio_decoding as (_ & _ & _ & H).
  destruct (H [-32768; 32767; -1; 0; 1]) as (samples & Hdec & Hlen & _).
  - repeat (apply Forall_cons_2; [unfold isInt16; lia|]). apply Forall_nil_2.
  - exists samples. split; [exact Hdec | exact Hlen].
Defined.

(** * Further components *)

(** ** The dashboard *)

Section DashboardFacts.

Import Dashboard.

Lemma includes_spec u l : includes u l = true ↔ u ∈ l.
Proof.
  unfold includes. rewrite existsb_exists. split.
  - intros (x & Hin & Hx). apply Z.eqb_eq in Hx. subst. now apply list_elem_of_In.
  - intros Hin. exists u. split; [now apply list_elem_of_In | apply Z.eqb_refl].
Qed.

Lemma insertSorted_perm x l : insertSorted x l ≡ₚ x :: l.
Proof.
  induction l as [|y l IH]; simpl; [reflexivity|].
  destruct (x <=? y); [reflexivity|].
  rewrite IH. apply Permutation_swap.
Qed.

Lemma sortAscending_perm l : sortAscending l ≡ₚ l.
Proof.
  induction l as [|y l IH]; simpl; [reflexivity|].
  now rewrite insertSorted_perm, IH.
Qed.

Lemma insertSorted_sorted x l :
  StronglySorted Z.le l → StronglySorted Z.le (insertSorted x l).
Proof.
  induction 1 as [|y l Hs IH Hy]; simpl.
  - repeat constructor.
  - destruct (x <=? y) eqn:E.
    + apply Z.leb_le in E. constructor; [now constructor|].
      constructor; [exact E|].
      eapply Forall_impl; [exact Hy|]. intros; simpl in *; lia.
    + apply Z.leb_gt in E. constructor; [exact IH|].
      rewrite insertSorted_perm. constructor; [lia | exact Hy].
Qed.

Lemma sortAscending_sorted l : StronglySorted Z.le (sortAscending l).
Proof.
  induction l; simpl; [constructor | now apply insertSorted_sorted].
Qed.

Lemma sorted_strict l :
  StronglySorted Z.le l → NoDup l → StronglySorted Z.lt l.
Proof.
  induction 1 as [|y l Hs IH Hy]; intros Hnd; [constructor|].
  apply NoDup_cons in Hnd as [Hy' Hnd].
  constructor; [now apply IH|].
  rewrite Forall_forall in *. intros z Hz.
  specialize (Hy z Hz). assert (z ≠ y) by (intros ->; contradiction). lia.
Qed.

Lemma strict_NoDup l : StronglySorted Z.lt l → NoDup l.
Proof.
  induction 1 as [|y l Hs IH Hy]; constructor; [|exact IH].
  intros Hin. rewrite Forall_forall in Hy. specialize (Hy _ Hin). lia.
Qed.

Lemma strict_le l : StronglySorted Z.lt l → StronglySorted Z.le l.
Proof.
  induction 1 as [|y l Hs IH Hy]; constructor; [exact IH|].
  eapply Forall_impl; [exact Hy|]. intros; simpl in *; lia.
Qed.

Lemma filter_strict (f : Z → bool) l :
  StronglySorted Z.lt l → StronglySorted Z.lt (List.filter f l).
Proof.
  induction 1 as [|y l Hs IH Hy]; simpl; [constructor|].
  destruct (f y); [|exact IH].
  constructor; [exact IH|].
  rewrite Forall_forall in *. intros z Hz. apply Hy.
  apply list_elem_of_In in Hz. apply filter_In in Hz as [Hz _].
  now apply list_elem_of_In.
Qed.

(** Adding a unit that is not selected. *)
Lemma added_strict u l :
  StronglySorted Z.lt l → u ∉ l → StronglySorted Z.lt (sortAscending (l ++ [u])).
Proof.
  intros Hs Hu. apply sorted_strict; [apply sortAscending_sorted|].
  rewrite sortAscending_perm. apply NoDup_app. split; [now apply strict_NoDup|].
  split; [|apply NoDup_singleton].
  intros x Hx Hx'. apply list_elem_of_singleton in Hx'. now subst.
Qed.

Lemma filter_removes u l x :
  x ∈ List.filter (λ v, negb (v =? u)) l ↔ x ∈ l ∧ x ≠ u.
Proof.
  rewrite list_elem_of_In, filter_In, <- list_elem_of_In.
  rewrite negb_true_iff, Z.eqb_neq. tauto.
Qed.

Lemma toggleUnit2_ordered u l :
  u ∈ units → orderedSelection l → orderedSelection (toggleUnit2 u l).
Proof.
  intros Hu [Hs Hin]. unfold toggleUnit2.
  destruct (includes u l) eqn:E.
  - split; [now apply filter_strict|].
    rewrite Forall_forall in *. intros x Hx. apply filter_removes in Hx as [Hx _].
    now apply Hin.
  - split.
    + apply added_strict; [exact Hs|]. rewrite <- includes_spec. congruence.
    + rewrite Forall_forall in *. intros x Hx.
      rewrite sortAscending_perm in Hx. apply elem_of_app in Hx as [Hx|Hx].
      * now apply Hin.
      * apply list_elem_of_singleton in Hx. now subst.
Qed.

Lemma toggleUnit_cases u l :
  toggleUnit u l = toggleUnit2 u l ∨ toggleUnit u l = l.
Proof.
  unfold toggleUnit, toggleUnit2. destruct (includes u l); [|now left].
  destruct (1 <? length l)%nat; [now left | now right].
Qed.

Lemma toggleUnit_ordered u l :
  u ∈ units → orderedSelection l → orderedSelection (toggleUnit u l).
Proof.
  intros Hu Hl. destruct (toggleUnit_cases u l) as [-> | ->];
    [now apply toggleUnit2_ordered | exact Hl].
Qed.

Lemma toggleUnit_nonempty u l :
  StronglySorted Z.lt l → l ≠ [] → toggleUnit u l ≠ [].
Proof.
  intros Hs Hl. unfold toggleUnit. destruct (includes u l) eqn:E.
  - destruct (1 <? length l)%nat eqn:L; [|exact Hl].
    apply Nat.ltb_lt in L.
    destruct l as [|a [|b l]]; simpl in L; try lia.
    apply StronglySorted_inv in Hs as [_ Hab].
    apply Forall_cons in Hab as [Hab _].
    intros Hnil.
    assert (Ha : a ∉ List.filter (λ v, negb (v =? u)) (a :: b :: l))
      by (rewrite Hnil; apply not_elem_of_nil).
    assert (Hb : b ∉ List.filter (λ v, negb (v =? u)) (a :: b :: l))
      by (rewrite Hnil; apply not_elem_of_nil).
    rewrite filter_removes in Ha, Hb.
    destruct (decide (a = u)) as [->|Hau].
    + apply Hb. split; [right; left | lia].
    + apply Ha. split; [left | exact Hau].
  - intros Hnil.
    assert (Hu : u ∈ sortAscending (l ++ [u])).
    { rewrite sortAscending_perm. apply elem_of_app. right. left. }
    rewrite Hnil in Hu. now apply not_elem_of_nil in Hu.
Qed.

Lemma strict_ext l1 l2 :
  StronglySorted Z.lt l1 → StronglySorted Z.lt l2 →
  (∀ x, x ∈ l1 ↔ x ∈ l2) → l1 = l2.
Proof.
  intros H1 H2 Hx.
  assert (Hanti : AntiSymm eq Z.lt) by (intros x y ? ?; lia).
  apply (StronglySorted_unique Z.lt); [exact H1 | exact H2 |].
  apply NoDup_Permutation; [now apply strict_NoDup | now apply strict_NoDup | exact Hx].
Qed.

Lemma toggleUnit2_elem u l x :
  x ∈ toggleUnit2 u l ↔ (x = u ∧ u ∉ l) ∨ (x ≠ u ∧ x ∈ l).
Proof.
  unfold toggleUnit2. destruct (includes u l) eqn:E.
  - apply includes_spec in E. rewrite filter_removes. tauto.
  - assert (u ∉ l) by (rewrite <- includes_spec; congruence).
    rewrite sortAscending_perm, elem_of_app, list_elem_of_singleton.
    destruct (decide (x = u)) as [->|]; tauto.
Qed.

Lemma toggleUnit2_strict u l :
  StronglySorted Z.lt l → StronglySorted Z.lt (toggleUnit2 u l).
Proof.
  intros Hs. unfold toggleUnit2. destruct (includes u l) eqn:E.
  - now apply filter_strict.
  - apply added_strict; [exact Hs|]. rewrite <- includes_spec. congruence.
Qed.

Lemma toggleUnit2_twice u l :
  StronglySorted Z.lt l → toggleUnit2 u (toggleUnit2 u l) = l.
Proof.
  intros Hs. apply strict_ext; [now do 2 apply toggleUnit2_strict | exact Hs |].
  intros x. rewrite !toggleUnit2_elem.
  destruct (decide (x = u)) as [->|]; destruct (decide (u ∈ l)); tauto.
Qed.

Lemma toggleUnit_last u l :
  StronglySorted Z.lt l →
  toggleUnit u l = if bool_decide (l = [u]) then l else toggleUnit2 u l.
Proof.
  intros Hs. unfold toggleUnit, toggleUnit2.
  case_bool_decide as Hl.
  - subst. simpl. rewrite Z.eqb_refl. reflexivity.
  - destruct (includes u l) eqn:E; [|reflexivity].
    destruct (1 <? length l)%nat eqn:L; [reflexivity|].
    apply Nat.ltb_ge in L. apply includes_spec in E.
    destruct l as [|a [|b l]]; simpl in L; try lia.
    + now apply not_elem_of_nil in E.
    + apply list_elem_of_singleton in E. now subst.
Qed.

End DashboardFacts.

Section DashboardRuns.

Import Dashboard.

(** The selections of the first variant stay submittable. *)
Lemma handle_selection st e :
  onOffer e →
  (selectedVocabUnits st ≠ [] ∧ orderedSelection (selectedVocabUnits st)) ∧
  (selectedTestUnits st ≠ [] ∧ orderedSelection (selectedTestUnits st)) →
  let st' := fst (handle st e) in
  (selectedVocabUnits st' ≠ [] ∧ orderedSelection (selectedVocabUnits st')) ∧
  (selectedTestUnits st' ≠ [] ∧ orderedSelection (selectedTestUnits st')).
Proof.
  intros He [[Hv Hov] [Ht Hot]].
  destruct e; simpl in *; repeat split;
    try assumption; try apply Hov; try apply Hot;
    try (apply toggleUnit_nonempty; [apply Hov || apply Hot | assumption]);
    try (apply toggleUnit_ordered; assumption).
Qed.

Lemma play_cons {S E} (h : S → E → S * option Request) st e events :
  play h st (e :: events)
  = (fst (play h (fst (h st e)) events),
     match snd (h st e) with
     | Some x => x :: snd (play h (fst (h st e)) events)
     | None => snd (play h (fst (h st e)) events)
     end).
Proof.
  simpl. destruct (h st e) as [st1 r]. simpl.
  destruct (play h st1 events) as [st2 rs]. reflexivity.
Qed.

Lemma play_selection events : ∀ st,
  Forall onOffer events →
  (selectedVocabUnits st ≠ [] ∧ orderedSelection (selectedVocabUnits st)) ∧
  (selectedTestUnits st ≠ [] ∧ orderedSelection (selectedTestUnits st)) →
  ∀ r us, r ∈ snd (play handle st events) → unitsOf r = Some us →
          us ≠ [] ∧ orderedSelection us.
Proof.
  induction events as [|e events IH]; intros st Hev Hst r us Hr Hus.
  - now apply not_elem_of_nil in Hr.
  - apply Forall_cons in Hev as [He Hev].
    rewrite play_cons in Hr. simpl in Hr.
    assert (Hnext := handle_selection st e He Hst).
    assert (Hrest : r ∈ snd (play handle (fst (handle st e)) events) →
                    us ≠ [] ∧ orderedSelection us)
      by (intros Hr'; exact (IH _ Hev Hnext r us Hr' Hus)).
    destruct (snd (handle st e)) as [x|] eqn:Ex; [|now apply Hrest].
    apply elem_of_cons in Hr as [->|Hr]; [|now apply Hrest].
    destruct e; simpl in Ex; try discriminate;
      injection Ex as <-; simpl in Hus; try discriminate;
      injection Hus as <-; tauto.
Qed.

Lemma initial_selection : [1] ≠ [] ∧ orderedSelection [1].
Proof.
  split; [discriminate|]. split; [repeat constructor|].
  constructor; [left | constructor].
Qed.

End DashboardRuns.

(** X1: First variant of [Dashboard]: whatever unit buttons are
    clicked, every start request carries a selection that is not empty, in
    strictly ascending order and made of the units on offer; the last
    selected unit cannot be deselected. *)
Theorem dashboard_start_selection events r us :
  Forall onOffer events →
  r ∈ snd (Dashboard.play Dashboard.handle Dashboard.initial events) →
  unitsOf r = Some us →
  us ≠ [] ∧ orderedSelection us.
Proof.
  intros Hev Hr Hus.
  apply (play_selection events Dashboard.initial Hev) with (r := r);
    [split; apply initial_selection | exact Hr | exact Hus].
Qed.

(** Witness of X1: three toggles of the vocabulary selection that end on units 2 and 3, then a start. *)
Lemma dashboard_start_selection_witness :
  snd (Dashboard.play Dashboard.handle Dashboard.initial
         [Dashboard.ToggleVocabUnit 3; Dashboard.ToggleVocabUnit 1;
          Dashboard.ToggleVocabUnit 3; Dashboard.ToggleVocabUnit 2;
          Dashboard.StartPractice])
  = [Dashboard.OnStartVocab [2; 3]] ∧
  ([2; 3] ≠ [] ∧ orderedSelection [2; 3]).
Proof.
  split; [reflexivity|].
  apply (dashboard_start_selection
           [Dashboard.ToggleVocabUnit 3; Dashboard.ToggleVocabUnit 1;
            Dashboard.ToggleVocabUnit 3; Dashboard.ToggleVocabUnit 2;
            Dashboard.StartPractice]
           (Dashboard.OnStartVocab [2; 3])).
  - repeat constructor; simpl; apply (bool_decide_unpack _); vm_compute; exact I.
  - left.
  - reflexivity.
Defined.

Section DashboardRuns2.

Import Dashboard.

Lemma handle2_selection st e :
  onOffer2 e → orderedSelection (selectedUnits st) →
  orderedSelection (selectedUnits (fst (handle2 st e))).
Proof.
  intros He Hst. destruct e; simpl in *; try assumption.
  now apply toggleUnit2_ordered.
Qed.

Lemma handle2_request st e r us :
  orderedSelection (selectedUnits st) →
  snd (handle2 st e) = Some r → unitsOf r = Some us →
  us ≠ [] ∧ orderedSelection us.
Proof.
  intros Hst Hr Hus.
  destruct e; simpl in Hr; try discriminate.
  - destruct (0 <? length (selectedUnits st))%nat eqn:L; [|discriminate].
    injection Hr as <-. injection Hus as <-. split; [|exact Hst].
    apply Nat.ltb_lt in L. intros E. rewrite E in L. simpl in L. lia.
  - destruct (0 <? length (selectedUnits st))%nat eqn:L; [|discriminate].
    injection Hr as <-. injection Hus as <-. split; [|exact Hst].
    apply Nat.ltb_lt in L. intros E. rewrite E in L. simpl in L. lia.
  - injection Hr as <-. discriminate.
Qed.

Lemma play2_selection events : ∀ st,
  Forall onOffer2 events → orderedSelection (selectedUnits st) →
  orderedSelection (selectedUnits (fst (play handle2 st events))) ∧
  ∀ r us, r ∈ snd (play handle2 st events) → unitsOf r = Some us →
          us ≠ [] ∧ orderedSelection us.
Proof.
  induction events as [|e events IH]; intros st Hev Hst.
  - split; [exact Hst|]. intros r us Hr. now apply not_elem_of_nil in Hr.
  - apply Forall_cons in Hev as [He Hev].
    rewrite play_cons. simpl.
    destruct (IH _ Hev (handle2_selection st e He Hst)) as [Hfin Hreq].
    split; [exact Hfin|]. intros r us Hr Hus.
    destruct (snd (handle2 st e)) as [x|] eqn:Ex; [|now apply (Hreq r)].
    apply elem_of_cons in Hr as [->|Hr]; [|now apply (Hreq r)].
    exact (handle2_request st e x us Hst Ex Hus).
Qed.

End DashboardRuns2.

(** X2: Second variant of [Dashboard]: the toggle may empty the
    selection, and the guard of the start buttons then keeps them from
    calling their handler; every start request that is made carries a
    selection that is not empty, in strictly ascending order and made of the
    units on offer. *)
Theorem dashboard2_start_guard events :
  Forall onOffer2 events →
  let final := Dashboard.play Dashboard.handle2 Dashboard.initial2 events in
  orderedSelection (Dashboard.selectedUnits (fst final)) ∧
  (∀ r us, r ∈ snd final → unitsOf r = Some us →
           us ≠ [] ∧ orderedSelection us) ∧
  (Dashboard.selectedUnits (fst final) = [] →
   ∀ e r, snd (Dashboard.handle2 (fst final) e) = Some r →
          r = Dashboard.OnChangeConfig).
Proof.
  intros Hev final.
  destruct (play2_selection events Dashboard.initial2 Hev) as [Hfin Hreq].
  { apply initial_selection. }
  split; [exact Hfin|]. split; [exact Hreq|].
  intros Hnil e r Hr.
  destruct e; simpl in Hr; try discriminate.
  - fold final in Hr. rewrite Hnil in Hr. discriminate.
  - fold final in Hr. rewrite Hnil in Hr. discriminate.
  - now injection Hr as <-.
Qed.

(** Witness of X2: the selection emptied, a start that is ignored, then unit 4 and a test. *)
Lemma dashboard2_start_guard_witness :
  let events :=
    [Dashboard.ToggleUnit 1; Dashboard.StartPractice2; Dashboard.ToggleUnit 4;
     Dashboard.GenerateTestPaper2] in
  Dashboard.selectedUnits
    (fst (Dashboard.play Dashboard.handle2 Dashboard.initial2
            [Dashboard.ToggleUnit 1])) = [] ∧
  snd (Dashboard.play Dashboard.handle2 Dashboard.initial2 events)
  = [Dashboard.OnStartTest [4] false] ∧
  orderedSelection
    (Dashboard.selectedUnits
       (fst (Dashboard.play Dashboard.handle2 Dashboard.initial2 events))).
Proof.
  intros events. split; [reflexivity|]. split; [reflexivity|].
  apply (dashboard2_start_guard events).
  repeat constructor; simpl; apply (bool_decide_unpack _); vm_compute; exact I.
Defined.

(** X3: Toggling a unit flips its membership and leaves the other
    units alone, and toggling it again restores an ascending selection. The
    first variant differs from the second one only on the selection made
    of the toggled unit alone, which it keeps. *)
Theorem toggle_unit_round_trip u l :
  StronglySorted Z.lt l →
  (∀ x, x ∈ Dashboard.toggleUnit2 u l ↔ (x = u ∧ u ∉ l) ∨ (x ≠ u ∧ x ∈ l)) ∧
  Dashboard.toggleUnit2 u (Dashboard.toggleUnit2 u l) = l ∧
  Dashboard.toggleUnit u l
  = (if bool_decide (l = [u]) then l else Dashboard.toggleUnit2 u l) ∧
  (l ≠ [] → Dashboard.toggleUnit u (Dashboard.toggleUnit u l) = l).
Proof.
  intros Hs.
  split; [intros x; apply toggleUnit2_elem|].
  split; [now apply toggleUnit2_twice|].
  split; [now apply toggleUnit_last|].
  intros Hl. rewrite (toggleUnit_last u l Hs).
  case_bool_decide as E.
  - rewrite (toggleUnit_last u l Hs). now rewrite bool_decide_eq_true_2.
  - rewrite toggleUnit_last by now apply toggleUnit2_strict.
    case_bool_decide as E'; [|now apply toggleUnit2_twice].
    exfalso.
    assert (Hu : u ∉ l).
    { assert (Hin : u ∈ Dashboard.toggleUnit2 u l) by (rewrite E'; left).
      apply toggleUnit2_elem in Hin. tauto. }
    destruct l as [|a l]; [contradiction|].
    assert (Ha : a ∈ Dashboard.toggleUnit2 u (a :: l)).
    { apply toggleUnit2_elem. right. split; [|left].
      intros ->. apply Hu. left. }
    rewrite E' in Ha. apply list_elem_of_singleton in Ha. subst.
    apply Hu. left.
Qed.

(** Witness of X3: the selection of units 2 and 7, and the selection of unit 7 alone. *)
Lemma toggle_unit_round_trip_witness :
  Dashboard.toggleUnit2 5 (Dashboard.toggleUnit2 5 [2; 7]) = [2; 7] ∧
  Dashboard.toggleUnit 7 (Dashboard.toggleUnit 7 [2; 7]) = [2; 7] ∧
  Dashboard.toggleUnit 7 [7] = [7].
Proof.
  assert (Hs : StronglySorted Z.lt [2; 7]) by (repeat constructor; lia).
  split; [exact (proj1 (proj2 (toggle_unit_round_trip 5 [2; 7] Hs)))|].
  split.
  - apply (proj2 (proj2 (proj2 (toggle_unit_round_trip 7 [2; 7] Hs)))).
    discriminate.
  - reflexivity.
Defined.

(** ** The spelling exercise *)

Section VocabFacts.

Import VocabSection.

Lemma includes_elem id l : includes id l = true ↔ id ∈ l.
Proof.
  unfold includes. rewrite existsb_exists. split.
  - intros (x & Hin & Hx). apply String.eqb_eq in Hx. subst.
    now apply list_elem_of_In.
  - intros Hin. exists id. split; [now apply list_elem_of_In | apply String.eqb_refl].
Qed.

(** Under an ordinary identifier a lookup is that of the own
    properties and an assignment an insertion. *)
Lemma get_ordinary {A} (obj : gmap string A) k :
  JsObject.inherits k = false →
  JsObject.get obj k = option_map JsObject.Val (obj !! k).
Proof. unfold JsObject.get. intros ->. now destruct (obj !! k). Qed.

Lemma assign_ordinary {A} k (v : A) (obj : gmap string A) :
  JsObject.inherits k = false → JsObject.assign k v obj = <[k := v]> obj.
Proof.
  unfold JsObject.assign. destruct (String.eqb_spec k "__proto__") as [->|_];
    [discriminate | reflexivity].
Qed.

Lemma checkItem_ordinary inputs acc item :
  JsObject.inherits (VocabItem.id item) = false →
  checkItem inputs acc item
  = Some (if misspelled inputs item then acc ++ [VocabItem.id item] else acc).
Proof.
  intros Hid. unfold checkItem, misspelled, spelledRight, normalised.
  rewrite get_ordinary by exact Hid.
  destruct (inputs !! VocabItem.id item) as [[|c a]|]; reflexivity.
Qed.

Lemma push_mistakes inputs l : ∀ acc,
  ordinaryIds (List.map VocabItem.id l) →
  fold_left
    (fun acc item =>
       match acc with
       | Some newMistakes => checkItem inputs newMistakes item
       | None => None
       end) l (Some acc)
  = Some (acc ++ List.map VocabItem.id (List.filter (misspelled inputs) l)).
Proof.
  induction l as [|x l IH]; intros acc Hids; simpl; [now rewrite app_nil_r|].
  apply Forall_cons in Hids as [Hx Hids].
  rewrite checkItem_ordinary by exact Hx. rewrite IH by exact Hids.
  destruct (misspelled inputs x); simpl; [now rewrite <- app_assoc | reflexivity].
Qed.

Lemma handleSubmit_mistakes st :
  ordinaryIds (List.map VocabItem.id (activeItems st)) →
  handleSubmit st
  = Some {| isReview := true; userInputs := userInputs st;
            mistakes :=
              List.map VocabItem.id
                (List.filter (misspelled (userInputs st)) (activeItems st));
            activeItems := activeItems st |}.
Proof. intros Hids. unfold handleSubmit. now rewrite push_mistakes. Qed.

Lemma filter_split {A} (f : A → bool) l :
  (length (List.filter f l) + length (List.filter (λ x, negb (f x)) l)
   = length l)%nat.
Proof.
  induction l as [|x l IH]; simpl; [reflexivity|].
  destruct (f x); simpl; lia.
Qed.

Lemma filter_none {A} (f : A → bool) l :
  List.filter f l = [] ↔ ∀ x, x ∈ l → f x = false.
Proof.
  induction l as [|x l IH]; simpl.
  - split; [intros _ y Hy; now apply not_elem_of_nil in Hy | reflexivity].
  - destruct (f x) eqn:E.
    + split; [discriminate|]. intros H. specialize (H x ltac:(left)). congruence.
    + rewrite IH. split.
      * intros H y Hy. apply elem_of_cons in Hy as [->|Hy]; [exact E | now apply H].
      * intros H y Hy. apply H. now right.
Qed.

(** The items kept for a retry, when the identifiers are distinct. *)
Lemma retry_items (wrong : VocabItem.t → bool) items : ∀ active,
  NoDup (List.map VocabItem.id items) → sublist active items →
  List.filter
    (fun i => includes (VocabItem.id i)
                (List.map VocabItem.id (List.filter wrong active))) items
  = List.filter wrong active.
Proof.
  intros active Hnd Hsub. induction Hsub as [|x a items' Hsub IH|x a items' Hsub IH].
  - reflexivity.
  - simpl in Hnd. apply NoDup_cons in Hnd as [Hx Hnd].
    assert (Hout : ∀ M, M ⊆ List.map VocabItem.id items' →
                        includes (VocabItem.id x) M = false).
    { intros M HM. destruct (includes (VocabItem.id x) M) eqn:E; [|reflexivity].
      apply includes_elem in E. apply HM in E. contradiction. }
    assert (Hids : List.map VocabItem.id (List.filter wrong a)
                   ⊆ List.map VocabItem.id items').
    { intros k Hk. apply list_elem_of_In, in_map_iff in Hk as (y & <- & Hy).
      apply filter_In in Hy as [Hy _]. apply list_elem_of_In in Hy.
      apply list_elem_of_In, in_map, list_elem_of_In.
      eapply elem_of_sublist; eassumption. }
    cbn [List.filter]. destruct (wrong x) eqn:W; cbn [List.map].
    + assert (Hself : includes (VocabItem.id x)
                (VocabItem.id x :: List.map VocabItem.id (List.filter wrong a))
              = true) by (apply includes_elem; left).
      rewrite Hself. f_equal.
      transitivity
        (List.filter
           (fun i => includes (VocabItem.id i)
                       (List.map VocabItem.id (List.filter wrong a))) items');
        [|now apply IH].
      apply filter_ext_in. intros y Hy.
      unfold includes. cbn [existsb].
      destruct (String.eqb_spec (VocabItem.id y) (VocabItem.id x)) as [E|E];
        [|reflexivity].
      exfalso. apply Hx. rewrite <- E.
      apply list_elem_of_In, in_map, Hy.
    + rewrite (Hout _ Hids). now apply IH.
  - simpl in Hnd. apply NoDup_cons in Hnd as [Hx Hnd].
    assert (Hids : List.map VocabItem.id (List.filter wrong a)
                   ⊆ List.map VocabItem.id items').
    { intros k Hk. apply list_elem_of_In, in_map_iff in Hk as (y & <- & Hy).
      apply filter_In in Hy as [Hy _]. apply list_elem_of_In in Hy.
      apply list_elem_of_In, in_map, list_elem_of_In.
      eapply elem_of_sublist; eassumption. }
    cbn [List.filter List.map].
    destruct (includes (VocabItem.id x)
                (List.map VocabItem.id (List.filter wrong a))) eqn:E.
    + apply includes_elem in E. apply Hids in E. contradiction.
    + now apply IH.
Qed.

Lemma resetInputs_lookup l : ∀ (m : gmap string string) k,
  ordinaryIds (List.map VocabItem.id l) →
  fold_left
    (fun resetInputs i => JsObject.assign (VocabItem.id i) "" resetInputs) l m
  !! k
  = if bool_decide (k ∈ List.map VocabItem.id l) then Some "" else m !! k.
Proof.
  induction l as [|x l IH]; intros m k Hids.
  - cbn [fold_left List.map]. case_bool_decide as E; [|reflexivity].
    now apply not_elem_of_nil in E.
  - cbn [List.map] in Hids. apply Forall_cons in Hids as [Hx Hids].
    cbn [fold_left List.map]. rewrite IH by exact Hids.
    rewrite assign_ordinary by exact Hx.
    destruct (decide (k = VocabItem.id x)) as [->|Hk].
    + rewrite lookup_insert. rewrite decide_True by reflexivity.
      rewrite (bool_decide_eq_true_2
                 (VocabItem.id x ∈ VocabItem.id x :: List.map VocabItem.id l))
        by left.
      now case_bool_decide.
    + rewrite lookup_insert_ne by congruence.
      case_bool_decide as E.
      * rewrite bool_decide_eq_true_2; [reflexivity | now right].
      * rewrite bool_decide_eq_false_2; [reflexivity|].
        intros H. apply elem_of_cons in H as [?|?]; contradiction.
Qed.

End VocabFacts.

(** X4: [VocabSection.handleSubmit], for active items whose
    identifiers are no names of members of [Object.prototype] (as are the
    identifiers that the gateways assign): the mistakes are the active
    items whose input differs from the English word up to case and
    surrounding white space, in order; the score is the number of the
    others, hence between 0 and the number of active items; the retry is
    offered exactly when there is a mistake. *)
Theorem vocab_submit_score st :
  let inputs := VocabSection.userInputs st in
  let active := VocabSection.activeItems st in
  ordinaryIds (List.map VocabItem.id active) →
  ∃ st',
    VocabSection.handleSubmit st = Some st' ∧
    VocabSection.mistakes st'
    = List.map VocabItem.id (List.filter (misspelled inputs) active) ∧
    VocabSection.score st'
    = Z.of_nat (length (List.filter (spelledRight inputs) active)) ∧
    0 <= VocabSection.score st' <= Z.of_nat (length active) ∧
    (VocabSection.score st' = Z.of_nat (length active) ↔
     ∀ item, item ∈ active → spelledRight inputs item = true) ∧
    (VocabSection.retryOffered st' = true ↔
     ∃ item, item ∈ active ∧ spelledRight inputs item = false) ∧
    VocabSection.activeItems st' = active ∧
    VocabSection.userInputs st' = inputs.
Proof.
  intros inputs active Hids.
  eexists. split; [now apply handleSubmit_mistakes|].
  set (st' := {| VocabSection.isReview := true;
                 VocabSection.userInputs := VocabSection.userInputs st;
                 VocabSection.mistakes :=
                   List.map VocabItem.id
                     (List.filter (misspelled (VocabSection.userInputs st))
                        (VocabSection.activeItems st));
                 VocabSection.activeItems := VocabSection.activeItems st |}).
  assert (Hm : VocabSection.mistakes st'
               = List.map VocabItem.id (List.filter (misspelled inputs) active))
    by reflexivity.
  assert (Hsplit := filter_split (spelledRight inputs) active).
  assert (Hlen : length (VocabSection.mistakes st')
                 = length (List.filter (misspelled inputs) active))
    by (rewrite Hm; apply length_map).
  assert (Hnone := filter_none (misspelled inputs) active).
  unfold misspelled in *.
  assert (Hact : VocabSection.activeItems st' = active) by reflexivity.
  assert (Hinp : VocabSection.userInputs st' = inputs) by reflexivity.
  assert (Hrev : VocabSection.isReview st' = true) by reflexivity.
  unfold VocabSection.retryOffered, VocabSection.score.
  rewrite Hact, Hrev. clearbody st' inputs active.
  split; [exact Hm|].
  split; [lia|]. split; [lia|]. split; [|split; [|split; [reflexivity | exact Hinp]]].
  - split.
    + intros Hsc item Hitem.
      assert (Hnil : List.filter (λ x, negb (spelledRight inputs x)) active = []).
      { apply length_zero_iff_nil. lia. }
      rewrite Hnone in Hnil. specialize (Hnil item Hitem).
      now apply negb_false_iff in Hnil.
    + intros Hall.
      assert (Hnil : List.filter (λ x, negb (spelledRight inputs x)) active = []).
      { apply Hnone. intros x Hx. rewrite (Hall x Hx). reflexivity. }
      rewrite Hnil in Hlen. simpl in Hlen. lia.
  - cbn [andb]. rewrite Nat.ltb_lt. split.
    + intros Hpos.
      destruct (List.filter (λ x, negb (spelledRight inputs x)) active)
        as [|x l] eqn:E; [rewrite Hlen in Hpos; simpl in Hpos; lia|].
      assert (Hx : In x (List.filter (λ x, negb (spelledRight inputs x)) active))
        by (rewrite E; left; reflexivity).
      apply filter_In in Hx as [Hx Hw]. exists x.
      split; [now apply list_elem_of_In | now apply negb_true_iff in Hw].
    + intros (item & Hitem & Hw).
      destruct (List.filter (λ x, negb (spelledRight inputs x)) active)
        as [|x l] eqn:E; [|rewrite Hlen; simpl; lia].
      exfalso. assert (Hf := proj1 Hnone eq_refl item Hitem).
      rewrite Hw in Hf. discriminate.
Qed.

(** Witness of X4: two words, the first one typed with a capital and a leading space. *)
Lemma vocab_submit_score_witness :
  let st :=
    VocabSection.setInput "vocab-1-0" " Apple"
      (VocabSection.initial Practice.items) in
  ∃ st',
    VocabSection.handleSubmit st = Some st' ∧
    VocabSection.mistakes st' = ["vocab-1-1"] ∧
    VocabSection.score st' = 1.
Proof.
  intros st.
  destruct (vocab_submit_score st) as (st' & Hrun & Hm & Hs & _).
  - repeat constructor.
  - exists st'. split; [exact Hrun|].
    split; [rewrite Hm | rewrite Hs]; reflexivity.
Defined.

(** Outside the hypothesis of X4: for an item whose identifier is
    ["constructor"] and for which nothing was typed, the lookup yields the
    inherited member, [trim] is no method of it, and [handleSubmit] throws:
    no review is shown. The identifiers that the gateways assign are
    ordinary. *)
Lemma vocab_submit_inherited_id :
  VocabSection.handleSubmit (VocabSection.initial [Practice.inheritedId]) = None ∧
  VocabPracticeView2.checkVocab
    {| PracticeSessionData.vocab := [Practice.inheritedId];
       PracticeSessionData.grammar := Sample.passage |}
    VocabPracticeView2.initial = None.
Proof. split; reflexivity. Qed.

Lemma vocabId_ordinary now (i : nat) :
  JsObject.inherits (Endpoint.vocabId now i) = false.
Proof. reflexivity. Qed.

Lemma vocabWithIds_ordinary clock vocab :
  ordinaryIds (List.map VocabItem.id (Endpoint.vocabWithIds clock vocab)).
Proof.
  unfold Endpoint.vocabWithIds. generalize O.
  induction (match vocab with Some l => l | None => [] end) as [|x l IH];
    intros index; cbn; constructor; [apply vocabId_ordinary | apply IH].
Qed.

(** X5: [VocabSection.handleRetry] after a submission: when the
    identifiers of the items are distinct and no names of members of
    [Object.prototype], the items kept are exactly the misspelled active
    items, each with an empty input; the mistakes are cleared, the review
    is left, and the active items are again a subsequence of the items, so
    that the same holds for the next round. *)
Theorem vocab_retry_keeps_mistakes items st :
  NoDup (List.map VocabItem.id items) →
  ordinaryIds (List.map VocabItem.id items) →
  sublist (VocabSection.activeItems st) items →
  ∃ submitted,
    VocabSection.handleSubmit st = Some submitted ∧
    let st' := VocabSection.handleRetry items submitted in
    VocabSection.activeItems st'
    = List.filter (misspelled (VocabSection.userInputs st))
        (VocabSection.activeItems st) ∧
    (∀ item, item ∈ VocabSection.activeItems st' →
             VocabSection.userInputs st' !! VocabItem.id item = Some "") ∧
    (∀ id, id ∉ List.map VocabItem.id (VocabSection.activeItems st') →
           VocabSection.userInputs st' !! id = None) ∧
    VocabSection.mistakes st' = [] ∧
    VocabSection.isReview st' = false ∧
    sublist (VocabSection.activeItems st') items.
Proof.
  intros Hnd Hids Hsub.
  assert (Hsubids : ∀ l, sublist l items → ordinaryIds (List.map VocabItem.id l)).
  { intros l Hl. unfold ordinaryIds in *. rewrite Forall_forall in *.
    intros k Hk. apply Hids.
    apply list_elem_of_In, in_map_iff in Hk as (x & <- & Hx).
    apply list_elem_of_In, in_map, list_elem_of_In.
    eapply elem_of_sublist; [|exact Hl]. now apply list_elem_of_In. }
  eexists. split; [apply handleSubmit_mistakes; now apply Hsubids|].
  intros st'.
  assert (Hact : VocabSection.activeItems st'
                 = List.filter (misspelled (VocabSection.userInputs st))
                     (VocabSection.activeItems st)).
  { unfold st', VocabSection.handleRetry. simpl. now apply retry_items. }
  split; [exact Hact|].
  assert (Hkept : sublist (VocabSection.activeItems st') items).
  { rewrite Hact. clear -Hsub.
    induction Hsub as [|x a l Hs IH|x a l Hs IH]; simpl.
    - constructor.
    - destruct (misspelled _ x); [now constructor | now constructor].
    - now constructor. }
  assert (Hin : ∀ k, VocabSection.userInputs st' !! k
                     = if bool_decide
                            (k ∈ List.map VocabItem.id (VocabSection.activeItems st'))
                       then Some "" else None).
  { intros k. unfold st', VocabSection.handleRetry. simpl.
    rewrite resetInputs_lookup; [reflexivity|].
    apply Hsubids. exact Hkept. }
  split.
  { intros item Hitem. rewrite Hin. rewrite bool_decide_eq_true_2; [reflexivity|].
    apply list_elem_of_In, in_map, list_elem_of_In, Hitem. }
  split.
  { intros k Hk. rewrite Hin. now rewrite bool_decide_eq_false_2. }
  split; [reflexivity|]. split; [reflexivity|]. exact Hkept.
Qed.

(** Witness of X5: the same two words: the retry keeps the one that was not typed. *)
Lemma vocab_retry_keeps_mistakes_witness :
  let st :=
    VocabSection.setInput "vocab-1-0" " Apple"
      (VocabSection.initial Practice.items) in
  ∃ submitted,
    VocabSection.handleSubmit st = Some submitted ∧
    VocabSection.activeItems (VocabSection.handleRetry Practice.items submitted)
    = [Practice.pear].
Proof.
  intros st.
  destruct (vocab_retry_keeps_mistakes Practice.items st)
    as (submitted & Hrun & Ha & _).
  - apply (bool_decide_unpack _). vm_compute. exact I.
  - repeat constructor.
  - reflexivity.
  - exists submitted. split; [exact Hrun|]. rewrite Ha. reflexivity.
Defined.

(** ** Keys and answers *)

Section TrimFacts.

Import JsString.

Lemma length_toLowerCase s : String.length (toLowerCase s) = String.length s.
Proof. induction s; simpl; congruence. Qed.

Lemma trimStart_length s :
  (String.length (trimStart s) ≤ String.length s)%nat ∧
  (String.length (trimStart s) = String.length s → trimStart s = s).
Proof.
  induction s as [|c s [IH1 IH2]]; simpl; [split; [lia | reflexivity]|].
  destruct (isWhiteSpace c); simpl; split; try lia; try reflexivity.
Qed.

Lemma trimEnd_length s :
  (String.length (trimEnd s) ≤ String.length s)%nat ∧
  (String.length (trimEnd s) = String.length s → trimEnd s = s).
Proof.
  induction s as [|c s [IH1 IH2]]; simpl; [split; [lia | reflexivity]|].
  destruct (trimEnd s) as [|d t] eqn:E.
  - destruct (isWhiteSpace c); simpl in *; split; try lia.
    intros H. destruct s; simpl in H; [reflexivity | lia].
  - simpl in *. split; [lia|]. intros H. f_equal. apply IH2. lia.
Qed.

Lemma trim_length s :
  String.length (trim s) = String.length s → trim s = s.
Proof.
  unfold trim. intros H.
  destruct (trimStart_length s) as [S1 S2].
  destruct (trimEnd_length (trimStart s)) as [E1 E2].
  rewrite E2 by lia. apply S2. lia.
Qed.

Lemma trimEnd_idem s : trimEnd (trimEnd s) = trimEnd s.
Proof.
  induction s as [|c s IH]; simpl; [reflexivity|].
  destruct (trimEnd s) as [|d t] eqn:E.
  - destruct (isWhiteSpace c) eqn:W; simpl; [reflexivity|]. now rewrite W.
  - simpl. simpl in IH. now rewrite IH.
Qed.

Lemma trimStart_head s :
  trimStart s = "" ∨ ∃ c r, trimStart s = String c r ∧ isWhiteSpace c = false.
Proof.
  induction s as [|c s IH]; simpl; [now left|].
  destruct (isWhiteSpace c) eqn:W; [exact IH|]. right. eauto.
Qed.

Lemma trimStart_trimEnd c r :
  isWhiteSpace c = false →
  trimStart (trimEnd (String c r)) = trimEnd (String c r).
Proof.
  intros W. simpl. destruct (trimEnd r); rewrite ?W; simpl; now rewrite W.
Qed.

Lemma trim_idem s : trim (trim s) = trim s.
Proof.
  unfold trim. destruct (trimStart_head s) as [E | (c & r & E & W)]; rewrite E.
  - reflexivity.
  - rewrite trimStart_trimEnd by exact W. apply trimEnd_idem.
Qed.

(** A key that equals a trimmed string up to case is trimmed itself. *)
Lemma lower_trim_fixed a e :
  toLowerCase (trim a) = toLowerCase e → trim e = e.
Proof.
  intros H. apply trim_length.
  rewrite <- (length_toLowerCase (trim e)), <- trim_toLowerCase, <- H.
  rewrite trim_toLowerCase, trim_idem, H. apply length_toLowerCase.
Qed.

End TrimFacts.

Lemma vocabUserVal_normalised inputs id :
  JsObject.inherits id = false →
  VocabPracticeView2.userVal inputs id
  = Some (normalised (JsString.orElse (inputs !! id) "")).
Proof.
  intros Hid. unfold VocabPracticeView2.userVal, normalised.
  rewrite get_ordinary by exact Hid.
  destruct (inputs !! id) as [s|]; simpl; [|reflexivity].
  destruct s as [|c s]; [reflexivity|]. simpl JsString.truthy at 2. cbv iota.
  destruct (JsString.toLowerCase (JsString.trim (String c s))) eqn:E;
    [|reflexivity].
  reflexivity.
Qed.

(** With ordinary identifiers the loop of [checkVocab] runs to its end
    and makes one own property per word. *)
Lemma checkVocab_results inputs l : ∀ m,
  ordinaryIds (List.map VocabItem.id l) →
  fold_left
    (fun acc word =>
       match acc, VocabPracticeView2.userVal inputs (VocabItem.id word) with
       | Some newResults, Some userVal =>
           Some (JsObject.assign (VocabItem.id word)
                   (String.eqb userVal
                      (JsString.toLowerCase (VocabItem.english word)))
                   newResults)
       | _, _ => None
       end) l (Some m)
  = Some
      (fold_left
         (fun m w =>
            <[VocabItem.id w :=
                String.eqb
                  (normalised (JsString.orElse (inputs !! VocabItem.id w) ""))
                  (JsString.toLowerCase (VocabItem.english w))]> m) l m).
Proof.
  induction l as [|w l IH]; intros m Hids; [reflexivity|].
  cbn [List.map] in Hids. apply Forall_cons in Hids as [Hw Hids].
  cbn [fold_left]. rewrite vocabUserVal_normalised by exact Hw.
  rewrite assign_ordinary by exact Hw. now apply IH.
Qed.

Lemma grammarUserVal_normalised inputs id :
  GrammarSection.userVal inputs id
  = normalised (JsString.orElse (inputs !! id) "").
Proof.
  unfold GrammarSection.userVal, normalised.
  destruct (inputs !! id) as [s|]; simpl; [|reflexivity].
  destruct s as [|c s]; [reflexivity|]. simpl JsString.truthy at 2. cbv iota.
  destruct (JsString.toLowerCase (JsString.trim (String c s))) eqn:E;
    [|reflexivity].
  reflexivity.
Qed.

(** The map that a loop of assignments [m[key(a)] = val(a)] builds. *)
Lemma assigned_lookup {K V A} `{Countable K} (key : A → K) (val : A → V) l :
  ∀ (m : gmap K V) x,
    NoDup (List.map key l) → x ∈ l →
    fold_left (fun m a => <[key a := val a]> m) l m !! key x = Some (val x).
Proof.
  assert (Hother : ∀ l (m : gmap K V) k, k ∉ List.map key l →
            fold_left (fun m a => <[key a := val a]> m) l m !! k = m !! k).
  { clear l. induction l as [|a l IH]; intros m k Hk; [reflexivity|].
    cbn [fold_left]. rewrite IH.
    - apply lookup_insert_ne. intros E. apply Hk. rewrite <- E. left.
    - intros Hin. apply Hk. now right. }
  induction l as [|a l IH]; intros m x Hnd Hx.
  - now apply not_elem_of_nil in Hx.
  - cbn [List.map] in Hnd. apply NoDup_cons in Hnd as [Ha Hnd].
    cbn [fold_left]. apply elem_of_cons in Hx as [->|Hx].
    + rewrite Hother by exact Ha. apply lookup_insert_eq.
    + now apply IH.
Qed.

(** X6: [checkVocab] of the second variant, for items whose
    identifiers are distinct and no names of members of
    [Object.prototype]: an item is marked correct exactly when the input,
    taken up to case and surrounding white space, equals the English word
    taken up to case only. The word itself is not trimmed: an item whose
    word carries surrounding white space is never marked correct, whatever
    is typed, whereas the first variant accepts the word as its own
    answer. *)
Theorem checkVocab_key_not_trimmed data st word :
  NoDup (List.map VocabItem.id (PracticeSessionData.vocab data)) →
  ordinaryIds (List.map VocabItem.id (PracticeSessionData.vocab data)) →
  word ∈ PracticeSessionData.vocab data →
  ∃ st',
    VocabPracticeView2.checkVocab data st = Some st' ∧
    VocabPracticeView2.isCorrect st' word
    = String.eqb
        (normalised
           (JsString.orElse
              (VocabPracticeView2.vocabInputs st !! VocabItem.id word) ""))
        (JsString.toLowerCase (VocabItem.english word)) ∧
    (JsString.trim (VocabItem.english word) ≠ VocabItem.english word →
     VocabPracticeView2.isCorrect st' word = false) ∧
    (∀ inputs,
       spelledRight (<[VocabItem.id word := VocabItem.english word]> inputs) word
       = true) ∧
    VocabPracticeView2.showVocabResults st' = true ∧
    VocabPracticeView2.vocabInputs st' = VocabPracticeView2.vocabInputs st.
Proof.
  intros Hnd Hids Hword.
  assert (Hid : JsObject.inherits (VocabItem.id word) = false).
  { unfold ordinaryIds in Hids. rewrite Forall_forall in Hids. apply Hids.
    apply list_elem_of_In, in_map, list_elem_of_In, Hword. }
  eexists. split.
  { unfold VocabPracticeView2.checkVocab.
    rewrite checkVocab_results by exact Hids. reflexivity. }
  match goal with |- VocabPracticeView2.isCorrect ?x _ = _ ∧ _ => set (st' := x) end.
  assert (Hres : VocabPracticeView2.isCorrect st' word
    = String.eqb
        (normalised
           (JsString.orElse
              (VocabPracticeView2.vocabInputs st !! VocabItem.id word) ""))
        (JsString.toLowerCase (VocabItem.english word))).
  { unfold VocabPracticeView2.isCorrect, st'.
    cbn [VocabPracticeView2.vocabResults].
    rewrite get_ordinary by exact Hid.
    now rewrite (assigned_lookup VocabItem.id
               (fun w => String.eqb
                  (normalised
                     (JsString.orElse
                        (VocabPracticeView2.vocabInputs st !! VocabItem.id w) ""))
                  (JsString.toLowerCase (VocabItem.english w)))
               _ _ _ Hnd Hword). }
  split; [exact Hres|]. split; [|split; [|split; reflexivity]].
  - intros Hkey. rewrite Hres. apply String.eqb_neq. intros E.
    apply Hkey. eapply lower_trim_fixed. exact E.
  - intros inputs. unfold spelledRight. rewrite lookup_insert_eq.
    destruct (VocabItem.english word); apply String.eqb_refl.
Qed.

(** Witness of X6: a word that starts with a space, typed as it is. *)
Lemma checkVocab_key_not_trimmed_witness :
  ∃ st',
    VocabPracticeView2.checkVocab Practice.data
      (VocabPracticeView2.setInput "vocab-1-1" " pear"
         VocabPracticeView2.initial) = Some st' ∧
    VocabPracticeView2.isCorrect st' Practice.pear = false.
Proof.
  destruct (checkVocab_key_not_trimmed Practice.data
              (VocabPracticeView2.setInput "vocab-1-1" " pear"
                 VocabPracticeView2.initial) Practice.pear)
    as (st' & Hrun & _ & Hkey & _).
  - apply (bool_decide_unpack _). vm_compute. exact I.
  - repeat constructor.
  - right. left.
  - exists st'. split; [exact Hrun|]. apply Hkey. discriminate.
Defined.

Section GrammarScore.

Import GrammarSection.

Lemma calculateScore_count answers l : ∀ n,
  fold_left
    (fun correct b =>
       if String.eqb
            (JsString.toLowerCase
               (JsString.trim
                  (JsString.orElse (answers !! GrammarBlank.id b) "")))
            (JsString.toLowerCase (GrammarBlank.answer b))
       then correct + 1 else correct) l n
  = n + Z.of_nat (length (List.filter (blankRight answers) l)).
Proof.
  induction l as [|b l IH]; intros n; simpl; [lia|].
  rewrite IH. unfold blankRight at 2, normalised.
  destruct (String.eqb _ _); simpl length; lia.
Qed.

Lemma toLowerCase_empty s : String.eqb "" (JsString.toLowerCase s) = String.eqb s "".
Proof. destruct s; reflexivity. Qed.

End GrammarScore.

(** X7: [GrammarSection] of the first variant: the score is the
    number of blanks whose answer, up to case and surrounding white space,
    equals the key up to case; it lies between 0 and the total; checking
    does not change it, and after a retry it counts the blanks whose key is
    empty. Once checked, the input shown for a blank is marked right
    exactly when that blank counts in the score. A key that carries
    surrounding white space is never matched. *)
Theorem grammar_score_counts data st :
  let blanks := GrammarPracticeData.blanks data in
  let answers := Grammar.answers st in
  GrammarSection.calculateScore data st
  = Z.of_nat (length (List.filter (blankRight answers) blanks)) ∧
  0 <= GrammarSection.calculateScore data st <= GrammarSection.total data ∧
  GrammarSection.calculateScore data (GrammarSection.check st)
  = GrammarSection.calculateScore data st ∧
  GrammarSection.calculateScore data (GrammarSection.retry st)
  = Z.of_nat
      (length (List.filter (fun b => String.eqb (GrammarBlank.answer b) "") blanks)) ∧
  (∀ b, JsString.trim (GrammarBlank.answer b) ≠ GrammarBlank.answer b →
        blankRight answers b = false) ∧
  (∀ segment ds b,
     Grammar.search segment = Some ds →
     Grammar.findBlank data (Grammar.parseInt ds) = Some b →
     Grammar.renderSegment data (GrammarSection.check st) segment
     = Some (Grammar.BlankInput (Grammar.parseInt ds) b
               (JsString.orElse (answers !! Grammar.parseInt ds) "") true
               (if blankRight answers b then Grammar.Right else Grammar.Wrong))).
Proof.
  intros blanks answers.
  assert (Hcount : ∀ s, GrammarSection.calculateScore data s
            = Z.of_nat (length (List.filter (blankRight (Grammar.answers s)) blanks))).
  { intros s. unfold GrammarSection.calculateScore.
    now rewrite calculateScore_count. }
  split; [apply Hcount|]. split.
  { rewrite Hcount. unfold GrammarSection.total. fold blanks.
    assert (H := filter_length_le (blankRight (Grammar.answers st)) blanks). lia. }
  split; [now rewrite !Hcount|]. split.
  { rewrite Hcount. do 2 f_equal. apply filter_ext. intros b.
    unfold blankRight. cbn. apply toLowerCase_empty. }
  split.
  { intros b Hkey. unfold blankRight, normalised. apply String.eqb_neq.
    intros E. apply Hkey. eapply lower_trim_fixed. exact E. }
  intros segment ds b Hs Hb.
  unfold Grammar.renderSegment. rewrite Hs, Hb. cbn.
  unfold blankRight, normalised.
  rewrite (findBlank_id _ _ _ Hb). reflexivity.
Qed.

(** Witness of X7: the sample passage, with the first blank answered in another spelling. *)
Lemma grammar_score_counts_witness :
  Grammar.renderSegment Sample.passage
    (GrammarSection.check
       (GrammarSection.setAnswer 1 " Went "
          {| Grammar.answers := ∅; Grammar.isChecked := false |}))
    "{{1}}"
  = Some (Grammar.BlankInput 1
            {| GrammarBlank.id := 1; GrammarBlank.hint := "";
               GrammarBlank.answer := "went";
               GrammarBlank.explanation := "Simple past." |}
            " Went " true Grammar.Right).
Proof.
  exact (proj2 (proj2 (proj2 (proj2 (proj2
    (grammar_score_counts Sample.passage
       (GrammarSection.setAnswer 1 " Went "
          {| Grammar.answers := ∅; Grammar.isChecked := false |}))))))
    "{{1}}" "1" _ ltac:(reflexivity) ltac:(reflexivity)).
Defined.

(** X8: [checkGrammar] of the second variant followed by the
    rendering: when the identifiers of the blanks are distinct, the input
    shown for a placeholder that has a blank is marked right exactly when
    what was typed equals the key of that blank, both up to case and
    surrounding white space; the input stays editable. *)
Theorem checkGrammar_marks data st part ds b :
  NoDup (List.map GrammarBlank.id (GrammarPracticeData.blanks data)) →
  Grammar.search part = Some ds →
  Grammar.findBlank data (Grammar.parseInt ds) = Some b →
  let typed :=
    JsString.orElse (Grammar.inputs st !! Grammar.parseInt ds) "" in
  Grammar.renderSegment2 data (GrammarSection.checkGrammar data st) part
  = Some (Grammar.BlankInput (Grammar.parseInt ds) b typed false
            (if String.eqb (normalised typed) (normalised (GrammarBlank.answer b))
             then Grammar.Right else Grammar.Wrong)).
Proof.
  intros Hnd Hs Hb typed.
  assert (Hid := findBlank_id _ _ _ Hb).
  assert (Hin : b ∈ GrammarPracticeData.blanks data).
  { unfold Grammar.findBlank in Hb. apply find_some in Hb as [Hb _].
    now apply list_elem_of_In. }
  unfold Grammar.renderSegment2. rewrite Hs, Hb.
  unfold GrammarSection.checkGrammar.
  cbn [Grammar.results Grammar.inputs Grammar.showResults]. cbv zeta.
  subst typed. rewrite <- Hid.
  rewrite (assigned_lookup GrammarBlank.id
             (fun b => String.eqb
                (GrammarSection.userVal (Grammar.inputs st) (GrammarBlank.id b))
                (JsString.toLowerCase (JsString.trim (GrammarBlank.answer b))))
             _ _ _ Hnd Hin).
  rewrite grammarUserVal_normalised. reflexivity.
Qed.

(** Witness of X8: the sample passage, with the first blank answered in capitals. *)
Lemma checkGrammar_marks_witness :
  Grammar.renderSegment2 Sample.passage
    (GrammarSection.checkGrammar Sample.passage
       {| Grammar.inputs := <[1 := "WENT "]> ∅; Grammar.results := ∅;
          Grammar.showResults := false |})
    "{{1}}"
  = Some (Grammar.BlankInput 1
            {| GrammarBlank.id := 1; GrammarBlank.hint := "";
               GrammarBlank.answer := "went";
               GrammarBlank.explanation := "Simple past." |}
            "WENT " false Grammar.Right).
Proof.
  exact (checkGrammar_marks Sample.passage
           {| Grammar.inputs := <[1 := "WENT "]> ∅; Grammar.results := ∅;
              Grammar.showResults := false |} "{{1}}" "1"
           {| GrammarBlank.id := 1; GrammarBlank.hint := "";
              GrammarBlank.answer := "went";
              GrammarBlank.explanation := "Simple past." |}
           ltac:(apply (bool_decide_unpack _); vm_compute; exact I)
           ltac:(reflexivity) ltac:(reflexivity)).
Defined.

(** ** Review and submission *)

Section EditingFacts.

Import TestPaperView.

(** The calls of [handleAnswer] change the answers and nothing else. *)
Lemma edits_fields edits : ∀ st,
  let st' := fold_left (fun s e => handleAnswer (fst e) (snd e) s) edits st in
  answers st' = fold_left (fun m e => <[fst e := snd e]> m) edits (answers st) ∧
  showResult st' = showResult st ∧ grading st' = grading st ∧
  score st' = score st ∧ writingFeedback st' = writingFeedback st.
Proof.
  induction edits as [|e edits IH]; intros st; [by repeat split|].
  cbn [fold_left]. destruct (IH (handleAnswer (fst e) (snd e) st))
    as (H1 & H2 & H3 & H4 & H5).
  by repeat split.
Qed.

Lemma edits_other (edits : list (string * string)) k : ∀ m : gmap string string,
  k ∉ List.map fst edits →
  fold_left (fun m e => <[fst e := snd e]> m) edits m !! k = m !! k.
Proof.
  induction edits as [|e edits IH]; intros m Hk; [done|].
  cbn [List.map] in Hk. apply not_elem_of_cons in Hk as [Hne Hk].
  cbn [fold_left]. rewrite IH by done. by rewrite lookup_insert_ne.
Qed.

(** What the submission sets is the same with and without edits; an
    answer that is not edited is the one that was graded. *)
Lemma handleSubmitEditing_fields edits grader config paper st :
  let final := fst (handleSubmit grader config paper st) in
  let edited := fst (handleSubmitEditing edits grader config paper st) in
  snd (handleSubmitEditing edits grader config paper st)
  = snd (handleSubmit grader config paper st) ∧
  showResult edited = showResult final ∧ grading edited = grading final ∧
  score edited = score final ∧ writingFeedback edited = writingFeedback final ∧
  answers final = answers st ∧
  (∀ k, k ∉ List.map fst edits → answers edited !! k = answers st !! k).
Proof.
  assert (Hans : answers (fst (handleSubmit grader config paper st)) = answers st).
  { unfold handleSubmit. by destruct (gradePaper _ _ _ _). }
  cbv zeta. unfold handleSubmitEditing.
  destruct (handleSubmit grader config paper st) as [final calls] eqn:E.
  cbn [fst snd] in *.
  destruct calls as [|call calls]; cbn [fst snd].
  - repeat split; try done. intros k _. by rewrite Hans.
  - destruct (edits_fields edits final) as (H1 & H2 & H3 & H4 & H5).
    repeat split; try done.
    intros k Hk. rewrite H1, edits_other by done. by rewrite Hans.
Qed.

End EditingFacts.

(** X9: First variant of [TestPaperView]. The scores are those of
    the answers at the click on [Submit Test]; the review compares the
    answers as they stand when it is shown, which the user can still
    change while the grading requests are awaited, and it compares
    without trimming. For an objective question whose answer was not
    changed in the meantime, being shown as correct implies that the full
    score was awarded. The converse fails: the key followed by white space
    earns the full score and is shown as incorrect. And an answer changed
    to the key while a request is awaited is shown as correct although the
    question earned nothing. *)
Theorem review_stricter_than_grading grader config paper st edits q :
  let graded := TestPaperView.answers st in
  let shown :=
    TestPaperView.answers
      (fst (TestPaperView.handleSubmitEditing edits grader config paper st)) in
  isObjective q = true →
  (TestPaperView.score
     (fst (TestPaperView.handleSubmitEditing edits grader config paper st))
   = TestPaperView.score (fst (TestPaperView.handleSubmit grader config paper st))) ∧
  (Question.id q ∉ List.map fst edits →
   Review.isCorrect shown q = Some true →
   ∀ acc, ∃ acc',
     TestPaperView.gradeQuestion grader config graded acc q = Done acc' ∧
     TestPaperView.totalScore acc'
     = TestPaperView.totalScore acc + Question.maxScore q) ∧
  (∀ c w, Question.correctAnswer q = Given c → c ≠ "" →
     w ≠ "" → JsString.allWhiteSpace w = true →
     let ans' := <[Question.id q := c +:+ w]> graded in
     (∀ acc, ∃ acc',
        TestPaperView.gradeQuestion grader config ans' acc q = Done acc' ∧
        TestPaperView.totalScore acc'
        = TestPaperView.totalScore acc + Question.maxScore q) ∧
     Review.isCorrect ans' q = Some false) ∧
  (∀ c, Question.correctAnswer q = Given c → c ≠ "" →
     snd (TestPaperView.handleSubmit grader config paper st) ≠ [] →
     inheritedAnswer graded q = false →
     ¬ matches (JsObject.get graded (Question.id q)) c →
     (∀ acc, ∃ acc',
        TestPaperView.gradeQuestion grader config graded acc q = Done acc' ∧
        TestPaperView.totalScore acc' = TestPaperView.totalScore acc) ∧
     Review.isCorrect
       (TestPaperView.answers
          (fst (TestPaperView.handleSubmitEditing [(Question.id q, c)]
                  grader config paper st))) q
     = Some true).
Proof.
  intros graded shown Hobj.
  destruct (handleSubmitEditing_fields edits grader config paper st)
    as (_ & _ & _ & Hscore & _ & _ & Hsame).
  split; [exact Hscore|]. split; [|split].
  - intros Hk Hrev acc.
    assert (Hmatch : TestPaperView.isMatch (JsObject.get graded (Question.id q))
                       (Question.correctAnswer q) = Some true).
    { unfold Review.isCorrect in Hrev. unfold TestPaperView.isMatch.
      destruct (Question.correctAnswer q) as [| |c]; try discriminate.
      destruct (JsString.truthy c); [|discriminate].
      unfold JsObject.get in *. subst shown. rewrite (Hsame _ Hk) in Hrev.
      fold graded in Hrev.
      destruct (graded !! Question.id q) as [a|].
      - injection Hrev as Hrev. apply String.eqb_eq in Hrev.
        by rewrite <- !trim_toLowerCase, Hrev, String.eqb_refl.
      - by destruct (JsObject.inherits (Question.id q)). }
    assert (Hsafe : throwsAt graded q = false).
    { unfold throwsAt. rewrite Hmatch. by destruct (Question.type q). }
    eexists. split; [by apply gradeQuestion_done|].
    rewrite step_objective by done. unfold objectiveAward. by rewrite Hmatch.
  - intros c w Hkey Hc Hw Hws ans'.
    assert (Hmatch : TestPaperView.isMatch (JsObject.get ans' (Question.id q))
                       (Question.correctAnswer q) = Some true).
    { unfold TestPaperView.isMatch, JsObject.get, ans'.
      rewrite Hkey, lookup_insert_eq, (proj2 (truthy_true c) Hc).
      by rewrite (trim_app_r c w Hws), String.eqb_refl. }
    split.
    + intros acc.
      assert (Hsafe : throwsAt ans' q = false).
      { unfold throwsAt. rewrite Hmatch. by destruct (Question.type q). }
      eexists. split; [by apply gradeQuestion_done|].
      rewrite step_objective by done. unfold objectiveAward. by rewrite Hmatch.
    + unfold Review.isCorrect, JsObject.get, ans'.
      rewrite Hkey, lookup_insert_eq, (proj2 (truthy_true c) Hc).
      f_equal. apply String.eqb_neq. intros E.
      apply (f_equal String.length) in E.
      rewrite !length_toLowerCase, length_app_s in E.
      destruct w; [contradiction | simpl in E; lia].
  - intros c Hkey Hc Hcalls Hown Hno. split.
    + intros acc.
      assert (Hsafe : throwsAt graded q = false) by (by apply throwsAt_own).
      eexists. split; [by apply gradeQuestion_done|].
      rewrite step_objective by done. unfold objectiveAward. rewrite Hkey.
      destruct (TestPaperView.isMatch _ _) as [[]|] eqn:E; cbn; try lia.
      by apply isMatch_spec in E.
    + unfold TestPaperView.handleSubmitEditing.
      destruct (TestPaperView.handleSubmit grader config paper st)
        as [final calls]. cbn [snd] in Hcalls.
      destruct calls as [|call calls]; [done|]. cbn [fst fold_left].
      unfold Review.isCorrect, JsObject.get. cbn [TestPaperView.handleAnswer
        TestPaperView.answers fst snd].
      rewrite Hkey, lookup_insert_eq, (proj2 (truthy_true c) Hc).
      by rewrite String.eqb_refl.
Qed.

(** Witness of X9: in the sample paper the first essay is answered and
    the capital question is not; while the essay is graded the user types
    the key. *)
Lemma review_stricter_than_grading_witness :
  let st := Sample.view (<["w1" := "Essay one"]> ∅) in
  let final :=
    fst (TestPaperView.handleSubmitEditing [("q1", "paris")] (Sample.scores 7)
           Sample.config Sample.paper st) in
  TestPaperView.score final
  = {| TestPaperView.total := 7; TestPaperView.max := 37 |} ∧
  Review.isCorrect (TestPaperView.answers final) Sample.capital = Some true.
Proof.
  intros st final.
  destruct (review_stricter_than_grading (Sample.scores 7) Sample.config
              Sample.paper st [("q1", "paris")] Sample.capital
              ltac:(reflexivity))
    as (Hscore & _ & _ & Hedit).
  split.
  - subst final. rewrite Hscore. reflexivity.
  - apply (Hedit "paris" ltac:(reflexivity) ltac:(discriminate)
             ltac:(discriminate) ltac:(reflexivity)).
    intros (a & Ha & _). discriminate.
Defined.

Section Submission2.

Import TestPaperView2.

Variable grader : Grader.
Variable config : TextbookConfig.t.
Variable ans : gmap string string.

Lemma step2_cases acc q :
  (isObjective q = true ∧
   gradeQuestion grader config ans acc q
   = Done {| totalScore := totalScore acc + objectiveAward2 ans q;
             maxTotalScore := maxTotalScore acc + Question.maxScore q;
             sectionScores := sectionScores acc;
             newWritingFeedback := newWritingFeedback acc;
             sectionScore := sectionScore acc + objectiveAward2 ans q;
             issued := issued acc |}) ∨
  (isWriting q = true ∧
   match grader (length (issued acc)) (callOf2 config ans q) with
   | Resolved fb =>
       gradeQuestion grader config ans acc q
       = Done {| totalScore := totalScore acc + WritingFeedback.score fb;
                 maxTotalScore := maxTotalScore acc + Question.maxScore q;
                 sectionScores := sectionScores acc;
                 newWritingFeedback :=
                   <[Question.id q := fb]> (newWritingFeedback acc);
                 sectionScore := sectionScore acc + WritingFeedback.score fb;
                 issued := issued acc ++ [callOf2 config ans q] |}
   | Rejected =>
       gradeQuestion grader config ans acc q
       = Thrown (issued acc ++ [callOf2 config ans q])
   end).
Proof.
  unfold gradeQuestion, isObjective, isWriting, objectiveAward2, callOf2.
  destruct (Question.type q); simpl.
  1-3: left; split; [reflexivity|];
       destruct (strictEq _ _); do 2 f_equal; lia.
  right. split; [reflexivity|]. destruct (grader _ _); reflexivity.
Qed.

(** The inner loop. *)
Lemma questions2_run qs : ∀ acc,
  let calls := List.map (callOf2 config ans) (List.filter isWriting qs) in
  match firstRejected grader (length (issued acc)) calls with
  | None =>
      ∃ acc',
        forOf (gradeQuestion grader config ans) qs acc = Done acc' ∧
        totalScore acc'
        = totalScore acc + objectiveTotal2 ans qs
          + essayTotal grader (length (issued acc)) calls ∧
        sectionScore acc' - sectionScore acc = totalScore acc' - totalScore acc ∧
        sectionScores acc' = sectionScores acc ∧
        issued acc' = issued acc ++ calls
  | Some j =>
      forOf (gradeQuestion grader config ans) qs acc
      = Thrown (issued acc ++ take (S j) calls)
  end.
Proof.
  induction qs as [|q qs IH]; intros acc; cbn zeta.
  - simpl. exists acc. rewrite app_nil_r. repeat split; lia.
  - destruct (step2_cases acc q) as [[Hq Hstep] | [Hq Hstep]].
    + assert (Hw : isWriting q = false)
        by (unfold isObjective in Hq; now apply negb_true_iff in Hq).
      cbn [List.filter forOf]. rewrite Hw, Hstep.
      specialize (IH {| totalScore := totalScore acc + objectiveAward2 ans q;
             maxTotalScore := maxTotalScore acc + Question.maxScore q;
             sectionScores := sectionScores acc;
             newWritingFeedback := newWritingFeedback acc;
             sectionScore := sectionScore acc + objectiveAward2 ans q;
             issued := issued acc |}).
      cbn zeta in IH. cbn [issued] in IH.
      destruct (firstRejected grader (length (issued acc))
                  (List.map (callOf2 config ans) (List.filter isWriting qs)));
        [exact IH|].
      destruct IH as (acc' & Hrun & Htot & Hsec & Hmap & Hiss).
      exists acc'. cbn [totalScore sectionScore sectionScores] in *.
      cbn [objectiveTotal2 fold_right]. fold (objectiveTotal2 ans qs).
      rewrite Hq. repeat split; [exact Hrun | lia | lia | exact Hmap | exact Hiss].
    + cbn [List.filter forOf List.map firstRejected essayTotal]. rewrite Hq.
      cbn [List.map firstRejected essayTotal].
      destruct (grader (length (issued acc)) (callOf2 config ans q)) as [fb|] eqn:G.
      * rewrite Hstep.
        specialize (IH {| totalScore := totalScore acc + WritingFeedback.score fb;
                 maxTotalScore := maxTotalScore acc + Question.maxScore q;
                 sectionScores := sectionScores acc;
                 newWritingFeedback :=
                   <[Question.id q := fb]> (newWritingFeedback acc);
                 sectionScore := sectionScore acc + WritingFeedback.score fb;
                 issued := issued acc ++ [callOf2 config ans q] |}).
        cbn zeta in IH. cbn [issued] in IH.
        rewrite length_app in IH. cbn [length] in IH.
        rewrite Nat.add_1_r in IH.
        destruct (firstRejected grader (S (length (issued acc)))
                    (List.map (callOf2 config ans) (List.filter isWriting qs))).
        -- cbn [option_map]. rewrite IH, <- app_assoc. reflexivity.
        -- cbn [option_map].
           destruct IH as (acc' & Hrun & Htot & Hsec & Hmap & Hiss).
           exists acc'. cbn [totalScore sectionScore sectionScores] in *.
           cbn [objectiveTotal2 fold_right]. fold (objectiveTotal2 ans qs).
           assert (Ho : isObjective q = false)
             by (unfold isObjective; now rewrite Hq).
           rewrite Ho. cbn [essayAward].
           repeat split; [exact Hrun | lia | lia | exact Hmap |].
           rewrite Hiss, <- app_assoc. reflexivity.
      * rewrite Hstep. reflexivity.
Qed.

Lemma firstRejected_app l1 : ∀ k l2,
  firstRejected grader k (l1 ++ l2)
  = match firstRejected grader k l1 with
    | Some j => Some j
    | None =>
        option_map (fun j => (length l1 + j)%nat)
          (firstRejected grader (k + length l1) l2)
    end.
Proof.
  induction l1 as [|c l1 IH]; intros k l2; cbn [app firstRejected length].
  - rewrite Nat.add_0_r. now destruct (firstRejected grader k l2).
  - destruct (grader k c); [|reflexivity].
    rewrite IH. replace (S k + length l1)%nat with (k + S (length l1))%nat by lia.
    destruct (firstRejected grader (S k) l1); [reflexivity|].
    now destruct (firstRejected grader (k + S (length l1)) l2).
Qed.

Lemma firstRejected_lt l : ∀ k j,
  firstRejected grader k l = Some j → (j < length l)%nat.
Proof.
  induction l as [|c l IH]; intros k j; cbn [firstRejected length]; [discriminate|].
  destruct (grader k c).
  - destruct (firstRejected grader (S k) l) as [j'|] eqn:E; [|discriminate].
    intros [= <-]. specialize (IH _ _ E). lia.
  - intros [= <-]. lia.
Qed.

Lemma essayTotal_app l1 : ∀ k l2,
  essayTotal grader k (l1 ++ l2)
  = essayTotal grader k l1 + essayTotal grader (k + length l1) l2.
Proof.
  induction l1 as [|c l1 IH]; intros k l2; cbn [app essayTotal length].
  - rewrite Nat.add_0_r. lia.
  - rewrite IH. replace (S k + length l1)%nat with (k + S (length l1))%nat by lia.
    lia.
Qed.

Lemma objectiveTotal2_app qs1 qs2 :
  objectiveTotal2 ans (qs1 ++ qs2) = objectiveTotal2 ans qs1 + objectiveTotal2 ans qs2.
Proof.
  unfold objectiveTotal2.
  induction qs1 as [|q qs1 IH]; cbn [app fold_right]; [lia|].
  rewrite IH. lia.
Qed.

(** A section that completes records its own score. *)
Lemma section2_score acc s acc1 :
  gradeSection grader config ans acc s = Done acc1 →
  let v := sectionAward2 grader config ans (length (issued acc)) s in
  sectionScores acc1 = JsObject.assign (TestSection.id s) v (sectionScores acc) ∧
  totalScore acc1 = totalScore acc + v ∧
  length (issued acc1)
  = (length (issued acc)
     + length (List.filter isWriting (TestSection.questions s)))%nat.
Proof.
  unfold gradeSection.
  set (acc0 := {| totalScore := totalScore acc;
                  maxTotalScore := maxTotalScore acc;
                  sectionScores := sectionScores acc;
                  newWritingFeedback := newWritingFeedback acc;
                  sectionScore := 0; issued := issued acc |}).
  assert (Hrun := questions2_run (TestSection.questions s) acc0). cbn zeta in Hrun.
  change (issued acc0) with (issued acc) in Hrun.
  destruct (firstRejected grader (length (issued acc)) _).
  - rewrite Hrun. discriminate.
  - destruct Hrun as (acc' & -> & Htot & Hsec & Hmap & Hiss).
    intros [= <-]. cbn [sectionScores totalScore issued].
    rewrite Hmap, Hiss, length_app, length_map.
    subst acc0. cbn [sectionScore totalScore sectionScores] in *.
    unfold sectionAward2. split; [f_equal; lia|]. split; [lia | reflexivity].
Qed.

Lemma sections2_scores ss : ∀ acc acc',
  NoDup (List.map TestSection.id ss) →
  Forall (fun s => TestSection.id s ≠ "__proto__") ss →
  forOf (gradeSection grader config ans) ss acc = Done acc' →
  totalScore acc' = totalScore acc + sectionScoreSum (sectionScores acc') ss ∧
  (∀ k, k ∉ List.map TestSection.id ss →
        sectionScores acc' !! k = sectionScores acc !! k) ∧
  (∀ (i : nat) s, ss !! i = Some s →
     sectionScores acc' !! TestSection.id s
     = Some (sectionAward2 grader config ans
               (length (issued acc) + essaysBefore i ss) s)).
Proof.
  induction ss as [|s ss IH]; intros acc acc' Hnd Hids Hrun.
  - injection Hrun as <-. cbn. repeat split; [lia|]. intros i s; discriminate.
  - cbn [forOf] in Hrun.
    destruct (gradeSection grader config ans acc s) as [acc1|] eqn:Hs;
      [|discriminate].
    cbn [List.map] in Hnd. apply NoDup_cons in Hnd as [Hid Hnd].
    apply Forall_cons in Hids as [Hproto Hids].
    destruct (IH _ _ Hnd Hids Hrun) as (Htot & Hout & Hdom).
    destruct (section2_score _ _ _ Hs) as (Hrec & Htot1 & Hiss1).
    unfold JsObject.assign in Hrec.
    rewrite (proj2 (String.eqb_neq _ _) Hproto) in Hrec.
    assert (Hmine : sectionScores acc' !! TestSection.id s
                    = Some (sectionAward2 grader config ans (length (issued acc)) s)).
    { rewrite (Hout _ Hid), Hrec. apply lookup_insert_eq. }
    split; [|split].
    + cbn [sectionScoreSum fold_right]. fold (sectionScoreSum (sectionScores acc') ss).
      rewrite Hmine. lia.
    + intros k Hk. rewrite Hout, Hrec.
      * apply lookup_insert_ne. intros E. apply Hk. rewrite <- E. left.
      * intros Hin. apply Hk. now right.
    + intros [|i] s' Hs'.
      * injection Hs' as <-. rewrite Hmine. unfold essaysBefore. cbn.
        now rewrite Nat.add_0_r.
      * cbn in Hs'. rewrite (Hdom i s' Hs'). do 2 f_equal.
        unfold essaysBefore. cbn [take List.map List.concat].
        rewrite List.filter_app, length_app. lia.
Qed.

(** The two loops. *)
Lemma sections2_run ss : ∀ acc,
  let qs := List.concat (List.map TestSection.questions ss) in
  let calls := List.map (callOf2 config ans) (List.filter isWriting qs) in
  match firstRejected grader (length (issued acc)) calls with
  | None =>
      ∃ acc',
        forOf (gradeSection grader config ans) ss acc = Done acc' ∧
        totalScore acc'
        = totalScore acc + objectiveTotal2 ans qs
          + essayTotal grader (length (issued acc)) calls ∧
        issued acc' = issued acc ++ calls
  | Some j =>
      forOf (gradeSection grader config ans) ss acc
      = Thrown (issued acc ++ take (S j) calls)
  end.
Proof.
  induction ss as [|s ss IH]; intros acc; cbn zeta.
  - cbn. exists acc. rewrite app_nil_r. repeat split; lia.
  - cbn [List.map List.concat forOf].
    rewrite List.filter_app, List.map_app, firstRejected_app.
    set (acc0 := {| totalScore := totalScore acc;
                    maxTotalScore := maxTotalScore acc;
                    sectionScores := sectionScores acc;
                    newWritingFeedback := newWritingFeedback acc;
                    sectionScore := 0; issued := issued acc |}).
    assert (Hsec : gradeSection grader config ans acc s
              = match forOf (gradeQuestion grader config ans)
                        (TestSection.questions s) acc0 with
                | Done acc1 =>
                    Done {| totalScore := totalScore acc1;
                            maxTotalScore := maxTotalScore acc1;
                            sectionScores :=
                              JsObject.assign (TestSection.id s)
                                (sectionScore acc1) (sectionScores acc1);
                            newWritingFeedback := newWritingFeedback acc1;
                            sectionScore := sectionScore acc1;
                            issued := issued acc1 |}
                | Thrown calls => Thrown calls
                end) by reflexivity.
    rewrite Hsec. clear Hsec.
    assert (Hrun := questions2_run (TestSection.questions s) acc0).
    cbn zeta in Hrun. change (issued acc0) with (issued acc) in Hrun.
    set (calls1 := List.map (callOf2 config ans)
                     (List.filter isWriting (TestSection.questions s))) in *.
    destruct (firstRejected grader (length (issued acc)) calls1) as [j|] eqn:E1.
    + rewrite Hrun. rewrite take_app_le; [reflexivity|].
      apply firstRejected_lt in E1. lia.
    + destruct Hrun as (acc1 & Hrun1 & Htot1 & _ & _ & Hiss1). rewrite Hrun1.
      set (acc2 := {| totalScore := totalScore acc1;
                      maxTotalScore := maxTotalScore acc1;
                      sectionScores :=
                        JsObject.assign (TestSection.id s) (sectionScore acc1)
                          (sectionScores acc1);
                      newWritingFeedback := newWritingFeedback acc1;
                      sectionScore := sectionScore acc1;
                      issued := issued acc1 |}).
      specialize (IH acc2). cbn zeta in IH.
      change (issued acc2) with (issued acc1) in IH.
      rewrite Hiss1, length_app in IH.
      destruct (firstRejected grader (length (issued acc) + length calls1) _)
        as [j|] eqn:E2; cbn [option_map].
      * rewrite IH, <- app_assoc. f_equal. f_equal.
        replace (S (length calls1 + j)) with (length calls1 + S j)%nat by lia.
        now rewrite take_app_add.
      * destruct IH as (acc' & Hrun' & Htot' & Hiss').
        exists acc'. split; [exact Hrun'|].
        rewrite objectiveTotal2_app, essayTotal_app.
        change (totalScore acc2) with (totalScore acc1) in Htot'.
        change (totalScore acc0) with (totalScore acc) in Htot1.
        split; [lia|]. rewrite Hiss', <- app_assoc. reflexivity.
Qed.

End Submission2.

Lemma sectionScoreSum_ext m1 m2 ss :
  (∀ s, s ∈ ss → m1 !! TestSection.id s = m2 !! TestSection.id s) →
  sectionScoreSum m1 ss = sectionScoreSum m2 ss.
Proof.
  induction ss as [|s ss IH]; intros H; [reflexivity|].
  cbn [sectionScoreSum fold_right].
  fold (sectionScoreSum m1 ss). fold (sectionScoreSum m2 ss).
  rewrite (H s) by left. rewrite IH; [reflexivity|].
  intros s' Hs'. apply H. now right.
Qed.

Lemma fold_left_maxScore qs : ∀ a,
  fold_left (fun a b => a + Question.maxScore b) qs a = a + sumMaxScore qs.
Proof.
  induction qs as [|q qs IH]; intros a; cbn [fold_left]; [cbn; lia|].
  rewrite IH, sumMaxScore_cons. lia.
Qed.

(** X10: Second variant: in a result that [handleSubmit] stores for
    a paper whose sections have distinct identifiers, none of which is
    ["__proto__"], a score is recorded for each section and for nothing
    else; it is the sum of the awards of the objective questions of the
    section and of the scores returned for its essays; the scores of the
    sections add up to the total score; the badge of a section is green
    exactly when its score is the sum of the maxima of its questions; and
    the review marks an objective question as correct by the very
    comparison that awarded its score, on the answers that were graded. *)
Theorem section_scores_add_up grader config paper st r :
  NoDup (List.map TestSection.id (TestPaperData.sections paper)) →
  Forall (fun s => TestSection.id s ≠ "__proto__") (TestPaperData.sections paper) →
  TestPaperView2.result st = None →
  TestPaperView2.result
    (fst (TestPaperView2.handleSubmit true grader config paper st)) = Some r →
  let sections := TestPaperData.sections paper in
  let ans := TestPaperView2.answers st in
  sectionScoreSum (TestResult.sectionScores r) sections
  = TestResult.totalScore r ∧
  (∀ k, is_Some (TestResult.sectionScores r !! k) ↔
        k ∈ List.map TestSection.id sections) ∧
  (∀ (i : nat) s, sections !! i = Some s →
     let award :=
       sectionAward2 grader config ans (essaysBefore i sections) s in
     TestResult.sectionScores r !! TestSection.id s = Some award ∧
     (Review.fullMarks r s = true ↔
      award = sumMaxScore (TestSection.questions s))) ∧
  (∀ q, isObjective q = true →
        Review.isCorrect2 r q
        = TestPaperView2.strictEq (JsObject.get ans (Question.id q))
            (Question.correctAnswer q) ∧
        objectiveAward2 ans q
        = if Review.isCorrect2 r q then Question.maxScore q else 0) ∧
  (∀ q, isWriting q = true → Review.isCorrect2 r q = false).
Proof.
  intros Hnd Hids Hnone Hres sections ans.
  unfold TestPaperView2.handleSubmit in Hres.
  destruct (TestPaperView2.gradePaper grader config (TestPaperView2.answers st) paper)
    as [acc|calls] eqn:Hrun; cbn in Hres; [|congruence].
  injection Hres as <-. cbn [TestResult.sectionScores TestResult.totalScore].
  destruct (sections2_scores grader config _ _ _ _ Hnd Hids Hrun)
    as (Htot & Hout & Hdom).
  split; [cbn in Htot; unfold sections; lia|]. split; [|split; [|split]].
  - intros k. split.
    + intros Hk.
      destruct (decide (k ∈ List.map TestSection.id sections))
        as [Hin|Hin]; [exact Hin|].
      rewrite (Hout k Hin) in Hk. cbn in Hk. rewrite lookup_empty in Hk.
      now destruct Hk.
    + intros Hk. apply list_elem_of_In, in_map_iff in Hk as (s & <- & Hs).
      apply list_elem_of_In, list_elem_of_lookup in Hs as [i Hi].
      rewrite (Hdom i s Hi). eauto.
  - intros i s Hi.
    assert (Hrec := Hdom i s Hi). cbn [TestPaperView2.issued TestPaperView2.start
      length Nat.add] in Hrec. fold ans sections in Hrec.
    split; [exact Hrec|].
    unfold Review.fullMarks, JsObject.get. cbn [TestResult.sectionScores].
    rewrite Hrec.
    rewrite fold_left_maxScore, Z.add_0_l. apply Z.eqb_eq.
  - intros q Hq.
    assert (Hrev : Review.isCorrect2
                     {| TestResult.paperId := TestPaperData.id paper;
                        TestResult.totalScore := TestPaperView2.totalScore acc;
                        TestResult.maxTotalScore := TestPaperView2.maxTotalScore acc;
                        TestResult.sectionScores := TestPaperView2.sectionScores acc;
                        TestResult.writingFeedback :=
                          Some (TestPaperView2.newWritingFeedback acc);
                        TestResult.answers := TestPaperView2.answers st |} q
                   = TestPaperView2.strictEq (JsObject.get ans (Question.id q))
                       (Question.correctAnswer q)).
    { unfold Review.isCorrect2. cbn [TestResult.answers].
      unfold isObjective, isWriting in Hq. now destruct (Question.type q). }
    split; [exact Hrev|]. rewrite Hrev. reflexivity.
  - intros q Hq. unfold Review.isCorrect2.
    unfold isWriting in Hq. now destruct (Question.type q).
Qed.

(** Witness of X10: a paper with two sections. In the first the letter
    of the right option is chosen on the form and a question whose key is
    [null] is left unanswered; in the second an essay is typed and graded
    7. The sections score 2 and 7, the total is 9. *)
Lemma section_scores_add_up_witness :
  let st :=
    fold_left (PaperForm.handle2 Quiz.mixedPaper)
      [PaperForm.Choose 0 0; PaperForm.Enter 2 "Essay one"]
      TestPaperView2.initial in
  ∃ r,
    TestPaperView2.result
      (fst (TestPaperView2.handleSubmit true (Sample.scores 7) Sample.config
              Quiz.mixedPaper st)) = Some r ∧
    TestResult.sectionScores r !! "s1" = Some 2 ∧
    TestResult.sectionScores r !! "s2" = Some 7 ∧
    sectionScoreSum (TestResult.sectionScores r)
      (TestPaperData.sections Quiz.mixedPaper)
    = TestResult.totalScore r ∧
    TestResult.totalScore r = 9 ∧
    Review.isCorrect2 r Quiz.nullKey = false.
Proof.
  intros st.
  destruct (TestPaperView2.result
              (fst (TestPaperView2.handleSubmit true (Sample.scores 7)
                      Sample.config Quiz.mixedPaper st))) as [r|] eqn:E;
    [|vm_compute in E; discriminate].
  exists r. split; [reflexivity|].
  destruct (section_scores_add_up (Sample.scores 7) Sample.config
              Quiz.mixedPaper st r
              ltac:(apply (bool_decide_unpack _); vm_compute; exact I)
              ltac:(repeat constructor; discriminate)
              ltac:(reflexivity) E)
    as (Hsum & _ & Hsec & Hrev & _).
  split.
  { etransitivity; [exact (proj1 (Hsec 0%nat _ ltac:(reflexivity)))|].
    vm_compute. reflexivity. }
  split.
  { etransitivity; [exact (proj1 (Hsec 1%nat _ ltac:(reflexivity)))|].
    vm_compute. reflexivity. }
  split; [exact Hsum|].
  split.
  { apply (f_equal (option_map TestResult.totalScore)) in E.
    vm_compute in E. by injection E. }
  etransitivity; [exact (proj1 (Hrev Quiz.nullKey ltac:(reflexivity)))|].
  vm_compute. reflexivity.
Defined.

(** X11: Second variant of [handleSubmit], confirmed by the user:
    the requests go out for all writing questions in document order until
    one is rejected. A rejection aborts the submission: no later request is
    sent, no result is stored, and the view is left with [isGrading] set.
    Without rejection the result is stored, with as total the awards of the
    objective questions plus the scores returned for the essays. *)
Theorem second_variant_submission grader config paper st :
  let ans := TestPaperView2.answers st in
  let calls := List.map (callOf2 config ans) (writingQuestions paper) in
  let final := TestPaperView2.handleSubmit true grader config paper st in
  match firstRejected grader 0 calls with
  | Some j =>
      snd final = take (S j) calls ∧
      TestPaperView2.isGrading (fst final) = true ∧
      TestPaperView2.result (fst final) = TestPaperView2.result st ∧
      TestPaperView2.submitted (fst final) = TestPaperView2.submitted st ∧
      TestPaperView2.writingFeedback (fst final)
      = TestPaperView2.writingFeedback st
  | None =>
      snd final = calls ∧
      TestPaperView2.isGrading (fst final) = false ∧
      TestPaperView2.submitted (fst final) = true ∧
      ∃ r,
        TestPaperView2.result (fst final) = Some r ∧
        TestResult.totalScore r
        = objectiveTotal2 ans (allQuestions paper) + essayTotal grader 0 calls ∧
        TestResult.maxTotalScore r = sumMaxScore (allQuestions paper) ∧
        TestResult.answers r = ans
  end.
Proof.
  intros ans calls final.
  assert (Hrun := sections2_run grader config ans (TestPaperData.sections paper)
                    TestPaperView2.start).
  cbn zeta in Hrun. cbn [TestPaperView2.issued TestPaperView2.start length] in Hrun.
  fold (allQuestions paper) in Hrun. fold (writingQuestions paper) in Hrun.
  fold calls in Hrun.
  unfold final, TestPaperView2.handleSubmit, TestPaperView2.gradePaper.
  destruct (firstRejected grader 0 calls) as [j|].
  - fold ans. rewrite Hrun. cbn. repeat split; reflexivity.
  - destruct Hrun as (acc & Hrun & Htot & Hiss).
    assert (Hmax := gradePaper2_maxTotalScore grader config ans paper acc Hrun).
    fold ans. rewrite Hrun. cbn.
    split; [exact Hiss|]. split; [reflexivity|]. split; [reflexivity|].
    eexists. split; [reflexivity|]. cbn.
    split; [cbn in Htot; lia|]. split; [exact Hmax | reflexivity].
Qed.

(** Witness of X11: the sample paper, on which the second request is rejected. *)
Lemma second_variant_submission_witness :
  let final :=
    TestPaperView2.handleSubmit true Sample.secondFails Sample.config
      Sample.paper (Sample.view2 Sample.answers) in
  length (snd final) = 2%nat ∧
  TestPaperView2.isGrading (fst final) = true ∧
  TestPaperView2.result (fst final) = None.
Proof.
  intros final.
  assert (H := second_variant_submission Sample.secondFails Sample.config
                 Sample.paper (Sample.view2 Sample.answers)).
  cbv zeta in H.
  assert (E : firstRejected Sample.secondFails 0
                (List.map (callOf2 Sample.config
                             (TestPaperView2.answers (Sample.view2 Sample.answers)))
                   (writingQuestions Sample.paper)) = Some 1%nat)
    by reflexivity.
  rewrite E in H. destruct H as (Hcalls & Hg & Hr & _).
  fold final in Hcalls, Hg, Hr.
  split; [rewrite Hcalls; reflexivity|]. split; [exact Hg | exact Hr].
Defined.

Section Bounds.

Variable grader : Grader.
Variable config : TextbookConfig.t.
Variable ans : gmap string string.

Lemma objectiveAward_bounds q :
  0 <= Question.maxScore q → 0 <= objectiveAward ans q <= Question.maxScore q.
Proof. unfold objectiveAward. destruct (TestPaperView.isMatch _ _) as [[]|]; lia. Qed.

Lemma objectiveAward2_bounds q :
  0 <= Question.maxScore q → 0 <= objectiveAward2 ans q <= Question.maxScore q.
Proof. unfold objectiveAward2. destruct (TestPaperView2.strictEq _ _); lia. Qed.

(** The first variant, one question. *)
Lemma step_bounds acc q :
  throwsAt ans q = false →
  0 <= Question.maxScore q →
  (∀ k fb, isWriting q = true →
           grader k (callOf config ans q) = Resolved fb →
           0 <= WritingFeedback.score fb <= Question.maxScore q) →
  let acc' := afterQuestion grader config ans acc q in
  0 <= TestPaperView.totalScore acc' - TestPaperView.totalScore acc
    <= TestPaperView.maxTotalScore acc' - TestPaperView.maxTotalScore acc.
Proof.
  intros Hsafe Hmax Hfb acc'. subst acc'.
  destruct (step_cases ans q) as [Ho | [[Hw Ha] | [Hw Ha]]].
  - rewrite (step_objective grader config ans acc q Ho Hsafe). cbn.
    assert (H := objectiveAward_bounds q Hmax). lia.
  - rewrite (step_unanswered grader config ans acc q Hw Ha). cbn. lia.
  - rewrite (step_essay grader config ans acc q Hw Ha).
    destruct (grader _ _) as [fb|] eqn:G; cbn; [|lia].
    specialize (Hfb _ _ Hw G). lia.
Qed.

Lemma fold_bounds qs : ∀ acc,
  noThrow ans qs →
  (∀ q, q ∈ qs → 0 <= Question.maxScore q) →
  (∀ q k fb, q ∈ qs → isWriting q = true →
             grader k (callOf config ans q) = Resolved fb →
             0 <= WritingFeedback.score fb <= Question.maxScore q) →
  let acc' := fold_left (afterQuestion grader config ans) qs acc in
  0 <= TestPaperView.totalScore acc' - TestPaperView.totalScore acc
    <= TestPaperView.maxTotalScore acc' - TestPaperView.maxTotalScore acc.
Proof.
  induction qs as [|q qs IH]; intros acc Hsafe Hmax Hfb; cbn zeta; [cbn; lia|].
  apply Forall_cons in Hsafe as [Hq Hsafe].
  cbn [fold_left].
  assert (H1 := step_bounds acc q Hq (Hmax q ltac:(left))
                  (fun k fb => Hfb q k fb ltac:(left))).
  assert (H2 := IH (afterQuestion grader config ans acc q) Hsafe
                  (fun q' Hq' => Hmax q' ltac:(right; exact Hq'))
                  (fun q' k fb Hq' => Hfb q' k fb ltac:(right; exact Hq'))).
  cbn zeta in H1, H2. lia.
Qed.

(** The second variant, one question. *)
Lemma step2_bounds acc q acc' :
  0 <= Question.maxScore q →
  (∀ k fb, isWriting q = true →
           grader k (callOf2 config ans q) = Resolved fb →
           0 <= WritingFeedback.score fb <= Question.maxScore q) →
  TestPaperView2.gradeQuestion grader config ans acc q = Done acc' →
  0 <= TestPaperView2.totalScore acc' - TestPaperView2.totalScore acc
    <= TestPaperView2.maxTotalScore acc' - TestPaperView2.maxTotalScore acc.
Proof.
  intros Hmax Hfb Hrun.
  destruct (step2_cases grader config ans acc q) as [[Ho Hstep] | [Hw Hstep]].
  - rewrite Hstep in Hrun. injection Hrun as <-. cbn.
    assert (H := objectiveAward2_bounds q Hmax). lia.
  - destruct (grader _ _) as [fb|] eqn:G; rewrite Hstep in Hrun; [|discriminate].
    injection Hrun as <-. cbn. specialize (Hfb _ _ Hw G). lia.
Qed.

Lemma questions2_bounds qs : ∀ acc acc',
  (∀ q, q ∈ qs → 0 <= Question.maxScore q) →
  (∀ q k fb, q ∈ qs → isWriting q = true →
             grader k (callOf2 config ans q) = Resolved fb →
             0 <= WritingFeedback.score fb <= Question.maxScore q) →
  forOf (TestPaperView2.gradeQuestion grader config ans) qs acc = Done acc' →
  0 <= TestPaperView2.totalScore acc' - TestPaperView2.totalScore acc
    <= TestPaperView2.maxTotalScore acc' - TestPaperView2.maxTotalScore acc.
Proof.
  induction qs as [|q qs IH]; intros acc acc' Hmax Hfb Hrun.
  - injection Hrun as <-. lia.
  - cbn [forOf] in Hrun.
    destruct (TestPaperView2.gradeQuestion grader config ans acc q) as [acc1|] eqn:E;
      [|discriminate].
    assert (H1 := step2_bounds acc q acc1 (Hmax q ltac:(left))
                    (fun k fb => Hfb q k fb ltac:(left)) E).
    assert (H2 := IH acc1 acc'
                    (fun q' Hq' => Hmax q' ltac:(right; exact Hq'))
                    (fun q' k fb Hq' => Hfb q' k fb ltac:(right; exact Hq')) Hrun).
    lia.
Qed.

Lemma sections2_bounds ss : ∀ acc acc',
  (∀ q, q ∈ List.concat (List.map TestSection.questions ss) →
        0 <= Question.maxScore q) →
  (∀ q k fb, q ∈ List.concat (List.map TestSection.questions ss) →
             isWriting q = true →
             grader k (callOf2 config ans q) = Resolved fb →
             0 <= WritingFeedback.score fb <= Question.maxScore q) →
  forOf (TestPaperView2.gradeSection grader config ans) ss acc = Done acc' →
  0 <= TestPaperView2.totalScore acc' - TestPaperView2.totalScore acc
    <= TestPaperView2.maxTotalScore acc' - TestPaperView2.maxTotalScore acc.
Proof.
  induction ss as [|s ss IH]; intros acc acc' Hmax Hfb Hrun.
  - injection Hrun as <-. lia.
  - cbn [forOf] in Hrun.
    destruct (TestPaperView2.gradeSection grader config ans acc s) as [acc1|] eqn:E;
      [|discriminate].
    cbn [List.map List.concat] in Hmax, Hfb.
    assert (H2 := IH acc1 acc'
              (fun q' Hq' => Hmax q' ltac:(apply elem_of_app; right; exact Hq'))
              (fun q' k fb Hq' =>
                 Hfb q' k fb ltac:(apply elem_of_app; right; exact Hq')) Hrun).
    unfold TestPaperView2.gradeSection in E.
    destruct (forOf _ (TestSection.questions s) _) as [acc0|] eqn:E0;
      [|discriminate].
    injection E as <-.
    assert (H1 := questions2_bounds _ _ _
              (fun q' Hq' => Hmax q' ltac:(apply elem_of_app; left; exact Hq'))
              (fun q' k fb Hq' =>
                 Hfb q' k fb ltac:(apply elem_of_app; left; exact Hq')) E0).
    cbn in H1, H2. cbn. lia.
Qed.

End Bounds.

(** X12: When no question has a negative maximum and every score
    that the grader returns for an essay lies between 0 and the maximum of
    its question, the total score of a graded paper lies between 0 and the
    maximal total, in both variants. *)
Theorem total_within_max grader config paper :
  (∀ q, q ∈ allQuestions paper → 0 <= Question.maxScore q) →
  (∀ st,
     (∀ q k fb, q ∈ allQuestions paper → isWriting q = true →
        grader k (callOf config (TestPaperView.answers st) q) = Resolved fb →
        0 <= WritingFeedback.score fb <= Question.maxScore q) →
     TestPaperView.showResult st = false →
     let final := fst (TestPaperView.handleSubmit grader config paper st) in
     TestPaperView.showResult final = true →
     0 <= TestPaperView.total (TestPaperView.score final)
       <= TestPaperView.max (TestPaperView.score final)) ∧
  (∀ st r,
     (∀ q k fb, q ∈ allQuestions paper → isWriting q = true →
        grader k (callOf2 config (TestPaperView2.answers st) q) = Resolved fb →
        0 <= WritingFeedback.score fb <= Question.maxScore q) →
     TestPaperView2.result st = None →
     TestPaperView2.result
       (fst (TestPaperView2.handleSubmit true grader config paper st)) = Some r →
     0 <= TestResult.totalScore r <= TestResult.maxTotalScore r).
Proof.
  intros Hmax. split.
  - intros st Hfb Hform final Hshown. subst final.
    destruct (decide (Forall (fun q => throwsAt (TestPaperView.answers st) q = false)
                        (allQuestions paper)))
      as [Hsafe|Hthrow].
    + rewrite handleSubmit_done by exact Hsafe. cbn.
      assert (H := fold_bounds grader config (TestPaperView.answers st)
                     (allQuestions paper) TestPaperView.start Hsafe Hmax Hfb).
      cbn in H. lia.
    + destruct (handleSubmit_thrown grader config paper st Hthrow) as [calls E].
      rewrite E in Hshown. cbn in Hshown. congruence.
  - intros st r Hfb Hnone Hres.
    unfold TestPaperView2.handleSubmit in Hres.
    destruct (TestPaperView2.gradePaper grader config (TestPaperView2.answers st) paper)
      as [acc|calls] eqn:Hrun; cbn in Hres; [|congruence].
    injection Hres as <-. cbn.
    assert (H := sections2_bounds grader config (TestPaperView2.answers st)
                   (TestPaperData.sections paper) TestPaperView2.start acc
                   Hmax Hfb Hrun).
    cbn in H. lia.
Qed.

(** Witness of X12: the sample paper, on which every essay is graded 7 out of 10. *)
Lemma total_within_max_witness :
  let score :=
    TestPaperView.score
      (fst (TestPaperView.handleSubmit (Sample.scores 7) Sample.config
              Sample.paper (Sample.view Sample.answers))) in
  TestPaperView.total score = 26 ∧ TestPaperView.max score = 37 ∧
  0 <= TestPaperView.total score <= TestPaperView.max score.
Proof.
  split; [reflexivity|]. split; [reflexivity|].
  refine (proj1 (total_within_max (Sample.scores 7) Sample.config Sample.paper _)
            (Sample.view Sample.answers) _ ltac:(reflexivity) ltac:(reflexivity)).
  - intros q Hq.
    change (allQuestions Sample.paper)
      with [Sample.capital; Sample.noKey; Sample.essay1; Sample.essay2;
            Sample.essay3] in Hq.
    repeat (apply elem_of_cons in Hq as [->|Hq]; [cbn; lia|]).
    now apply not_elem_of_nil in Hq.
  - intros q k fb Hq Hw [= <-].
    change (allQuestions Sample.paper)
      with [Sample.capital; Sample.noKey; Sample.essay1; Sample.essay2;
            Sample.essay3] in Hq.
    repeat (apply elem_of_cons in Hq as [->|Hq];
            [try discriminate Hw; cbn; lia|]).
    now apply not_elem_of_nil in Hq.
Defined.

(** ** The session and the endpoint *)

Section SessionFacts.

Lemma apply_consistent st e : consistent st → safe st e → consistent (App.apply st e).
Proof.
  intros (Hc & Hp & Ht & Hr) Hs. unfold consistent.
  destruct e as [m| | | | | | |]; cbn in *; try (repeat split; eauto; fail).
  destruct m; cbn in *; repeat split; try tauto; try discriminate; eauto.
Qed.

Lemma offered_safe alerts st e :
  consistent st → Session.offered st e = true →
  allSafe st (Session.effects alerts st e).
Proof.
  intros (Hc & Hp & Ht & Hr) Hoff.
  destruct e as [c|units reply|units z paperReply speechReply| | | |];
    cbn [Session.effects].
  - cbn. eauto.
  - unfold App.handleVocabStartWith.
    destruct (App.config st) as [c|] eqn:Ec; [|exact I].
    destruct reply as [d|]; cbn; rewrite ?Ec; eauto 10.
  - unfold App.handleTestStartWith.
    destruct (App.config st) as [c|] eqn:Ec; [|exact I].
    destruct paperReply as [p|]; [|cbn; rewrite ?Ec; eauto 10].
    destruct (JsString.truthyOpt (TestPaperData.listeningScript p));
      [destruct speechReply|]; cbn; rewrite ?Ec; eauto 10.
  - cbn. eauto.
  - cbn in Hoff. unfold App.render in Hoff.
    destruct (App.isLoading st); [discriminate|].
    destruct (App.mode st) eqn:Em; try discriminate.
    + destruct (App.config st); discriminate.
    + cbn. split; [|exact I]. destruct Hc as [?|?]; [discriminate | assumption].
    + cbn. split; [|exact I]. destruct Hc as [?|?]; [discriminate | assumption].
  - destruct (App.config st) as [c|] eqn:Ec; cbn; rewrite ?Ec; eauto.
  - cbn in Hoff. destruct (App.config st) as [c|] eqn:Ec; [|discriminate].
    cbn. rewrite Ec. eauto.
Qed.

(** Whether the effects to come are safe does not depend on the mode. *)
Lemma allSafe_mode es : ∀ st st',
  App.config st' = App.config st →
  App.practiceData st' = App.practiceData st →
  App.testPaper st' = App.testPaper st →
  allSafe st es → allSafe st' es.
Proof.
  induction es as [|e es IH]; intros st st' Hc Hp Ht; [trivial|].
  cbn [allSafe]. intros [He Hes]. split.
  - destruct e as [m| | | | | | |]; cbn in *; trivial.
    destruct m; cbn in *; rewrite ?Hc, ?Hp, ?Ht; exact He.
  - apply (IH (App.apply st e)); [| | |exact Hes];
      destruct e; cbn; congruence.
Qed.

Lemma step_consistent alerts r r' :
  Session.step alerts r r' →
  consistent (Session.state r) ∧ allSafe (Session.state r) (Session.pending r) →
  consistent (Session.state r') ∧ allSafe (Session.state r') (Session.pending r').
Proof.
  intros Hstep. destruct Hstep as [st e Hoff | st e es | st es e Hnav Hoff];
    cbn [Session.state Session.pending]; intros [Hc Hs].
  - split; [exact Hc | now apply offered_safe].
  - destruct Hs as [He Hes]. split; [now apply apply_consistent | exact Hes].
  - assert (Hsafe := offered_safe alerts st e Hc Hoff).
    destruct e; try discriminate; cbn [Session.effects] in *.
    + destruct (App.config st) eqn:Ec; cbn [App.run fold_left]; [|now split].
      destruct Hsafe as [Hsafe _].
      split; [now apply apply_consistent|].
      now apply (allSafe_mode es st).
    + cbn [App.run fold_left]. destruct Hsafe as [Hsafe _].
      split; [now apply apply_consistent|].
      now apply (allSafe_mode es st).
Qed.

Lemma reachable_consistent alerts r :
  Session.reachable alerts r →
  consistent (Session.state r) ∧ allSafe (Session.state r) (Session.pending r).
Proof.
  induction 1 as [|r r' Hreach IH Hstep].
  - cbn. split; [|exact I]. unfold consistent. cbn.
    repeat split; try discriminate. now left.
  - now apply (step_consistent alerts r r').
Qed.

End SessionFacts.

(** X13: Whatever the user does and however the gateway answers,
    the state of [App] stays consistent in every state it goes through,
    in both variants, also when the navigation bar is used while a handler
    waits for the gateway: outside the setup there is a configuration, the
    practice mode has its data and the test mode its paper, and the mode
    [TestResult] is never entered. Hence the guards of [<main>] never all
    fail: the spinner or one of the four child components is selected, and
    the configuration that [TestPaperView] takes for granted is passed to
    it. What the selected child renders is not covered. *)
Theorem session_selects_a_view alerts r :
  Session.reachable alerts r →
  let st := Session.state r in
  consistent st ∧
  App.render st ≠ App.VNothing ∧
  (∀ p c, App.render st = App.VTestPaper p c → is_Some c).
Proof.
  intros Hreach st.
  destruct (reachable_consistent alerts r Hreach) as [Hc _]. fold st in Hc.
  split; [exact Hc|]. destruct Hc as (Hc & Hp & Ht & Hr).
  unfold App.render. destruct (App.isLoading st); [split; [discriminate|]; discriminate|].
  destruct (App.mode st) eqn:Em.
  - split; discriminate.
  - destruct Hc as [?|[c Hc]]; [discriminate|]. rewrite Hc. split; discriminate.
  - destruct (Hp eq_refl) as [d Hd]. rewrite Hd. split; discriminate.
  - destruct (Ht eq_refl) as [p Hp']. rewrite Hp'. split; [discriminate|].
    intros p' c [= _ <-]. destruct Hc as [?|?]; [discriminate | assumption].
  - contradiction.
Qed.

(** Witness of X13: the dashboard reached by saving a configuration. *)
Lemma session_selects_a_view_witness :
  let st :=
    App.run App.initial
      (Session.effects Session.alerts1 App.initial
         (Session.SaveConfig Sample.config)) in
  App.render st = App.VDashboard Sample.config ∧
  App.render st ≠ App.VNothing.
Proof.
  intros st. split; [reflexivity|].
  apply (session_selects_a_view Session.alerts1
           {| Session.state := st; Session.pending := [] |}).
  eapply Session.reachable_step;
    [eapply Session.reachable_step;
       [eapply Session.reachable_step; [apply Session.reachable_initial|]|]|].
  - apply (Session.step_start Session.alerts1 App.initial
             (Session.SaveConfig Sample.config)). reflexivity.
  - apply Session.step_effect.
  - apply Session.step_effect.
Defined.

(** X14: The client and the endpoint agree on the actions: each
    function of the API-backed gateway reaches its own handler, whose
    response comes back unchanged, and an error thrown by the handler comes
    back as status 500 with the error object and rejects the call. The
    endpoint knows no other action: anything else is answered with status
    400, a method other than POST with status 405, and both reject the
    call. *)
Theorem endpoint_routes_client_calls {P J : Type} (errorObject : string → J)
    (handlers : Endpoint.Handler → P → Endpoint.Attempt (Endpoint.Response J)) :
  (∀ c payload,
     Endpoint.serve errorObject handlers
       (Endpoint.post (Endpoint.action c) payload)
     = match handlers (handlerOf c) payload with
       | Endpoint.Returned response => response
       | Endpoint.Threw message =>
           {| Endpoint.status := 500;
              Endpoint.content := Endpoint.Json (errorObject message) |}
       end ∧
     Endpoint.callApi errorObject handlers c payload
     = match handlers (handlerOf c) payload with
       | Endpoint.Returned response =>
           Gateway.callApi (Endpoint.received response)
       | Endpoint.Threw _ => Rejected
       end) ∧
  (∀ a h, Endpoint.route a = Some h →
          ∃ c, a = Endpoint.action c ∧ h = handlerOf c) ∧
  (∀ a payload,
     Endpoint.route a = None →
     Endpoint.serve errorObject handlers (Endpoint.post a payload)
     = {| Endpoint.status := 400;
          Endpoint.content := Endpoint.Text "Unknown action" |} ∧
     Gateway.callApi
       (Endpoint.received
          (Endpoint.serve errorObject handlers (Endpoint.post a payload)))
     = Rejected) ∧
  (∀ req,
     Endpoint.method req ≠ "POST" →
     Endpoint.serve errorObject handlers req
     = {| Endpoint.status := 405;
          Endpoint.content := Endpoint.Text "Method Not Allowed" |} ∧
     Gateway.callApi (Endpoint.received (Endpoint.serve errorObject handlers req))
     = Rejected).
Proof.
  split; [|split; [|split]].
  - intros c payload.
    assert (Hs : Endpoint.serve errorObject handlers
                   (Endpoint.post (Endpoint.action c) payload)
       = match handlers (handlerOf c) payload with
         | Endpoint.Returned response => response
         | Endpoint.Threw message =>
             {| Endpoint.status := 500;
                Endpoint.content := Endpoint.Json (errorObject message) |}
         end) by (destruct c; reflexivity).
    split; [exact Hs|]. unfold Endpoint.callApi. rewrite Hs.
    destruct (handlers (handlerOf c) payload); reflexivity.
  - intros a h. unfold Endpoint.route.
    destruct (String.eqb_spec a "generateVocabAndGrammar") as [->|_];
      [intros [= <-]; now exists Endpoint.GenerateVocabAndGrammar|].
    destruct (String.eqb_spec a "generateTestPaper") as [->|_];
      [intros [= <-]; now exists Endpoint.GenerateTestPaper|].
    destruct (String.eqb_spec a "generateSpeech") as [->|_];
      [intros [= <-]; now exists Endpoint.GenerateSpeech|].
    destruct (String.eqb_spec a "gradeWriting") as [->|_];
      [intros [= <-]; now exists Endpoint.GradeWriting|].
    destruct (String.eqb_spec a "lookupWord") as [->|_];
      [intros [= <-]; now exists Endpoint.LookupWord|].
    discriminate.
  - intros a payload Hr.
    assert (Hs : Endpoint.serve errorObject handlers (Endpoint.post a payload)
       = {| Endpoint.status := 400;
            Endpoint.content := Endpoint.Text "Unknown action" |}).
    { unfold Endpoint.serve, Endpoint.post. cbn. now rewrite Hr. }
    split; [exact Hs|]. now rewrite Hs.
  - intros req Hm.
    assert (Hs : Endpoint.serve errorObject handlers req
       = {| Endpoint.status := 405;
            Endpoint.content := Endpoint.Text "Method Not Allowed" |}).
    { unfold Endpoint.serve. destruct (String.eqb_spec (Endpoint.method req) "POST");
        [contradiction | reflexivity]. }
    split; [exact Hs|]. now rewrite Hs.
Qed.

(** Witness of X14: a GET request, and a grading call whose handler throws. *)
Lemma endpoint_routes_client_calls_witness :
  let errorObject : string → string := fun message => message in
  let handlers : Endpoint.Handler → unit → Endpoint.Attempt (Endpoint.Response string) :=
    fun _ _ => Endpoint.Threw "quota" in
  Endpoint.serve errorObject handlers
    {| Endpoint.method := "GET"; Endpoint.body := Endpoint.Threw "no body" |}
  = {| Endpoint.status := 405;
       Endpoint.content := Endpoint.Text "Method Not Allowed" |} ∧
  Endpoint.callApi errorObject handlers Endpoint.GradeWriting tt = Rejected.
Proof.
  intros errorObject handlers. split.
  - apply (proj2 (proj2 (proj2 (endpoint_routes_client_calls errorObject handlers)))).
    discriminate.
  - exact (proj2 (proj1 (endpoint_routes_client_calls errorObject handlers)
                    Endpoint.GradeWriting tt)).
Defined.

(** ** Identifiers and unplayable audio *)

Section IdFacts.

Import Endpoint.

Lemma uint_noHyphen d : noHyphen (NilEmpty.string_of_uint d) = true.
Proof. induction d; simpl; auto. Qed.

Lemma index_noHyphen (i : nat) : noHyphen (numberToString (Z.of_nat i)) = true.
Proof.
  unfold numberToString. destruct (Z.of_nat i) as [|p|p] eqn:E; try lia.
  - reflexivity.
  - simpl. unfold NilZero.string_of_uint.
    destruct (Pos.to_uint p); try apply uint_noHyphen. reflexivity.
Qed.

Lemma numberToString_inj a b : numberToString a = numberToString b → a = b.
Proof.
  unfold numberToString. intros E.
  assert (Hnz : ∀ n, Z.to_int n ≠ Decimal.Pos Decimal.Nil ∧
                     Z.to_int n ≠ Decimal.Neg Decimal.Nil).
  { intros [|p|p]; simpl; split; try discriminate;
      intros [= H]; now apply DecimalPos.Unsigned.to_uint_nonnil in H. }
  apply DecimalZ.to_int_inj.
  assert (Ha := NilZero.isi (Z.to_int a) (proj1 (Hnz a)) (proj2 (Hnz a))).
  assert (Hb := NilZero.isi (Z.to_int b) (proj1 (Hnz b)) (proj2 (Hnz b))).
  rewrite E in Ha. congruence.
Qed.

(** What follows the last hyphen determines the index. *)
Lemma after_hyphen a : ∀ b x y,
  noHyphen x = true → noHyphen y = true →
  a +:+ String "-" x = b +:+ String "-" y → x = y.
Proof.
  induction a as [|c a IH]; intros b x y Hx Hy E.
  - destruct b as [|c' b]; rewrite ?append_nil, ?append_cons in E.
    + now injection E.
    + injection E as <- E. subst x. exfalso. clear -Hx.
      induction b as [|d b IH]; rewrite ?append_nil, ?append_cons in Hx;
        simpl in Hx; [discriminate|].
      apply andb_true_iff in Hx as [_ Hx]. now apply IH.
  - destruct b as [|c' b]; rewrite ?append_nil, ?append_cons in E.
    + injection E as -> E. subst y. exfalso. clear -Hy.
      induction a as [|d a IH]; rewrite ?append_nil, ?append_cons in Hy;
        simpl in Hy; [discriminate|].
      apply andb_true_iff in Hy as [_ Hy]. now apply IH.
    + injection E as _ E. now apply (IH b).
Qed.

Lemma vocabId_inj now1 now2 (i j : nat) : vocabId now1 i = vocabId now2 j → i = j.
Proof.
  unfold vocabId. intros E.
  change ("vocab-" +:+ numberToString now1 +:+ "-" +:+ numberToString (Z.of_nat i))
    with (("vocab-" +:+ numberToString now1)
          +:+ String "-" (numberToString (Z.of_nat i))) in E.
  change ("vocab-" +:+ numberToString now2 +:+ "-" +:+ numberToString (Z.of_nat j))
    with (("vocab-" +:+ numberToString now2)
          +:+ String "-" (numberToString (Z.of_nat j))) in E.
  apply after_hyphen in E; try apply index_noHyphen.
  apply numberToString_inj in E. lia.
Qed.

Lemma vocabWithIdsFrom_ids clock vocab : ∀ index id,
  id ∈ List.map VocabItem.id (vocabWithIdsFrom clock index vocab) →
  ∃ j, (index ≤ j)%nat ∧ id = vocabId (clock j) j.
Proof.
  induction vocab as [|item vocab IH]; intros index id Hid; cbn in Hid.
  - now apply not_elem_of_nil in Hid.
  - apply elem_of_cons in Hid as [->|Hid]; [exists index; split; [lia | reflexivity]|].
    destruct (IH _ _ Hid) as (j & Hj & ->). exists j. split; [lia | reflexivity].
Qed.

Lemma vocabWithIdsFrom_NoDup clock vocab : ∀ index,
  NoDup (List.map VocabItem.id (vocabWithIdsFrom clock index vocab)).
Proof.
  induction vocab as [|item vocab IH]; intros index; cbn; constructor; [|apply IH].
  intros Hin. apply vocabWithIdsFrom_ids in Hin as (j & Hj & E).
  apply vocabId_inj in E. lia.
Qed.

Lemma vocabWithIdsFrom_fields clock vocab : ∀ index,
  List.map (fun i => (VocabItem.english i, VocabItem.chinese i,
                      VocabItem.partOfSpeech i, VocabItem.example i))
    (vocabWithIdsFrom clock index vocab)
  = List.map (fun i => (VocabItem.english i, VocabItem.chinese i,
                        VocabItem.partOfSpeech i, VocabItem.example i)) vocab.
Proof.
  induction vocab as [|item vocab IH]; intros index; cbn; [reflexivity|].
  now rewrite IH.
Qed.

End IdFacts.

(** X15: The identifiers that the gateway gives to the vocabulary
    items are pairwise distinct, whatever the clock returns and whatever
    identifiers the items came with; the other fields and the order of the
    items are kept, and a missing list gives no item. *)
Theorem vocab_ids_distinct clock vocab :
  let items := Endpoint.vocabWithIds clock vocab in
  let given := match vocab with Some l => l | None => [] end in
  NoDup (List.map VocabItem.id items) ∧
  List.map (fun i => (VocabItem.english i, VocabItem.chinese i,
                      VocabItem.partOfSpeech i, VocabItem.example i)) items
  = List.map (fun i => (VocabItem.english i, VocabItem.chinese i,
                        VocabItem.partOfSpeech i, VocabItem.example i)) given ∧
  (∀ (i : nat) item, items !! i = Some item →
                     VocabItem.id item = Endpoint.vocabId (clock i) i).
Proof.
  intros items given. split; [apply vocabWithIdsFrom_NoDup|].
  split; [apply vocabWithIdsFrom_fields|].
  intros i item. unfold items, Endpoint.vocabWithIds. fold given.
  replace i with (0 + i)%nat at 2 3 by lia. generalize 0%nat.
  revert i. induction given as [|g given IH]; intros i k Hi; [discriminate|].
  destruct i as [|i]; cbn in Hi.
  - injection Hi as <-. cbn. now rewrite Nat.add_0_r.
  - replace (k + S i)%nat with (S k + i)%nat by lia. now apply IH.
Qed.

(** Witness of X15: two words stamped at the same millisecond. *)
Lemma vocab_ids_distinct_witness :
  List.map VocabItem.id
    (Endpoint.vocabWithIds (fun _ => 1730000000000) (Some Practice.items))
  = ["vocab-1730000000000-0"; "vocab-1730000000000-1"] ∧
  NoDup
    (List.map VocabItem.id
       (Endpoint.vocabWithIds (fun _ => 1730000000000) (Some Practice.items))).
Proof.
  split; [reflexivity|].
  exact (proj1 (vocab_ids_distinct (fun _ => 1730000000000)
                  (Some Practice.items))).
Defined.

Section AudioFailures.

Import Audio.

Lemma elem_rev {A} (c : A) l : c ∈ rev l ↔ c ∈ l.
Proof. rewrite !list_elem_of_In. symmetry. apply in_rev. Qed.

Lemma stripPadding_keeps c l : c ∈ l → c ≠ padChar → c ∈ stripPadding l.
Proof.
  intros Hin Hc. unfold stripPadding.
  assert (Hrev : c ∈ rev l) by (now apply elem_rev).
  destruct (rev l) as [|p1 [|p2 r]] eqn:E.
  - exact Hin.
  - destruct (Ascii.eqb_spec p1 padChar) as [->|_]; [|exact Hin].
    apply list_elem_of_singleton in Hrev. contradiction.
  - destruct (Ascii.eqb_spec p1 padChar) as [->|_]; [|exact Hin].
    apply elem_of_cons in Hrev as [?|Hrev]; [contradiction|].
    destruct (Ascii.eqb_spec p2 padChar) as [->|_].
    + apply elem_of_cons in Hrev as [?|Hrev]; [contradiction|].
      now apply elem_rev.
    + now apply elem_rev.
Qed.

Lemma indices_known l ixs c : indices l = Some ixs → c ∈ l → is_Some (b64Index c).
Proof.
  revert ixs. induction l as [|d l IH]; intros ixs H Hc.
  - now apply not_elem_of_nil in Hc.
  - cbn in H. destruct (b64Index d) as [i|] eqn:Ed; [|discriminate].
    destruct (indices l) as [ixs'|]; [|discriminate].
    apply elem_of_cons in Hc as [->|Hc]; [rewrite Ed; eauto | eapply IH; eauto].
Qed.

Lemma atob_foreign payload c :
  c ∈ list_ascii_of_string payload →
  isAsciiWhitespace c = false → c ≠ padChar → b64Index c = None →
  atob payload = None.
Proof.
  intros Hin Hws Hpad Hix. unfold atob.
  set (l := List.filter (fun c => negb (isAsciiWhitespace c))
              (list_ascii_of_string payload)).
  assert (Hl : c ∈ l).
  { apply list_elem_of_In, filter_In. split; [now apply list_elem_of_In|].
    now rewrite Hws. }
  set (l' := if (length l mod 4 =? 0)%nat then stripPadding l else l).
  assert (Hl' : c ∈ l').
  { unfold l'. destruct (length l mod 4 =? 0)%nat; [|exact Hl].
    now apply stripPadding_keeps. }
  destruct (length l' mod 4 =? 1)%nat; [reflexivity|].
  destruct (indices l') as [ixs|] eqn:E; [|reflexivity].
  destruct (indices_known _ _ _ E Hl') as [i Hi]. congruence.
Qed.

Lemma int16Array_odd bytes : Nat.odd (length bytes) = true → int16Array bytes = None.
Proof.
  induction bytes as [| |a b l IH] using list_ind2; intros H.
  - discriminate.
  - reflexivity.
  - cbn [int16Array]. rewrite IH; [reflexivity|]. exact H.
Qed.

Lemma truthy_elem c payload :
  c ∈ list_ascii_of_string payload → JsString.truthy payload = true.
Proof. destruct payload; [intros H; now apply not_elem_of_nil in H | reflexivity]. Qed.

End AudioFailures.

(** X16: Payloads that cannot be played: one that holds a character
    outside the base64 alphabet, other than white space and padding; one
    that encodes an odd number of bytes; one made of white space only. On
    each of them [playAudio] starts no playback, shows the failure alert
    and leaves [isPlaying] unset, the answers being untouched. *)
Theorem unplayable_payloads paper payload view :
  TestPaperData.listeningAudioBase64 paper = Some payload →
  TestPaperView.isPlaying view = false →
  (∃ c, c ∈ list_ascii_of_string payload ∧
        Audio.isAsciiWhitespace c = false ∧ c ≠ Audio.padChar ∧
        Audio.b64Index c = None) ∨
  (∃ bytes, payload = Audio.base64Encode bytes ∧ Forall isByte bytes ∧
            Nat.odd (length bytes) = true) ∨
  (payload ≠ "" ∧
   Forall (λ c, Audio.isAsciiWhitespace c = true) (list_ascii_of_string payload)) →
  ∀ platformOk,
    ∃ view',
      Audio.playAudio platformOk paper view = (view', None, true) ∧
      TestPaperView.isPlaying view' = false ∧
      TestPaperView.answers view' = TestPaperView.answers view.
Proof.
  intros Hp Hplay Hbad platformOk.
  assert (Hstart : JsString.truthy payload = true ∧
                   match Audio.decodeSamples payload with
                   | Some float32Data => Audio.createBuffer 1 float32Data 24000
                   | None => None
                   end = None).
  { destruct Hbad as [(c & Hin & Hws & Hpad & Hix) | [(bytes & -> & Hb & Hodd) | [Hne Hws]]].
    - split; [eapply truthy_elem; exact Hin|].
      unfold Audio.decodeSamples. now rewrite (atob_foreign payload c).
    - split.
      + destruct bytes as [|a [|b [|c l]]]; try discriminate; reflexivity.
      + unfold Audio.decodeSamples.
        rewrite atob_base64Encode by exact Hb.
        rewrite bytesOfBinaryString_fromCharCode by exact Hb.
        now rewrite int16Array_odd.
    - split; [now apply truthy_true|].
      unfold Audio.decodeSamples, Audio.atob.
      assert (Hnil : List.filter (fun c => negb (Audio.isAsciiWhitespace c))
                       (list_ascii_of_string payload) = []).
      { induction Hws as [|c l Hc Hl IH]; [reflexivity|]. cbn. now rewrite Hc. }
      rewrite Hnil. reflexivity. }
  destruct Hstart as [Htruthy Hnone].
  unfold Audio.playAudio. rewrite Hp, Htruthy, Hplay. cbn [negb orb].
  destruct platformOk; rewrite ?Hnone; eexists; repeat split; reflexivity.
Qed.

(** Witness of X16: a payload with an asterisk. *)
Lemma unplayable_payloads_witness :
  let paper := App.attachAudio Sample.paper (Some "AAA*") in
  ∃ view',
    Audio.playAudio true paper (Sample.view Sample.answers) = (view', None, true) ∧
    TestPaperView.isPlaying view' = false ∧
    TestPaperView.answers view' = Sample.answers.
Proof.
  intros paper.
  apply (unplayable_payloads paper "AAA*" (Sample.view Sample.answers));
    [reflexivity | reflexivity |].
  left. exists "*"%char. split; [|repeat split; discriminate].
  right. right. right. left.
Defined.

(** X17: A playback that starts sets [isPlaying], and while it is
    set [playAudio] does nothing: no second playback starts on top of
    the first one, and no alert is shown. *)
Theorem playback_never_overlaps platformOk paper view view' buffer alert :
  Audio.playAudio platformOk paper view = (view', Some buffer, alert) →
  TestPaperView.isPlaying view = false ∧
  TestPaperView.isPlaying view' = true ∧
  TestPaperView.answers view' = TestPaperView.answers view ∧
  alert = false ∧
  ∀ platformOk', Audio.playAudio platformOk' paper view' = (view', None, false).
Proof.
  unfold Audio.playAudio.
  destruct (TestPaperData.listeningAudioBase64 paper) as [payload|]; [|discriminate].
  destruct (JsString.truthy payload); [|discriminate].
  destruct (TestPaperView.isPlaying view) eqn:Hplay; [discriminate|]. cbn [negb orb].
  destruct (if platformOk then _ else _) as [b|]; [|discriminate].
  intros [= <- <- <-]. cbn. repeat split; reflexivity.
Qed.

(** Witness of X17: a payload of two samples, played twice. *)
Lemma playback_never_overlaps_witness :
  let paper :=
    App.attachAudio Sample.paper
      (Some (Audio.base64Encode (Audio.bytesOfSamples [-32768; 32767]))) in
  ∃ view' buffer,
    Audio.playAudio true paper (Sample.view ∅) = (view', Some buffer, false) ∧
    Audio.playAudio true paper view' = (view', None, false).
Proof.
  intros paper.
  destruct (Audio.playAudio true paper (Sample.view ∅)) as [[view' [buffer|]] alert] eqn:E;
    [|vm_compute in E; discriminate].
  destruct (playback_never_overlaps true paper (Sample.view ∅) view' buffer alert E)
    as (_ & _ & _ & -> & Hnext).
  exists view', buffer. split; [reflexivity | apply Hnext].
Defined.

(** ** The segments of a story *)

Section SegmentFacts.

Import Grammar.

Lemma search_none_cons c s :
  search (String c s) = None → matchAt (String c s) = None ∧ search s = None.
Proof.
  intros H. cbn [search] in H.
  destruct (matchAt (String c s)) as [[ds n]|]; [discriminate|]. now split.
Qed.

Lemma splitFrom_plain s : search s = None → splitFrom 0 s = (s, []).
Proof.
  induction s as [|c s IH]; intros H; [reflexivity|].
  apply search_none_cons in H as [Hm Hs].
  cbn [splitFrom]. rewrite Hm, (IH Hs). reflexivity.
Qed.

Lemma Alternating_parity segs :
  Alternating segs →
  (∃ k : nat, length segs = (2 * k + 1)%nat) ∧
  ∀ (i : nat) seg,
    (segs !! (2 * i)%nat = Some seg → search seg = None) ∧
    (segs !! (2 * i + 1)%nat = Some seg →
     ∃ ds, seg = placeholder ds ∧ ds ≠ "" ∧ allDigits ds = true).
Proof.
  induction 1 as [t Ht | t ds rest Ht Hds Hall Halt [[k Hk] IH]].
  - split; [exists 0%nat; reflexivity|]. intros i seg. split.
    + destruct i; [intros [= <-]; exact Ht | discriminate].
    + replace (2 * i + 1)%nat with (S (2 * i)) by lia. discriminate.
  - split; [exists (S k); cbn [length]; lia|]. intros i seg. split.
    + destruct i as [|i]; [intros [= <-]; exact Ht|].
      replace (2 * S i)%nat with (S (S (2 * i))) by lia. cbn. apply IH.
    + destruct i as [|i]; [intros [= <-]; eauto|].
      replace (2 * S i + 1)%nat with (S (S (2 * i + 1))) by lia. cbn. apply IH.
Qed.

End SegmentFacts.

(** X18: The segments of a story are odd in number: the texts
    between the placeholders at the even positions, which both variants
    render as they are, and the placeholders at the odd positions. A story
    without placeholder is a single text. *)
Theorem segments_alternate data st st2 :
  let segments := Grammar.split (GrammarPracticeData.story data) in
  (∃ k : nat, length segments = (2 * k + 1)%nat) ∧
  length (Grammar.render data st) = length segments ∧
  length (Grammar.render2 data st2) = length segments ∧
  (∀ (i : nat) seg,
     segments !! (2 * i)%nat = Some seg →
     Grammar.render data st !! (2 * i)%nat = Some (Some (Grammar.Span seg)) ∧
     Grammar.render2 data st2 !! (2 * i)%nat = Some (Some (Grammar.Span seg))) ∧
  (∀ (i : nat) seg,
     segments !! (2 * i + 1)%nat = Some seg →
     ∃ ds, seg = Grammar.placeholder ds ∧ ds ≠ "" ∧ allDigits ds = true) ∧
  (Grammar.search (GrammarPracticeData.story data) = None →
   segments = [GrammarPracticeData.story data]).
Proof.
  intros segments.
  destruct (split_spec (GrammarPracticeData.story data)) as [_ Halt].
  destruct (Alternating_parity _ Halt) as [Hodd Hpos]. fold segments in Hpos, Hodd.
  split; [exact Hodd|].
  split; [apply length_map|]. split; [apply length_map|].
  split; [|split].
  - intros i seg Hseg.
    assert (Hs := proj1 (Hpos i seg) Hseg).
    unfold Grammar.render, Grammar.render2. fold segments.
    change (List.map ?f ?l) with (f <$> l).
    rewrite !list_lookup_fmap, Hseg. cbn [fmap option_fmap option_map].
    unfold Grammar.renderSegment, Grammar.renderSegment2. now rewrite Hs.
  - intros i seg Hseg. exact (proj2 (Hpos i seg) Hseg).
  - intros Hs. unfold segments, Grammar.split.
    now rewrite (splitFrom_plain _ Hs).
Qed.

(** Witness of X18: the text between the two placeholders of the sample passage. *)
Lemma segments_alternate_witness :
  Grammar.render Sample.passage
    {| Grammar.answers := ∅; Grammar.isChecked := false |} !! 2%nat
  = Some (Some (Grammar.Span " to the zoo and ")).
Proof.
  exact (proj1 (proj1 (proj2 (proj2 (proj2
    (segments_alternate Sample.passage
       {| Grammar.answers := ∅; Grammar.isChecked := false |}
       {| Grammar.inputs := ∅; Grammar.results := ∅;
          Grammar.showResults := false |}))))
    1%nat " to the zoo and " ltac:(reflexivity))).
Defined.

(** ** Strict and lenient comparison, word lookup *)

(** X19: For an objective question whose key is present and not
    empty, an answer that the second variant accepts is accepted by the
    first one: the strict comparison implies the lenient one. With maximal
    scores that are not negative, the objective total of the second variant
    is then at most that of the first. *)
Theorem lenient_covers_strict ans qs :
  (∀ q, q ∈ qs → isObjective q = true →
        0 <= Question.maxScore q ∧
        ∃ c, Question.correctAnswer q = Given c ∧ c ≠ "") →
  (∀ q, q ∈ qs → isObjective q = true →
        TestPaperView2.strictEq (JsObject.get ans (Question.id q))
          (Question.correctAnswer q)
        = true →
        TestPaperView.isMatch (JsObject.get ans (Question.id q))
          (Question.correctAnswer q)
        = Some true) ∧
  objectiveTotal2 ans qs <= objectiveTotal ans qs.
Proof.
  intros Hkeys.
  assert (Hstep : ∀ q, q ∈ qs → isObjective q = true →
            TestPaperView2.strictEq (JsObject.get ans (Question.id q))
              (Question.correctAnswer q)
            = true →
            TestPaperView.isMatch (JsObject.get ans (Question.id q))
              (Question.correctAnswer q)
            = Some true).
  { intros q Hq Ho Hs. destruct (Hkeys q Hq Ho) as (_ & c & Hc & Hne).
    rewrite Hc in *. unfold TestPaperView2.strictEq in Hs.
    destruct (JsObject.get ans (Question.id q)) as [[a|name]|]; try discriminate.
    apply String.eqb_eq in Hs. subst a. unfold TestPaperView.isMatch.
    rewrite (proj2 (truthy_true c) Hne), String.eqb_refl. reflexivity. }
  split; [exact Hstep|].
  induction qs as [|q qs IH]; [cbn; lia|].
  cbn [objectiveTotal2 objectiveTotal fold_right].
  fold (objectiveTotal2 ans qs). fold (objectiveTotal ans qs).
  assert (IH' : objectiveTotal2 ans qs <= objectiveTotal ans qs).
  { apply IH.
    - intros q' Hq'. apply Hkeys. now right.
    - intros q' Hq'. apply Hstep. now right. }
  destruct (isObjective q) eqn:Ho; [|lia].
  destruct (Hkeys q ltac:(left) Ho) as (Hmax & _).
  specialize (Hstep q ltac:(left) Ho).
  unfold objectiveAward2, objectiveAward.
  destruct (TestPaperView2.strictEq _ _).
  - rewrite Hstep by reflexivity. lia.
  - destruct (TestPaperView.isMatch _ _) as [[]|]; lia.
Qed.

(** Witness of X19: the capital question, answered in another spelling. *)
Lemma lenient_covers_strict_witness :
  objectiveTotal2 Sample.answers [Sample.capital]
  <= objectiveTotal Sample.answers [Sample.capital] ∧
  objectiveTotal2 Sample.answers [Sample.capital] = 0 ∧
  objectiveTotal Sample.answers [Sample.capital] = 5.
Proof.
  split; [|split; reflexivity].
  apply (lenient_covers_strict Sample.answers [Sample.capital]).
  intros q Hq _. apply list_elem_of_singleton in Hq. subst q.
  split; [cbn; lia|]. exists "paris". split; [reflexivity | discriminate].
Defined.

Section LookupFacts.

Import TextSelectionLookup.

Lemma splitOnSpace_length s : length (splitOnSpace s) = S (countSpaces s).
Proof.
  induction s as [|c s IH]; [reflexivity|]. cbn [splitOnSpace countSpaces].
  destruct (Ascii.eqb c " "); cbn [length]; [now rewrite IH|].
  destruct (splitOnSpace s); cbn in *; lia.
Qed.

Lemma handleMouseUp_lookable sel st s :
  (∀ s', selection st = Some s' → lookable (text s')) →
  selection (handleMouseUp sel st) = Some s → lookable (text s).
Proof.
  intros Hst. unfold handleMouseUp.
  destruct sel as [[selected pos]|]; [|discriminate].
  destruct (JsString.truthy (JsString.trim selected)) eqn:Ht; [|apply Hst].
  destruct (String.length (JsString.trim selected) <? 50)%nat eqn:Hl; [|apply Hst].
  destruct (length (splitOnSpace (JsString.trim selected)) <=? 4)%nat eqn:Hs;
    [|apply Hst].
  cbn. intros [= <-]. cbn. unfold lookable.
  split; [now apply truthy_true|]. split; [apply trim_idem|].
  apply Nat.ltb_lt in Hl. apply Nat.leb_le in Hs.
  rewrite splitOnSpace_length in Hs. lia.
Qed.

Lemma handle_lookable st e :
  (∀ s, selection st = Some s → lookable (text s)) →
  (∀ s, selection (fst (handle st e)) = Some s → lookable (text s)) ∧
  (∀ w, snd (handle st e) = Some w → lookable w).
Proof.
  intros Hst. destruct e as [sel| |reply|]; cbn [handle fst snd].
  - split; [|discriminate]. intros s. now apply handleMouseUp_lookable.
  - unfold handleLookup. destruct (selection st) as [s|] eqn:E; cbn.
    + split; [exact Hst|]. intros w [= <-]. now apply Hst.
    + split; [|discriminate]. intros s. rewrite E. discriminate.
  - split; [exact Hst | discriminate].
  - split; discriminate.
Qed.

Lemma play_lookable events : ∀ st,
  (∀ s, selection st = Some s → lookable (text s)) →
  (∀ s, selection (fst (play st events)) = Some s → lookable (text s)) ∧
  Forall lookable (snd (play st events)).
Proof.
  induction events as [|e events IH]; intros st Hst.
  - split; [exact Hst | constructor].
  - cbn [play]. destruct (handle st e) as [st1 r] eqn:E.
    destruct (handle_lookable st e Hst) as [H1 Hr]. rewrite E in H1, Hr.
    cbn [fst snd] in H1, Hr.
    destruct (IH st1 H1) as [H2 Hrs].
    destruct (play st1 events) as [st2 rs]. cbn [fst snd] in *.
    split; [exact H2|]. destruct r as [w|]; [|exact Hrs].
    constructor; [now apply Hr | exact Hrs].
Qed.

End LookupFacts.

(** X20: [TextSelectionLookup], both variants: whatever is selected
    and clicked, the text of the tooltip and every word sent to
    [lookupWord] is not empty, has no surrounding white space, is shorter
    than 50 characters and has at most three spaces. A selection that does
    not qualify leaves the tooltip as it is, a click without selection
    removes it, and a failed lookup keeps the definition and ends the
    loading. *)
Theorem lookup_words_bounded events :
  let final := TextSelectionLookup.play TextSelectionLookup.initial events in
  (∀ s, TextSelectionLookup.selection (fst final) = Some s →
        lookable (TextSelectionLookup.text s)) ∧
  Forall lookable (snd final) ∧
  (∀ st selected pos,
     ¬ lookable (JsString.trim selected) →
     TextSelectionLookup.handleMouseUp (Some (selected, pos)) st = st) ∧
  (∀ st,
     TextSelectionLookup.selection (TextSelectionLookup.handleMouseUp None st)
     = None ∧
     snd (TextSelectionLookup.handleLookup
            (TextSelectionLookup.handleMouseUp None st)) = None) ∧
  (∀ st,
     let st' := TextSelectionLookup.lookupSettled Rejected st in
     TextSelectionLookup.definition st' = TextSelectionLookup.definition st ∧
     TextSelectionLookup.loading st' = false ∧
     TextSelectionLookup.selection st' = TextSelectionLookup.selection st).
Proof.
  intros final.
  destruct (play_lookable events TextSelectionLookup.initial) as [Hsel Hreq];
    [discriminate|].
  split; [exact Hsel|]. split; [exact Hreq|]. split; [|split].
  - intros st selected pos Hno. unfold TextSelectionLookup.handleMouseUp.
    destruct (JsString.truthy (JsString.trim selected)) eqn:Ht; [|reflexivity].
    destruct (String.length (JsString.trim selected) <? 50)%nat eqn:Hl;
      [|reflexivity].
    destruct (length (TextSelectionLookup.splitOnSpace (JsString.trim selected))
              <=? 4)%nat eqn:Hs; [|reflexivity].
    exfalso. apply Hno. unfold lookable.
    split; [now apply truthy_true|]. split; [apply trim_idem|].
    apply Nat.ltb_lt in Hl. apply Nat.leb_le in Hs.
    rewrite splitOnSpace_length in Hs. lia.
  - intros st. split; reflexivity.
  - intros st st'. repeat split; reflexivity.
Qed.

(** Witness of X20: a word that qualifies, then five words that do not, then a lookup. *)
Lemma lookup_words_bounded_witness :
  let pos := (S754_zero false, S754_zero false) in
  let events :=
    [TextSelectionLookup.MouseUp (Some ("  zoo ", pos));
     TextSelectionLookup.MouseUp (Some ("we went to the zoo", pos));
     TextSelectionLookup.Lookup] in
  snd (TextSelectionLookup.play TextSelectionLookup.initial events) = ["zoo"] ∧
  Forall lookable
    (snd (TextSelectionLookup.play TextSelectionLookup.initial events)) ∧
  TextSelectionLookup.handleMouseUp (Some ("we went to the zoo", pos))
    TextSelectionLookup.initial
  = TextSelectionLookup.initial.
Proof.
  intros pos events. split; [reflexivity|].
  destruct (lookup_words_bounded events) as (_ & Hw & Hno & _).
  split; [exact Hw|]. apply Hno.
  intros (_ & _ & _ & H). vm_compute in H. lia.
Defined.

(** ** The answer forms *)

Section FormFacts.

Variable paper : TestPaperData.t.
Hypothesis distinct : NoDup (List.map Question.id (allQuestions paper)).

Lemma same_question q q' :
  q ∈ allQuestions paper → q' ∈ allQuestions paper →
  Question.id q = Question.id q' → q = q'.
Proof.
  revert distinct. generalize (allQuestions paper) as l.
  induction l as [|x l IH]; intros Hnd Hq Hq' E.
  - now apply not_elem_of_nil in Hq.
  - cbn in Hnd. apply NoDup_cons in Hnd as [Hx Hnd].
    apply elem_of_cons in Hq as [->|Hq]; apply elem_of_cons in Hq' as [->|Hq'].
    + reflexivity.
    + exfalso. apply Hx. rewrite E. apply list_elem_of_In, in_map, list_elem_of_In, Hq'.
    + exfalso. apply Hx. rewrite <- E. apply list_elem_of_In, in_map, list_elem_of_In, Hq.
    + now apply IH.
Qed.

Lemma handle_enterable st input :
  (∀ k a, TestPaperView.answers st !! k = Some a →
          ∃ q, q ∈ allQuestions paper ∧ Question.id q = k ∧ enterable q a) →
  ∀ k a, TestPaperView.answers (PaperForm.handle paper st input) !! k = Some a →
         ∃ q, q ∈ allQuestions paper ∧ Question.id q = k ∧ enterable q a.
Proof.
  intros Hst k a.
  assert (Hset : ∀ q v, q ∈ allQuestions paper → enterable q v →
            TestPaperView.answers (TestPaperView.handleAnswer (Question.id q) v st)
              !! k = Some a →
            ∃ q, q ∈ allQuestions paper ∧ Question.id q = k ∧ enterable q a).
  { intros q v Hq Hv. cbn. destruct (decide (Question.id q = k)) as [<-|Hk].
    - rewrite lookup_insert_eq. intros [= <-]. eauto.
    - rewrite lookup_insert_ne by exact Hk. apply Hst. }
  destruct input as [i o|i text]; cbn [PaperForm.handle].
  - destruct (allQuestions paper !! i) as [q|] eqn:Eq; [|apply Hst].
    assert (Hq : q ∈ allQuestions paper) by (eapply list_elem_of_lookup_2; eauto).
    destruct (Question.type q) eqn:Et; try apply Hst.
    destruct (Question.options q) as [options|] eqn:Eo; [|apply Hst].
    destruct (options !! o) as [opt|] eqn:Eopt; [|apply Hst].
    apply Hset; [exact Hq|]. unfold enterable. rewrite Et.
    exists options. split; [exact Eo | eapply list_elem_of_lookup_2; eauto].
  - destruct (allQuestions paper !! i) as [q|] eqn:Eq; [|apply Hst].
    assert (Hq : q ∈ allQuestions paper) by (eapply list_elem_of_lookup_2; eauto).
    destruct (Question.type q) eqn:Et; try apply Hst;
      (apply Hset; [exact Hq|]; unfold enterable; now rewrite Et).
Qed.

Lemma handle2_enterable st input :
  (∀ k a, TestPaperView2.answers st !! k = Some a →
          ∃ q, q ∈ allQuestions paper ∧ Question.id q = k ∧ enterable2 q a) →
  ∀ k a, TestPaperView2.answers (PaperForm.handle2 paper st input) !! k = Some a →
         ∃ q, q ∈ allQuestions paper ∧ Question.id q = k ∧ enterable2 q a.
Proof.
  intros Hst k a.
  assert (Hset : ∀ q v, q ∈ allQuestions paper → enterable2 q v →
            TestPaperView2.answers (TestPaperView2.setAnswer (Question.id q) v st)
              !! k = Some a →
            ∃ q, q ∈ allQuestions paper ∧ Question.id q = k ∧ enterable2 q a).
  { intros q v Hq Hv. cbn. destruct (decide (Question.id q = k)) as [<-|Hk].
    - rewrite lookup_insert_eq. intros [= <-]. eauto.
    - rewrite lookup_insert_ne by exact Hk. apply Hst. }
  destruct input as [i o|i text]; cbn [PaperForm.handle2].
  - destruct (allQuestions paper !! i) as [q|] eqn:Eq; [|apply Hst].
    assert (Hq : q ∈ allQuestions paper) by (eapply list_elem_of_lookup_2; eauto).
    destruct (Question.type q) eqn:Et; try apply Hst.
    destruct (Question.options q) as [options|] eqn:Eo; [|apply Hst].
    destruct (options !! o) as [opt|] eqn:Eopt; [|apply Hst].
    apply Hset; [exact Hq|]. unfold enterable2. rewrite Et.
    exists options, opt.
    split; [exact Eo|]. split; [eapply list_elem_of_lookup_2; eauto | reflexivity].
  - destruct (allQuestions paper !! i) as [q|] eqn:Eq; [|apply Hst].
    assert (Hq : q ∈ allQuestions paper) by (eapply list_elem_of_lookup_2; eauto).
    destruct (Question.type q) eqn:Et; try apply Hst.
    apply Hset; [exact Hq|]. unfold enterable2. now rewrite Et.
Qed.

Lemma form_answers inputs : ∀ st,
  (∀ k a, TestPaperView.answers st !! k = Some a →
          ∃ q, q ∈ allQuestions paper ∧ Question.id q = k ∧ enterable q a) →
  ∀ q a, q ∈ allQuestions paper →
    TestPaperView.answers (fold_left (PaperForm.handle paper) inputs st)
      !! Question.id q = Some a →
    enterable q a.
Proof.
  induction inputs as [|input inputs IH]; intros st Hst q a Hq Ha.
  - cbn in Ha. destruct (Hst _ _ Ha) as (q' & Hq' & E & He).
    now rewrite (same_question q q' Hq Hq' (eq_sym E)).
  - cbn [fold_left] in Ha. eapply IH; [|exact Hq|exact Ha].
    now apply handle_enterable.
Qed.

Lemma form2_answers inputs : ∀ st,
  (∀ k a, TestPaperView2.answers st !! k = Some a →
          ∃ q, q ∈ allQuestions paper ∧ Question.id q = k ∧ enterable2 q a) →
  ∀ q a, q ∈ allQuestions paper →
    TestPaperView2.answers (fold_left (PaperForm.handle2 paper) inputs st)
      !! Question.id q = Some a →
    enterable2 q a.
Proof.
  induction inputs as [|input inputs IH]; intros st Hst q a Hq Ha.
  - cbn in Ha. destruct (Hst _ _ Ha) as (q' & Hq' & E & He).
    now rewrite (same_question q q' Hq Hq' (eq_sym E)).
  - cbn [fold_left] in Ha. eapply IH; [|exact Hq|exact Ha].
    now apply handle2_enterable.
Qed.

End FormFacts.

(** ** A failed speech synthesis *)

Section SpeechFacts.

Variable paper : TestPaperData.t.
Hypothesis distinct : NoDup (List.map Question.id (allQuestions paper)).



End SpeechFacts.






(** X23: First variant of [handleSubmit]. The comparison of an
    objective question throws exactly when the question has a non-empty
    key and is unanswered while its id is the name of a member of
    [Object.prototype]. When no question of the paper is such, the
    submission ends in the result state: the requests are those of the
    writing questions for which [answers[q.id]] is truthy, in document
    order, the total is the sum of the objective awards and of the scores
    returned, a rejected request counting for 0, and the maximum is the sum
    of all [maxScore]. Otherwise the promise of [handleSubmit] rejects:
    nothing but [grading] is set, so that there is no result and the
    button [Submit Test] stays disabled. *)
Theorem first_variant_submission grader config paper st :
  let ans := TestPaperView.answers st in
  let qs := allQuestions paper in
  let calls := List.map (callOf config ans) (essaysAnswered ans qs) in
  let final := TestPaperView.handleSubmit grader config paper st in
  (∀ q, throwsAt ans q = true ↔
        isObjective q = true ∧ inheritedAnswer ans q = true ∧
        ∃ c, Question.correctAnswer q = Given c ∧ c ≠ "") ∧
  (noThrow ans qs →
   snd final = calls ∧
   TestPaperView.showResult (fst final) = true ∧
   TestPaperView.grading (fst final) = false ∧
   TestPaperView.total (TestPaperView.score (fst final))
   = objectiveTotal ans qs + essayTotal grader 0 calls ∧
   TestPaperView.max (TestPaperView.score (fst final)) = sumMaxScore qs) ∧
  (¬ noThrow ans qs →
   (∃ n, snd final = take n calls) ∧
   TestPaperView.grading (fst final) = true ∧
   TestPaperView.showResult (fst final) = TestPaperView.showResult st ∧
   TestPaperView.score (fst final) = TestPaperView.score st ∧
   TestPaperView.writingFeedback (fst final) = TestPaperView.writingFeedback st ∧
   TestPaperView.answers (fst final) = ans).
Proof.
  intros ans qs calls final. split; [|split].
  - intros q. apply throwsAt_spec.
  - intros Hsafe. subst final.
    split; [by apply handleSubmit_calls|].
    destruct (handleSubmit_completes grader config paper st Hsafe)
      as (Hshow & Hgrading & Hmax).
    split; [exact Hshow|]. split; [exact Hgrading|]. split; [|exact Hmax].
    rewrite handleSubmit_done by exact Hsafe.
    cbn [fst TestPaperView.score TestPaperView.total].
    rewrite fold_totalScore by exact Hsafe.
    cbn [TestPaperView.start TestPaperView.totalScore TestPaperView.issued length].
    subst calls ans qs. lia.
  - intros Hthrow. subst final. split.
    + apply handleSubmit_calls_prefix.
    + destruct (handleSubmit_thrown grader config paper st Hthrow) as [sent ->].
      by repeat split.
Qed.

(** Witness of X23: a keyed fill-in-blank question whose id is
    ["constructor"], left unanswered. *)
Lemma first_variant_submission_witness :
  let final :=
    TestPaperView.handleSubmit Sample.rejects Sample.config
      Sample.inheritedIdPaper TestPaperView.initial in
  throwsAt ∅ Sample.inheritedId = true ∧
  TestPaperView.grading (fst final) = true ∧
  TestPaperView.showResult (fst final) = false.
Proof.
  intros final. split; [reflexivity|].
  destruct (first_variant_submission Sample.rejects Sample.config
              Sample.inheritedIdPaper TestPaperView.initial)
    as (_ & _ & Hthrown).
  destruct Hthrown as (_ & Hgrading & Hshow & _).
  - intros Hsafe. apply Forall_cons in Hsafe as [Hq _]. discriminate Hq.
  - split; [exact Hgrading | exact Hshow].
Defined.

(** X21: The answer form of the first variant, on a paper whose
    question identifiers are distinct: whatever the user does, the answer
    held for a multiple-choice question is the text of one of its options.
    Hence such a question earns its score only if its key equals one of the
    option texts up to case and surrounding white space; a key in another
    format, such as the letter of the option, is never matched. *)
Theorem form_choice_is_option_text paper inputs q :
  NoDup (List.map Question.id (allQuestions paper)) →
  q ∈ allQuestions paper →
  Question.type q = multiple_choice →
  let ans :=
    TestPaperView.answers
      (fold_left (PaperForm.handle paper) inputs TestPaperView.initial) in
  (∀ a, ans !! Question.id q = Some a →
        ∃ options, Question.options q = Some options ∧ a ∈ options) ∧
  (TestPaperView.isMatch (JsObject.get ans (Question.id q))
     (Question.correctAnswer q) = Some true →
   ∃ options opt c,
     Question.options q = Some options ∧ opt ∈ options ∧
     Question.correctAnswer q = Given c ∧ normalised opt = normalised c) ∧
  ((∀ options opt c,
      Question.options q = Some options → opt ∈ options →
      Question.correctAnswer q = Given c → normalised opt ≠ normalised c) →
   objectiveAward ans q = 0).
Proof.
  intros Hnd Hq Ht ans.
  assert (Hans : ∀ a, ans !! Question.id q = Some a →
            ∃ options, Question.options q = Some options ∧ a ∈ options).
  { intros a Ha.
    assert (He := form_answers paper Hnd inputs TestPaperView.initial
                    ltac:(intros k a'; cbn; rewrite lookup_empty; discriminate)
                    q a Hq Ha).
    unfold enterable in He. now rewrite Ht in He. }
  assert (Hmatch : TestPaperView.isMatch (JsObject.get ans (Question.id q))
                     (Question.correctAnswer q) = Some true →
            ∃ options opt c,
              Question.options q = Some options ∧ opt ∈ options ∧
              Question.correctAnswer q = Given c ∧ normalised opt = normalised c).
  { unfold TestPaperView.isMatch, JsObject.get.
    destruct (Question.correctAnswer q) as [| |c]; try discriminate.
    destruct (JsString.truthy c); [|discriminate].
    destruct (ans !! Question.id q) as [a|] eqn:Ea;
      [|destruct (JsObject.inherits (Question.id q)); discriminate].
    intros [= H]. apply String.eqb_eq in H.
    destruct (Hans a eq_refl) as (options & Ho & Hin).
    exists options, a, c. repeat split; assumption. }
  split; [exact Hans|]. split; [exact Hmatch|].
  intros Hno. unfold objectiveAward.
  destruct (TestPaperView.isMatch _ _) as [[]|] eqn:E; try reflexivity.
  destruct (Hmatch eq_refl) as (options & opt & c & Ho & Hin & Hc & Hn).
  exfalso. exact (Hno options opt c Ho Hin Hc Hn).
Qed.

(** Witness of X21: the first option chosen, on a question whose key is the letter A. *)
Lemma form_choice_is_option_text_witness :
  let ans :=
    TestPaperView.answers
      (fold_left (PaperForm.handle Quiz.paper) [PaperForm.Choose 0 0]
         TestPaperView.initial) in
  ans !! "m1" = Some "A. Paris" ∧ objectiveAward ans Quiz.choice = 0.
Proof.
  intros ans. split; [reflexivity|].
  destruct (form_choice_is_option_text Quiz.paper [PaperForm.Choose 0 0]
              Quiz.choice) as (_ & _ & Hzero).
  - apply (bool_decide_unpack _). vm_compute. exact I.
  - left.
  - reflexivity.
  - apply Hzero. intros options opt c [= <-] Hin [= <-].
    apply elem_of_cons in Hin as [->|Hin]; [discriminate|].
    apply list_elem_of_singleton in Hin. subst. discriminate.
Defined.

(** X22: The answer form of the second variant, on a paper whose
    question identifiers are distinct: whatever the user does, a
    fill-in-blank or boolean question has no answer, since the form has no
    field for it, and the answer held for a multiple-choice question is the
    first character of one of its options. Hence a fill-in-blank or boolean
    question that has a key earns nothing, and a multiple-choice question
    that has a key earns nothing unless the key is the first character of
    one of its options. *)
Theorem form2_answers_limited paper inputs q :
  NoDup (List.map Question.id (allQuestions paper)) →
  q ∈ allQuestions paper →
  let ans :=
    TestPaperView2.answers
      (fold_left (PaperForm.handle2 paper) inputs TestPaperView2.initial) in
  (Question.type q = fill_in_blank ∨ Question.type q = boolean →
   ans !! Question.id q = None ∧
   (Question.correctAnswer q ≠ Omitted → objectiveAward2 ans q = 0)) ∧
  (Question.type q = multiple_choice →
   (∀ a, ans !! Question.id q = Some a →
         ∃ options opt, Question.options q = Some options ∧ opt ∈ options ∧
                        a = PaperForm.charAt0 opt) ∧
   (∀ c, Question.correctAnswer q = Given c →
         (∀ options opt, Question.options q = Some options → opt ∈ options →
                         PaperForm.charAt0 opt ≠ c) →
         objectiveAward2 ans q = 0)).
Proof.
  intros Hnd Hq ans.
  assert (Hans : ∀ a, ans !! Question.id q = Some a → enterable2 q a).
  { intros a Ha.
    exact (form2_answers paper Hnd inputs TestPaperView2.initial
             ltac:(intros k a'; cbn; rewrite lookup_empty; discriminate)
             q a Hq Ha). }
  split.
  - intros Ht.
    assert (Hnone : ans !! Question.id q = None).
    { destruct (ans !! Question.id q) as [a|] eqn:Ea; [|reflexivity].
      specialize (Hans a eq_refl). unfold enterable2 in Hans.
      destruct Ht as [Ht|Ht]; rewrite Ht in Hans; contradiction. }
    split; [exact Hnone|]. intros Hkey.
    unfold objectiveAward2, JsObject.get, TestPaperView2.strictEq.
    rewrite Hnone.
    destruct (JsObject.inherits (Question.id q)); [reflexivity|].
    now destruct (Question.correctAnswer q).
  - intros Ht.
    assert (Hopt : ∀ a, ans !! Question.id q = Some a →
              ∃ options opt, Question.options q = Some options ∧ opt ∈ options ∧
                             a = PaperForm.charAt0 opt).
    { intros a Ha. specialize (Hans a Ha). unfold enterable2 in Hans.
      now rewrite Ht in Hans. }
    split; [exact Hopt|]. intros c Hc Hno.
    unfold objectiveAward2, JsObject.get. rewrite Hc.
    destruct (ans !! Question.id q) as [a|] eqn:Ea;
      [|now destruct (JsObject.inherits (Question.id q))].
    destruct (Hopt a eq_refl) as (options & opt & Ho & Hin & ->).
    cbn. destruct (String.eqb_spec (PaperForm.charAt0 opt) c) as [E|_];
      [|reflexivity].
    exfalso. exact (Hno options opt Ho Hin E).
Qed.

(** Witness of X22: a text typed for the fill-in-blank question, and the first option chosen. *)
Lemma form2_answers_limited_witness :
  let ans :=
    TestPaperView2.answers
      (fold_left (PaperForm.handle2 Quiz.paper)
         [PaperForm.Enter 1 "paris"; PaperForm.Choose 0 0]
         TestPaperView2.initial) in
  ans !! "q1" = None ∧ objectiveAward2 ans Sample.capital = 0 ∧
  ans !! "m1" = Some "A" ∧ objectiveAward2 ans Quiz.choice = 2.
Proof.
  intros ans.
  destruct (form2_answers_limited Quiz.paper
              [PaperForm.Enter 1 "paris"; PaperForm.Choose 0 0] Sample.capital)
    as [Hblank _].
  - apply (bool_decide_unpack _). vm_compute. exact I.
  - right. left.
  - destruct (Hblank ltac:(left; reflexivity)) as [Hnone Hzero].
    split; [exact Hnone|]. split; [apply Hzero; discriminate|].
    split; reflexivity.
Defined.
